(** * varsens: Saltelli/Sobol variance-based sensitivity analysis

    A shallow embedding of [varsens/saltelli.py]: the classes [Sample],
    [Objective] and [Varsens], with the parts of numpy and ghalton they
    call modelled by their documented behaviour.

    Numbers.  A numpy float is modelled by [float64]: an exact rational
    or one of the IEEE special values (the two infinities and NaN).
    Rounding, overflow and the sign of zero are not modelled; arithmetic
    on finite values is exact, arithmetic on special values follows
    IEEE 754.

    Arrays.  A 2-D array is the list of its rows, a 3-D array the list of
    its 2-D slices along the first axis.  numpy arrays are rectangular and
    its elementwise operations want operands of one shape; the statements
    assume the shapes, and on other operands the model truncates where
    numpy raises.  An array without rows has no width in this model.

    Effects.  Arrays that the program updates in place live in a heap;
    the calls to the sequence source and to the objective function are
    logged.  An array that the caller passes in is taken by its contents
    at the call: the caller's own array object is not in the heap.

    Files.  A file holds the table [numpy.savetxt] wrote for a 2-D
    array, one line for each row: [export] yields the arrays it writes
    with their names.  [numpy.loadtxt] reads a table back squeezed (a
    table of one line or of one column comes back 1-D, a single number
    0-D), and [numpy.vstack] puts what was read together.  Printing and
    the progress report are left out. *)

From Stdlib Require Import QArith Qcanon Ascii.
From stdpp Require Import base numbers list strings pretty.

Local Open Scope Qc_scope.

(** ** Floating-point values *)

Inductive float64 : Type :=
  | Fin (q : Qc)
  | PInf
  | NInf
  | NaN.

#[global] Instance float64_eq_dec : EqDecision float64.
Proof. solve_decision. Defined.

#[global] Instance float64_inhabited : Inhabited float64 := populate NaN.

Definition of_Z (z : Z) : float64 := Fin (Qc_of_Z z).
Definition of_nat (n : nat) : float64 := of_Z (Z.of_nat n).

Definition isnan (x : float64) : bool :=
  match x with NaN => true | _ => false end.

Definition isfinite (x : float64) : bool :=
  match x with Fin _ => true | _ => false end.

(** The infinity with the sign of [q]; zero counts as positive. *)
Definition inf_signed (q : Qc) : float64 :=
  if decide (q < 0) then NInf else PInf.

Definition fneg (x : float64) : float64 :=
  match x with
  | Fin q => Fin (- q)
  | PInf => NInf
  | NInf => PInf
  | NaN => NaN
  end.

Definition fadd (x y : float64) : float64 :=
  match x, y with
  | NaN, _ | _, NaN => NaN
  | Fin a, Fin b => Fin (a + b)
  | PInf, NInf | NInf, PInf => NaN
  | PInf, _ | _, PInf => PInf
  | NInf, _ | _, NInf => NInf
  end.

Definition fsub (x y : float64) : float64 := fadd x (fneg y).

Definition fmul (x y : float64) : float64 :=
  match x, y with
  | NaN, _ | _, NaN => NaN
  | Fin a, Fin b => Fin (a * b)
  | Fin a, PInf | PInf, Fin a =>
      if decide (a = 0) then NaN else inf_signed a
  | Fin a, NInf | NInf, Fin a =>
      if decide (a = 0) then NaN else inf_signed (- a)
  | PInf, PInf | NInf, NInf => PInf
  | PInf, NInf | NInf, PInf => NInf
  end.

Definition fdiv (x y : float64) : float64 :=
  match x, y with
  | NaN, _ | _, NaN => NaN
  | Fin a, Fin b =>
      if decide (b = 0)
      then (if decide (a = 0) then NaN else inf_signed a)
      else Fin (a / b)
  | Fin _, (PInf | NInf) => Fin 0
  | (PInf | NInf), (PInf | NInf) => NaN
  | PInf, Fin b => inf_signed b
  | NInf, Fin b => inf_signed (- b)
  end.

Local Close Scope Qc_scope.

(** ** Exceptions *)

Inductive exn : Type :=
  | Exception (msg : string)
  | ValueError (msg : string)
  | TypeError (msg : string)
  | AttributeError
  | IndexError.

Definition result (A : Type) : Type := exn + A.

Definition raise {A} (e : exn) : result A := inl e.
Definition ret {A} (a : A) : result A := inr a.
Definition bind {A B} (r : result A) (f : A -> result B) : result B :=
  match r with inl e => inl e | inr a => f a end.

Notation "x <- r ;; k" := (bind r (fun x => k))
  (at level 100, r at next level, right associativity).

(** [range(a, b)] *)
Definition range (a b : nat) : list nat := seq a (b - a).

(** [for x in l: s = body s x] where the body may raise. *)
Fixpoint fold_result {A S} (l : list A) (s : S) (body : S -> A -> result S) : result S :=
  match l with
  | [] => ret s
  | x :: l' => s' <- body s x ;; fold_result l' s' body
  end.

(** [a[i]] *)
Definition item {A} (a : list A) (i : nat) : result A :=
  match a !! i with Some x => ret x | None => raise IndexError end.

(** ** The numpy operations the program uses *)

Abbreviation vec := (list float64).
Abbreviation mat := (list (list float64)).
Abbreviation ten := (list (list (list float64))).
Abbreviation ten4 := (list (list (list (list float64)))).

Module numpy.

(** [x[a:b]] for [0 <= a <= b]: slices clip at the end of the array. *)
Definition slice {A} (a b : nat) (x : list A) : list A :=
  take (b - a) (drop a x).

(** The trailing dimension of a 2-D array with at least one row. *)
Definition width {A} (x : list (list A)) : nat :=
  match x with [] => 0 | r :: _ => length r end.

(** What [numpy.loadtxt] returns: an array of up to two dimensions.  A
    2-D array it returns has a first row. *)
Inductive loaded : Type :=
  | D0 (v : float64)
  | D1 (v : vec)
  | D2 (r : vec) (rows : mat).

(** [numpy.loadtxt] on the file [numpy.savetxt] wrote for the 2-D array
    [a].  The array read is squeezed: every axis of length one is
    dropped.  An array without rows or without columns leaves a file
    without data, which reads as an empty 1-D array. *)
Definition loadtxt (a : mat) : loaded :=
  match a with
  | [] => D1 []
  | r :: rows =>
      match rows, r with
      | [], [v] => D0 v
      | [], _ => D1 r
      | _ :: _, [] => D1 []
      | _ :: _, [_] => D1 (concat a)
      | _ :: _, _ => D2 r rows
      end
  end.

(** [numpy.atleast_2d]: a number becomes a 1 x 1 array and a 1-D array
    of length [l] the one row of a 1 x [l] array. *)
Definition atleast_2d (a : loaded) : mat :=
  match a with
  | D0 v => [[v]]
  | D1 v => [v]
  | D2 r rows => r :: rows
  end.

(** [numpy.vstack(tup)]: the arrays of [tup], each made 2-D, one below
    the other.  It raises when [tup] is empty and when the arrays differ
    in width; the messages are those of numpy 1.16, the last release for
    Python 2. *)
Definition vstack (tup : list loaded) : result mat :=
  match atleast_2d <$> tup with
  | [] => raise (ValueError "need at least one array to concatenate")
  | a :: arrs =>
      if decide (Forall (fun b : mat => width b = width a) arrs)
      then ret (concat (a :: arrs))
      else raise (ValueError "all the input array dimensions except for the concatenation axis must match exactly")
  end.

Definition zeros1 (l : nat) : vec := replicate l (Fin 0).
Definition zeros2 (n l : nat) : mat := replicate n (zeros1 l).
Definition zeros3 (k n l : nat) : ten := replicate k (zeros2 n l).

(** Elementwise operations on arrays of equal shape. *)
Definition add1 : vec -> vec -> vec := zip_with fadd.
Definition sub1 : vec -> vec -> vec := zip_with fsub.
Definition mul1 : vec -> vec -> vec := zip_with fmul.
Definition div1 : vec -> vec -> vec := zip_with fdiv.
Definition mul2 : mat -> mat -> mat := zip_with mul1.

(** An array divided by a scalar. *)
Definition div1s (x : vec) (s : float64) : vec := (fun v => fdiv v s) <$> x.
Definition div2s (x : mat) (s : float64) : mat := (fun r => div1s r s) <$> x.

Definition isnan2 (x : mat) : list (list bool) :=
  (fun r : vec => isnan <$> r) <$> x.

Definition logical_or (a b : list (list bool)) : list (list bool) :=
  zip_with (zip_with orb) a b.

(** [a[:,0]]; an array without columns has no column 0. *)
Definition column0 {A} (a : list (list A)) : result (list A) :=
  match mapM head a with
  | Some c => ret c
  | None => raise IndexError
  end.

(** [numpy.delete(arr, obj, axis=0)]: the entries of [arr] whose index
    is not listed in [obj]; [i] is the index of the head of [arr]. *)
Fixpoint delete_from {A} (obj : list nat) (i : nat) (arr : list A) : list A :=
  match arr with
  | [] => []
  | a :: arr' =>
      if decide (i ∈ obj) then delete_from obj (S i) arr'
      else a :: delete_from obj (S i) arr'
  end.

Definition delete {A} (arr : list A) (obj : list nat) : list A :=
  delete_from obj 0 arr.

(** [numpy.sum(x, axis=0)] of a 2-D array of trailing dimension [l]. *)
Definition sum0 (l : nat) (x : mat) : vec := foldl add1 (zeros1 l) x.

(** [numpy.sum(x, axis=1)] of a 3-D array. *)
Definition sum1 (x : ten) : mat := (fun a => sum0 (width a) a) <$> x.

(** The columns of a 2-D array: [columns a !! c] is [a[:,c]]. *)
Definition columns (a : mat) : mat :=
  (fun c => (fun r : vec => r !!! c) <$> a) <$> seq 0 (width a).

Definition dot (u v : vec) : float64 := foldl fadd (Fin 0) (zip_with fmul u v).

(** [numpy.tensordot(a, b, axes=([1],[1]))] of two 3-D arrays: the
    4-D array with [r[p][c][q][d] = sum_i a[p][i][c] * b[q][i][d]]. *)
Definition tensordot (a b : ten) : ten4 :=
  (fun ap : mat =>
     (fun u : vec =>
        (fun bq : mat => (fun v : vec => dot u v) <$> columns bq) <$> b)
       <$> columns ap) <$> a.

(** [numpy.concatenate((a, b), axis=0)]. *)
Definition concatenate {A} (a b : list A) : list A := a ++ b.

(** [numpy.var(x, axis=0, ddof=ddof)]: the mean of each column, the
    squared deviations from it, their sum over [max(N - ddof, 0)]. *)
Definition var0 (x : mat) (ddof : nat) : vec :=
  let N := length x in
  let l := width x in
  let arrmean := div1s (sum0 l x) (of_nat N) in
  let dev := (fun r => sub1 r arrmean) <$> x in
  let sq := (fun r => mul1 r r) <$> dev in
  div1s (sum0 l sq) (of_nat (N - ddof)).

End numpy.

(** ** Python values

    The values that reach a parameter the callers fill positionally: an
    integer, a boolean or an array. *)

Inductive pyobj : Type :=
  | PyInt (i : nat)
  | PyBool (b : bool)
  | PyArray (x : mat).

(** [int(v)] *)
Definition int (v : pyobj) : result nat :=
  match v with
  | PyInt i => ret i
  | PyBool b => ret (if b then 1 else 0)
  | PyArray _ => raise (TypeError "only length-1 arrays can be converted to Python scalars")
  end.

(** [len(v)] *)
Definition len (v : pyobj) : result nat :=
  match v with
  | PyInt _ => raise (TypeError "object of type 'int' has no len()")
  | PyBool _ => raise (TypeError "object of type 'bool' has no len()")
  | PyArray x => ret (length x)
  end.

(** The array behind a value that has a length. *)
Definition array (v : pyobj) : result mat :=
  match v with
  | PyArray x => ret x
  | _ => raise (TypeError "not an array")
  end.

(** What an objective function returns: a number or a sequence. *)
Inductive pyval : Type :=
  | Scalar (v : float64)
  | Vector (v : vec).

(** ** The interpreter state

    Arrays are objects: [heap] holds them by address, so that an in-place
    update of one array is seen through every reference to it and through
    no other.  [gets] logs the sizes of the requests made to the Halton
    generator and [calls] the points the objective function was applied
    to, both in order. *)

Inductive ndarray : Type :=
  | Arr2 (a : mat)
  | Arr3 (a : ten).

Abbreviation loc := nat.

Record world : Type := World {
  heap : list ndarray;
  gets : list nat;
  calls : list vec
}.

Definition io (A : Type) : Type := world -> result (A * world).

Definition io_ret {A} (a : A) : io A := fun w => ret (a, w).
Definition io_bind {A B} (c : io A) (f : A -> io B) : io B :=
  fun w => match c w with inl e => inl e | inr (a, w') => f a w' end.
Definition io_raise {A} (e : exn) : io A := fun _ => raise e.
Definition lift {A} (r : result A) : io A :=
  fun w => match r with inl e => inl e | inr a => ret (a, w) end.

Notation "x <~ c ;; k" := (io_bind c (fun x => k))
  (at level 100, c at next level, right associativity).
Notation "c ;;; k" := (io_bind c (fun _ => k))
  (at level 100, right associativity).

(** [for x in l: s = body s x] *)
Fixpoint for_fold {A S} (l : list A) (s : S) (body : S -> A -> io S) : io S :=
  match l with
  | [] => io_ret s
  | x :: l' => s' <~ body s x ;; for_fold l' s' body
  end.

(** [for x in l: body x] *)
Fixpoint for_each {A} (l : list A) (body : A -> io unit) : io unit :=
  match l with
  | [] => io_ret tt
  | x :: l' => body x ;;; for_each l' body
  end.

(** A fresh array object, and reading and replacing the contents of one. *)
Definition alloc (a : ndarray) : io loc :=
  fun w => ret (length (heap w), World (heap w ++ [a]) (gets w) (calls w)).

Definition read2 (l : loc) : io mat :=
  fun w => match heap w !! l with
           | Some (Arr2 a) => ret (a, w)
           | _ => raise IndexError
           end.

Definition read3 (l : loc) : io ten :=
  fun w => match heap w !! l with
           | Some (Arr3 a) => ret (a, w)
           | _ => raise IndexError
           end.

Definition write (l : loc) (a : ndarray) : io unit :=
  fun w => ret (tt, World (<[l := a]> (heap w)) (gets w) (calls w)).

(** [a[:,i]] *)
Definition column {A} (a : list (list A)) (i : nat) : result (list A) :=
  match mapM (fun r : list A => r !! i) a with
  | Some c => ret c
  | None => raise IndexError
  end.

(** [a[:,i] = col]: [col] has one entry per row of [a], or a single entry
    which numpy broadcasts to every row. *)
Definition set_column (a : mat) (i : nat) (col : vec) : result mat :=
  if decide (Forall (fun r : vec => i < length r) a) then
    if decide (length col = length a) then
      ret (zip_with (fun (r : vec) v => <[i := v]> r) a col)
    else match col with
         | [v] => ret ((fun r : vec => <[i := v]> r) <$> a)
         | _ => raise (ValueError "could not broadcast input array")
         end
  else raise IndexError.

(** [x.shape] of a 2-D array. *)
Definition shape (x : mat) : nat * nat := (length x, numpy.width x).

(** [str(x.shape)] and ["(%d,%d)" % (r, c)]. *)
Definition str_shape (s : nat * nat) : string :=
  "(" +:+ pretty s.1 +:+ ", " +:+ pretty s.2 +:+ ")".
Definition fmt_shape (r c : nat) : string :=
  "(" +:+ pretty r +:+ "," +:+ pretty c +:+ ")".

(** The loop shared by the two [load] methods,
    [for i in range(k): fN[i] = g(x[curr_length:curr_length+n,...]);
    curr_length += n], on a freshly allocated [fN]. *)
Definition extract_blocks (g : mat -> mat) (k n : nat) (x : mat)
    (fN : ten) (curr_length : nat) : ten * nat :=
  foldl (fun '(fN, curr_length) i =>
           (<[i := g (numpy.slice curr_length (curr_length + n) x)]> fN,
            curr_length + n))
        (fN, curr_length) (range 0 k).

(** [self.attr] of an attribute that may not have been set. *)
Definition attr {A} (a : option A) : result A :=
  match a with
  | Some x => ret x
  | None => raise AttributeError
  end.

(** [for x in l: out.append(f(x))] where [f] may raise. *)
Fixpoint map_result {A B} (f : A -> result B) (l : list A) : result (list B) :=
  match l with
  | [] => ret []
  | x :: l' => y <- f x ;; ys <- map_result f l' ;; ret (y :: ys)
  end.

(** numpy's broadcasting along one axis: [v] has the [n] entries asked
    for, or a single entry that is repeated. *)
Definition broadcast {A} (n : nat) (v : list A) : result (list A) :=
  if decide (length v = n) then ret v
  else match v with
       | [s] => ret (replicate n s)
       | _ => raise (ValueError "could not broadcast input array")
       end.

(** [x[a:b,...] = v] on 2-D arrays, for [0 <= a <= b]: the rows [a..b)
    of [x], as far as [x] has them, are overwritten with [v] broadcast to
    their shape. *)
Definition set_rows (x : mat) (a b : nat) (v : mat) : result mat :=
  let target := numpy.slice a b x in
  rows <- broadcast (length target) v ;;
  rows <- map_result (fun '(t, r) => broadcast (length (t : vec)) (r : vec))
                     (zip target rows) ;;
  ret (take a x ++ rows ++ drop (a + length target) x).

(** ** Strings, paths and files *)

Module str.

(** [s[-1]] and [s[:-1]]. *)
Fixpoint last (s : string) : result Ascii.ascii :=
  match s with
  | EmptyString => raise IndexError
  | String c EmptyString => ret c
  | String _ s' => last s'
  end.

Fixpoint but_last (s : string) : string :=
  match s with
  | EmptyString => EmptyString
  | String _ EmptyString => EmptyString
  | String c s' => String c (but_last s')
  end.

(** [s.split()]: the words of [s] between runs of whitespace. *)
Definition split (s : string) : list string := String.words s.

(** [sep.join(l)] *)
Fixpoint join (sep : string) (l : list string) : string :=
  match l with
  | [] => EmptyString
  | s :: l' =>
      match l' with
      | [] => s
      | _ => s +:+ sep +:+ join sep l'
      end
  end.

Definition startswith (s : string) (c : Ascii.ascii) : bool :=
  match s with
  | String c' _ => bool_decide (c' = c)
  | EmptyString => false
  end.

Definition endswith (s : string) (c : Ascii.ascii) : bool :=
  match last s with
  | inr c' => bool_decide (c' = c)
  | inl _ => false
  end.

End str.

(** [os.path.join(a, b)] of [posixpath]. *)
Definition os_path_join (a b : string) : string :=
  if str.startswith b "/"%char then b
  else if bool_decide (a = EmptyString) || str.endswith a "/"%char then a +:+ b
  else a +:+ "/" +:+ b.

(** The start of the two [load] methods, saltelli.py lines 198-211 and
    420-432: the list [FILES].  An argument that is [None], an empty
    string or the number zero counts as not given; [what] and [whose] are
    the words in which the two methods' messages differ. *)
Definition file_names (what whose : string) (indir : string)
    (loadFile prefix : option string) (postfix : string)
    (nFiles : option Z) (offset : Z) : result (list string) :=
  match loadFile with
  | Some (String c f) => ret [os_path_join indir (String c f)]
  | _ =>
      match prefix with
      | Some (String c p) =>
          match nFiles with
          | None | Some Z0 =>
              raise (Exception ("Loading " +:+ whose
                                +:+ " files with 'prefix' requires defining 'nFiles'."))
          | Some nFiles =>
              let prefix := String c p in
              c <- str.last prefix ;;
              let prefix := if bool_decide (c ≠ "_"%char) then prefix +:+ "_" else prefix in
              ret ((fun i => os_path_join indir prefix
                             +:+ pretty (offset + Z.of_nat i)%Z +:+ postfix)
                     <$> seq 0 (Z.to_nat nFiles))
          end
      | _ =>
          raise (Exception ("Either 'loadFile' or 'prefix' are required to load "
                            +:+ what +:+ " from file."))
      end
  end.

(** The loop over [FILES], saltelli.py lines 213-219 and 434-440: a name
    that is no file raises, the arrays read are collected in order.
    [fs file] is the 2-D array whose table [file] holds, if there is
    such a file. *)
Definition read_files (fs : string -> option mat) (FILES : list string)
    : result (list numpy.loaded) :=
  fold_result FILES [] (fun sample file =>
    match fs file with
    | None => raise (Exception ("Cannot find input file " +:+ file))
    | Some a => ret (sample ++ [numpy.loadtxt a])
    end).

(** The [blocksize] argument of [export]: [float("inf")] or an integer. *)
Inductive blocksize : Type :=
  | Inf
  | Rows (b : Z).

(** What [export] can raise: an exception of [exn], or the division by a
    block size of zero. *)
Inductive raised : Type :=
  | Raised (e : exn)
  | ZeroDivisionError.

(** [int(numpy.ceil(float(a) / b))] for [b] other than zero. *)
Definition ceil_div (a b : Z) : Z := (- ((- a) / b))%Z.

(** The body of the two [export] methods after [f = self.flat()],
    saltelli.py lines 178-194 and 397-413: the calls to [numpy.savetxt],
    each a file name and the array written, in order.  The loop over the
    blocks runs only for a positive block size. *)
Definition export_files (f : mat) (outdir prefix postfix : string)
    (blocksize : blocksize) : raised + list (string * mat) :=
  let blocksize : Z :=
    match blocksize with
    | Inf => Z.of_nat (length f)
    | Rows b => if decide (Z.of_nat (length f) < b)%Z then Z.of_nat (length f) else b
    end in
  let prefix := str.join "_" (str.split prefix) in
  match str.last prefix with
  | inl e => inl (Raised e)
  | inr c =>
      let prefix := if bool_decide (c = "_"%char) then str.but_last prefix else prefix in
      let prefix := os_path_join outdir prefix in
      if decide (blocksize = 0%Z) then inl ZeroDivisionError
      else
        let nFiles := ceil_div (Z.of_nat (length f)) blocksize in
        if decide (nFiles = 1%Z) then inr [(prefix +:+ postfix, f)]
        else
          inr ((fun b =>
                  (prefix +:+ "_" +:+ pretty (b + 1) +:+ postfix,
                   numpy.slice (b * Z.to_nat blocksize)
                               ((b + 1) * Z.to_nat blocksize) f))
                 <$> range 0 (Z.to_nat nFiles))
  end.

(** ** class Sample: the sample space *)

Module Sample.
Section Sample.

(** [ghalton.Halton(k)]: [halton k i] is point [i] of the
    [k]-dimensional Halton sequence. *)
Variable halton : nat -> nat -> vec.

(** [numpy.random.seed(1); numpy.random.shuffle(a)] for [a] of length
    [n]: afterwards [a[i]] is the old [a[shuffle1 n !!! i]]. *)
Variable shuffle1 : nat -> list nat.

(** A [Sample] object; an attribute is [None] until it is assigned. *)
Record t : Type := mk {
  k : nat;
  n : nat;
  M_1 : option loc;
  M_2 : option loc;
  N_j : option loc;
  N_nj : option loc
}.

(** [seq.get(c)] on a generator of dimension [k] that has produced
    [pos] points so far: the next [c] points. *)
Definition get (k pos c : nat) : io (mat * nat) :=
  fun w => ret ((halton k <$> seq pos c, pos + c),
                World (heap w) (gets w ++ [c]) (calls w)).

(** [numpy.random.seed(1); numpy.random.shuffle(a)], in place. *)
Definition shuffle (l : loc) : io unit :=
  a <~ read2 l ;;
  write l (Arr2 ((fun i => a !!! i) <$> shuffle1 (length a))).

(** [generate_N_j], saltelli.py lines 113-126:
    [N_j = numpy.array([M_2]*self.k)] copies [M_2] into a new array,
    then [for i in range(self.k): N_j[i,:,i] = M_1[:,i]]. *)
Definition generate_N_j (k : nat) (M_1 M_2 : loc) : io loc :=
  m2 <~ read2 M_2 ;;
  N_j <~ alloc (Arr3 (replicate k m2)) ;;
  for_each (range 0 k) (fun i =>
    m1 <~ read2 M_1 ;;
    col <~ lift (column m1 i) ;;
    a <~ read3 N_j ;;
    ai <~ lift (item a i) ;;
    ai' <~ lift (set_column ai i col) ;;
    write N_j (Arr3 (<[i := ai']> a))) ;;;
  io_ret N_j.

(** [Sample.load], saltelli.py lines 196-251, from [numpy.vstack] on:
    [sample] is the list of the arrays read from the files.  It returns
    the stacked array, and [self] with the attributes a flattened
    sample sets. *)
Definition load (self : t) (scaling : option (mat -> mat)) (sample : list numpy.loaded)
    : io (mat * t) :=
  let k := k self in
  let n := n self in
  x <~ lift (numpy.vstack sample) ;;
  if decide (shape x = (2 * n, k)) then
    match scaling with
    | None =>
        io_raise (Exception "Loading a pre-generated, unscaled sample space requires that a 'scaling' function be defined.")
    | Some _ => io_ret (x, self)
    end
  else if decide (shape x = (2 * n * (1 + k), k)) then
    M_1 <~ alloc (Arr2 (numpy.slice 0 n x)) ;;
    M_2 <~ alloc (Arr2 (numpy.slice n (2 * n) x)) ;;
    let curr_length := 2 * n in
    let '(N_j, curr_length) :=
      extract_blocks (fun a => a) k n x (numpy.zeros3 k n k) curr_length in
    N_j <~ alloc (Arr3 N_j) ;;
    let '(N_nj, curr_length) :=
      extract_blocks (fun a => a) k n x (numpy.zeros3 k n k) curr_length in
    N_nj <~ alloc (Arr3 N_nj) ;;
    io_ret (x, mk k n (Some M_1) (Some M_2) (Some N_j) (Some N_nj))
  else
    io_raise (Exception ("Loaded sample has shape " +:+ str_shape (shape x)
                         +:+ ". Must have shape " +:+ fmt_shape (2 * n) k
                         +:+ " or " +:+ fmt_shape (2 * n * (1 + k)) k +:+ ".")).

(** The common tail of [__init__], saltelli.py lines 86-111: scaling,
    the shuffle on the raw path, and the two resample families.  What
    [scaling] returns for each half is held as an array object of its
    own.  Where [scaling] returns its argument, as the default does, the
    two objects are views of the two disjoint halves of [x]: the shuffle
    of [M_2] then also permutes rows [n..2n-1] of [x], which on the raw
    path is the caller's array.  That write to an object of the caller
    is not represented here. *)
Definition derive (self : t) (scaling : option (mat -> mat)) (is_raw : bool) (x : mat) : io t :=
  let k := k self in
  let n := n self in
  let scaling := match scaling with None => (fun x => x) | Some s => s end in
  M_1 <~ alloc (Arr2 (scaling (numpy.slice 0 n x))) ;;
  M_2 <~ alloc (Arr2 (scaling (numpy.slice n (2 * n) x))) ;;
  (if is_raw then shuffle M_2 else io_ret tt) ;;;
  N_j <~ generate_N_j k M_1 M_2 ;;
  N_nj <~ generate_N_j k M_2 M_1 ;;
  io_ret (mk k n (Some M_1) (Some M_2) (Some N_j) (Some N_nj)).

(** [Sample(k, n, scaling, discard, verbose, raw, loadArgs)],
    saltelli.py lines 62-111; [raw] is the contents of the array passed
    and [loadArgs] stands for the arrays [numpy.loadtxt] returns for the
    files it names. *)
Definition init (k n : nat) (scaling : option (mat -> mat)) (discard : pyobj)
    (raw : option mat) (loadArgs : option (list numpy.loaded)) : io t :=
  let self := mk k n None None None None in
  match raw with
  | Some x =>
      if decide (shape x ≠ (2 * n, k)) then
        io_raise (Exception "Raw sample dimensions do not match specified dimensions")
      else derive self scaling true x
  | None =>
      match loadArgs with
      | Some sample =>
          r <~ load self scaling sample ;;
          let '(x, self) := r in
          if decide (shape x = (2 * n * (1 + k), k)) then io_ret self
          else derive self scaling false x
      | None =>
          match scaling with
          | None =>
              io_raise (Exception "Generating a fresh sample space requires that a 'scaling' function be defined.")
          | Some _ =>
              let pos := 0 in
              discard <~ lift (int discard) ;;
              r <~ get k pos (20 * k + discard) ;;
              let '(_, pos) := r in
              r <~ get k pos (2 * n) ;;
              let '(x, pos) := r in
              derive self scaling false x
          end
      end
  end.

(** [flat], saltelli.py lines 128-161: the sample space as one array,
    [M_1], [M_2], the [N_j[i]] and the [N_nj[i]] one after the other. *)
Definition flat (self : t) : io mat :=
  M_1 <~ lift (attr (M_1 self)) ;;
  m1 <~ read2 M_1 ;;
  let l1 := length m1 in
  M_2 <~ lift (attr (M_2 self)) ;;
  m2 <~ read2 M_2 ;;
  let l2 := length m2 in
  N_j <~ lift (attr (N_j self)) ;;
  nj <~ read3 N_j ;;
  let l3 := length nj * numpy.width nj in
  N_nj <~ lift (attr (N_nj self)) ;;
  nnj <~ read3 N_nj ;;
  let l4 := length nnj * numpy.width nnj in
  let x := numpy.zeros2 (l1 + l2 + l3 + l4) (k self) in
  x <~ lift (set_rows x 0 l1 m1) ;;
  x <~ lift (set_rows x l1 (l1 + l2) m2) ;;
  let curr_length := l1 + l2 in
  r <~ for_fold (range 0 (k self)) (x, curr_length) (fun '(x, curr_length) i =>
         nj <~ read3 N_j ;;
         a <~ lift (item nj i) ;;
         x <~ lift (set_rows x curr_length (curr_length + length a) a) ;;
         io_ret (x, curr_length + length a)) ;;
  let '(x, curr_length) := r in
  r <~ for_fold (range 0 (k self)) (x, curr_length) (fun '(x, curr_length) i =>
         nnj <~ read3 N_nj ;;
         a <~ lift (item nnj i) ;;
         x <~ lift (set_rows x curr_length (curr_length + length a) a) ;;
         io_ret (x, curr_length + length a)) ;;
  let '(x, curr_length) := r in
  io_ret x.

(** [export], saltelli.py lines 174-194: the files written. *)
Definition export (self : t) (outdir prefix postfix : string)
    (blocksize : blocksize) (w : world) : raised + (list (string * mat) * world) :=
  match flat self w with
  | inl e => inl (Raised e)
  | inr (f, w') =>
      match export_files f outdir prefix postfix blocksize with
      | inl e => inl e
      | inr files => inr (files, w')
      end
  end.

(** The start of [load], saltelli.py lines 198-219: the arrays read
    from the files that the arguments name. *)
Definition read (fs : string -> option mat) (indir : string)
    (loadFile prefix : option string) (postfix : string)
    (nFiles : option Z) (offset : Z) : result (list numpy.loaded) :=
  FILES <- file_names "a sample" "sample" indir loadFile prefix postfix nFiles offset ;;
  read_files fs FILES.

End Sample.
End Sample.

(** ** class Objective: the evaluation tables *)

Module Objective.

(** The attributes of an [Objective] that the computation reads: the
    design parameters and the four tables [fM_1], [fM_2] (n x m) and
    [fN_j], [fN_nj] (k x n x m). *)
Record t : Type := mk {
  k : nat;
  n : nat;
  fM_1 : mat;
  fM_2 : mat;
  fN_j : ten;
  fN_nj : ten
}.

(** The first half of [load], saltelli.py lines 449-472: the length
    check and the slicing of the stacked array [x] into the four
    tables.  [numpy.width x] stands for [len(x[0])]; an array without
    rows, which passes the length check when [n] is zero, has no row
    [x[0]] in Python. *)
Definition extract (k n : nat) (x : mat) (scaling : float64) : result t :=
  if decide (length x = 2 * n * (1 + k)) then
    let fM_1 := numpy.div2s (numpy.slice 0 n x) scaling in
    let fM_2 := numpy.div2s (numpy.slice n (2 * n) x) scaling in
    let curr_length := 2 * n in
    let l := numpy.width x in
    let fN_j := numpy.zeros3 k n l in
    let fN_nj := numpy.zeros3 k n l in
    let '(fN_j, curr_length) :=
      extract_blocks (fun a => numpy.div2s a scaling) k n x fN_j curr_length in
    let '(fN_nj, curr_length) :=
      extract_blocks (fun a => numpy.div2s a scaling) k n x fN_nj curr_length in
    ret (mk k n fM_1 fM_2 fN_j fN_nj)
  else
    raise (Exception ("Loaded objective has length " +:+ pretty (length x)
                      +:+ ". Must have length " +:+ pretty (2 * n * (1 + k)) +:+ ".")).

(** "locate nans", saltelli.py lines 477-482: the elementwise
    disjunction of the NaN masks of the four tables, of which the first
    column is kept.  [fN_j] and [fN_nj] hold [k] tables each. *)
Definition locate_nans (self : t) : result (list bool) :=
  let isnan := numpy.logical_or (numpy.isnan2 (fM_1 self)) (numpy.isnan2 (fM_2 self)) in
  let isnan :=
    foldl (fun isnan i =>
             let isnan := numpy.logical_or isnan (numpy.isnan2 (fN_j self !!! i)) in
             numpy.logical_or isnan (numpy.isnan2 (fN_nj self !!! i)))
          isnan (seq 0 (k self)) in
  numpy.column0 isnan.

(** "Construct array of NaN rows". *)
Definition nan_rows (isnan : list bool) : list nat :=
  filter (fun i => isnan !!! i = true) (seq 0 (length isnan)).

(** The second half of [load], saltelli.py lines 474-492: "Trim the
    row from *all* matrices if *one* has a nan". *)
Definition trim (self : t) : result t :=
  isnan <- locate_nans self ;;
  let nans := nan_rows isnan in
  ret (mk (k self) (n self)
          (numpy.delete (fM_1 self) nans)
          (numpy.delete (fM_2 self) nans)
          ((fun a => numpy.delete a nans) <$> fN_j self)
          ((fun a => numpy.delete a nans) <$> fN_nj self)).

(** [Objective.load] on values already in memory ([obj_vals], or the
    files' contents after stacking). *)
Definition load (k n : nat) (x : mat) (scaling : float64) : result t :=
  self <- extract k n x scaling ;;
  trim self.

(** [objective_func(x)]: the call is logged. *)
Definition call (objective_func : vec -> pyval) (x : vec) : io pyval :=
  fun w => ret (objective_func x, World (heap w) (gets w) (calls w ++ [x])).

(** [a[i] = v] on a 2-D array: a number fills the row, a sequence must
    have the row's length or length one. *)
Definition assign_row (a : mat) (i : nat) (v : pyval) : result mat :=
  row <- item a i ;;
  let l := length row in
  match v with
  | Scalar s => ret (<[i := replicate l s]> a)
  | Vector u =>
      if decide (length u = l) then ret (<[i := u]> a)
      else match u with
           | [s] => ret (<[i := replicate l s]> a)
           | _ => raise (ValueError "could not broadcast input array")
           end
  end.

(** [for i in range(start, n): fM[i] = objective_func(sample.M[i])] *)
Definition evaluate2 (objective_func : vec -> pyval) (M : option loc)
    (start n : nat) (fM : mat) : io mat :=
  for_fold (range start n) fM (fun fM i =>
    M <~ lift (attr M) ;;
    m <~ read2 M ;;
    x <~ lift (item m i) ;;
    v <~ call objective_func x ;;
    lift (assign_row fM i v)).

(** [for i in range(k): for j in range(n):
      fN[i][j] = objective_func(sample.N[i][j])] *)
Definition evaluate3 (objective_func : vec -> pyval) (N : option loc)
    (k n : nat) (fN : ten) : io ten :=
  for_fold (range 0 k) fN (fun fN i =>
    for_fold (range 0 n) fN (fun fN j =>
      N <~ lift (attr N) ;;
      a <~ read3 N ;;
      ai <~ lift (item a i) ;;
      x <~ lift (item ai j) ;;
      v <~ call objective_func x ;;
      fNi <~ lift (item fN i) ;;
      fNi' <~ lift (assign_row fNi j v) ;;
      io_ret (<[i := fNi']> fN))).

(** [Objective(k, n, sample, objective_func, objective_vals, verbose,
    loadArgs)], saltelli.py lines 287-355; [loadArgs] stands for the
    stacked contents of the files it names and the [scaling] divisor. *)
Definition init (k n : nat) (sample : option Sample.t)
    (objective_func : option (vec -> pyval)) (objective_vals : pyobj)
    (loadArgs : option (mat * float64)) : io t :=
  l <~ lift (len objective_vals) ;;
  if decide (0 < l) then
    x <~ lift (array objective_vals) ;;
    lift (load k n x (of_Z 1))
  else match loadArgs with
  | Some (x, scaling) => lift (load k n x scaling)
  | None =>
      match sample, objective_func with
      | None, _ =>
          io_raise (Exception "Generating a fresh objective requires that a 'sample' be defined.")
      | Some _, None =>
          io_raise (Exception "Generating a fresh objective requires that an 'objective_func' be defined.")
      | Some sample, Some objective_func =>
          M_1 <~ lift (attr (Sample.M_1 sample)) ;;
          m1 <~ read2 M_1 ;;
          x0 <~ lift (item m1 0) ;;
          test <~ call objective_func x0 ;;
          let l := match test with Vector v => length v | Scalar _ => 1 end in
          let fM_1 := numpy.zeros2 n l in
          let fM_2 := numpy.zeros2 n l in
          let fN_j := numpy.zeros3 k n l in
          let fN_nj := numpy.zeros3 k n l in
          fM_1 <~ lift (assign_row fM_1 0 test) ;;
          fM_1 <~ evaluate2 objective_func (Sample.M_1 sample) 1 n fM_1 ;;
          fM_2 <~ evaluate2 objective_func (Sample.M_2 sample) 0 n fM_2 ;;
          fN_j <~ evaluate3 objective_func (Sample.N_j sample) k n fN_j ;;
          fN_nj <~ evaluate3 objective_func (Sample.N_nj sample) k n fN_nj ;;
          io_ret (mk k n fM_1 fM_2 fN_j fN_nj)
      end
  end.

(** [flat], saltelli.py lines 357-391: the four tables as one array of
    [fM_1.shape[1]] columns. *)
Definition flat (self : t) : result mat :=
  let l1 := length (fM_1 self) in
  let l2 := length (fM_2 self) in
  let l3 := length (fN_j self) * numpy.width (fN_j self) in
  let l4 := length (fN_nj self) * numpy.width (fN_nj self) in
  let x := numpy.zeros2 (l1 + l2 + l3 + l4) (numpy.width (fM_1 self)) in
  x <- set_rows x 0 l1 (fM_1 self) ;;
  x <- set_rows x l1 (l1 + l2) (fM_2 self) ;;
  let curr_length := l1 + l2 in
  r <- fold_result (range 0 (k self)) (x, curr_length) (fun '(x, curr_length) i =>
         a <- item (fN_j self) i ;;
         x <- set_rows x curr_length (curr_length + length a) a ;;
         ret (x, curr_length + length a)) ;;
  let '(x, curr_length) := r in
  r <- fold_result (range 0 (k self)) (x, curr_length) (fun '(x, curr_length) i =>
         a <- item (fN_nj self) i ;;
         x <- set_rows x curr_length (curr_length + length a) a ;;
         ret (x, curr_length + length a)) ;;
  let '(x, curr_length) := r in
  ret x.

(** [export], saltelli.py lines 393-413: the files written. *)
Definition export (self : t) (outdir prefix postfix : string)
    (blocksize : blocksize) : raised + list (string * mat) :=
  match flat self with
  | inl e => inl (Raised e)
  | inr f => export_files f outdir prefix postfix blocksize
  end.

End Objective.


(** Python's builtin [sum] over the rows of a 2-D array: [0 + x[0] + x[1]
    + ...], the integer [0] broadcast against the first row. *)
Definition builtin_sum (x : mat) : vec :=
  foldl numpy.add1 (numpy.zeros1 (numpy.width x)) x.

(** ** class Varsens: the estimator *)

Module Varsens.

Record t : Type := mk {
  k : nat;
  n : nat;
  objective : Objective.t;
  E_2 : vec;
  var_y : vec;
  U_j : mat;
  U_nj : mat;
  sens : mat;
  sens_t : mat;
  sens_2 : ten4;
  sens_2n : ten4
}.

(** [numpy.sum(fM * fN, axis=1) / (n - 1)], [fM] broadcast against the
    first axis of [fN]. *)
Definition cross (n : nat) (fM : mat) (fN : ten) : mat :=
  (fun r => numpy.div1s r (of_Z (Z.of_nat n - 1)))
    <$> numpy.sum1 ((fun a => numpy.mul2 fM a) <$> fN).

(** The double estimate: [U = cross fM fN; U += cross fM' fN'; U /= 2.0]. *)
Definition double_estimate (n : nat) (fM : mat) (fN : ten) (fM' : mat) (fN' : ten) : mat :=
  let U := cross n fM fN in
  let U := zip_with numpy.add1 U (cross n fM' fN') in
  numpy.div2s U (of_Z 2).

(** An operation on the trailing axis applied throughout a 4-D array. *)
Definition on_last (g : vec -> vec) (a : ten4) : ten4 :=
  (fun a1 : ten => (fun a2 : mat => (fun a3 : vec => g a3) <$> a2) <$> a1) <$> a.

Definition add4 (a b : ten4) : ten4 :=
  zip_with (zip_with (zip_with numpy.add1)) a b.

(** [s = tensordot(a, b); s += tensordot(a', b'); s /= 2.0 * (n-1);
    s -= E_2; s /= var_y]. *)
Definition second_order (n : nat) (E_2 var_y : vec) (a b a' b' : ten) :=
  let s := numpy.tensordot a b in
  let s := add4 s (numpy.tensordot a' b') in
  let s := on_last (fun r => numpy.div1s r (fmul (of_Z 2) (of_Z (Z.of_nat n - 1)))) s in
  let s := on_last (fun r => numpy.sub1 r E_2) s in
  on_last (fun r => numpy.div1 r var_y) s.

(** [compute_varsens], saltelli.py lines 572-622; [self.k] and
    [self.n] are the arguments [k] and [n]. *)
Definition compute_varsens (k n : nat) (objective : Objective.t) : result t :=
  let fM_1 := Objective.fM_1 objective in
  let fM_2 := Objective.fM_2 objective in
  let fN_j := Objective.fN_j objective in
  let fN_nj := Objective.fN_nj objective in
  let E_2 := numpy.div1s (builtin_sum (numpy.mul2 fM_1 fM_2)) (of_nat n) in
  let var_y := numpy.var0 (numpy.concatenate fM_1 fM_2) 1 in
  let U_j := double_estimate n fM_1 fN_j fM_2 fN_nj in
  let U_nj := double_estimate n fM_1 fN_nj fM_2 fN_j in
  let sens := numpy.zeros2 k (numpy.width U_j) in
  let sens_t := numpy.zeros2 k (numpy.width U_j) in
  st <- fold_result (range 0 k) (sens, sens_t) (fun '(sens, sens_t) j =>
          U_j_j <- item U_j j ;;
          let sens := <[j := numpy.div1 (numpy.sub1 U_j_j E_2) var_y]> sens in
          U_nj_j <- item U_nj j ;;
          let sens_t :=
            <[j := (fun v => fsub (of_Z 1) v)
                     <$> numpy.div1 (numpy.sub1 U_nj_j E_2) var_y]> sens_t in
          ret (sens, sens_t)) ;;
  let '(sens, sens_t) := st in
  let sens_2 := second_order n E_2 var_y fN_nj fN_j fN_j fN_nj in
  let sens_2n := second_order n E_2 var_y fN_nj fN_nj fN_j fN_j in
  ret (mk k n objective E_2 var_y U_j U_nj sens sens_t sens_2 sens_2n).

(** The first statement of [__init__], saltelli.py lines 548-559: it
    settles [self.k], [self.n] and [self.sample], any of which may stay
    unset.  [Sample(k, n, scaling_func, verbose)] passes [verbose] in
    the position of [discard]. *)
Definition init_sample (halton : nat -> nat -> vec) (shuffle1 : nat -> list nat)
    (objective : Objective.t + (vec -> pyval))
    (scaling_func : option (mat -> mat)) (k n : option nat)
    (sample : option Sample.t) (verbose : bool)
    : io (option nat * option nat * option Sample.t) :=
  match sample, k, n, scaling_func, objective with
  | Some sample, _, _, _, _ =>
      io_ret (Some (Sample.k sample), Some (Sample.n sample), Some sample)
  | None, Some k', Some n', Some _, _ =>
      sample <~ Sample.init halton shuffle1 k' n' scaling_func (PyBool verbose) None None ;;
      io_ret (Some k', Some n', Some sample)
  | _, _, _, _, inr _ =>
      io_raise (ValueError "Must specify sample, (k,n,scaling_func), or Objective object")
  | _, _, _, _, inl _ => io_ret (None, None, None)
  end.

(** [Varsens(objective, scaling_func, k, n, sample, verbose)],
    saltelli.py lines 545-570; [objective] is an [Objective] or a
    function.  [Objective(self.k, self.n, self.sample, objective,
    verbose)] passes [verbose] in the position of [objective_vals]. *)
Definition init (halton : nat -> nat -> vec) (shuffle1 : nat -> list nat)
    (objective : Objective.t + (vec -> pyval))
    (scaling_func : option (mat -> mat)) (k n : option nat)
    (sample : option Sample.t) (verbose : bool) : io t :=
  self <~ init_sample halton shuffle1 objective scaling_func k n sample verbose ;;
  let '(self_k, self_n, self_sample) := self in
  match objective with
  | inl objective =>
      lift (compute_varsens (Objective.k objective) (Objective.n objective) objective)
  | inr objective_func =>
      k <~ lift (attr self_k) ;;
      n <~ lift (attr self_n) ;;
      objective <~ Objective.init k n self_sample (Some objective_func) (PyBool verbose) None ;;
      lift (compute_varsens k n objective)
  end.

End Varsens.

(** * Vocabulary of the statements *)

(** Entry [a[p][c][q][d]] of a 4-D array, and its row [a[p][c][q]]. *)
Definition get4 (a : ten4) (p c q d : nat) : option float64 :=
  a1 ← a !! p; a2 ← a1 !! c; a3 ← a2 !! q; a3 !! d.

Definition row3 (a : ten4) (p c q : nat) : option vec :=
  a1 ← a !! p; a2 ← a1 !! c; a2 !! q.

(** A 2-D array of [r] rows and [c] columns, and a 3-D array of [d]
    such arrays. *)
Definition rect (r c : nat) (a : mat) : Prop :=
  length a = r ∧ Forall (λ row : vec, length row = c) a.

Definition rect3 (d r c : nat) (a : ten) : Prop :=
  length a = d ∧ Forall (rect r c) a.

#[global] Instance rect_dec r c a : Decision (rect r c a).
Proof. unfold rect. apply _. Defined.

#[global] Instance rect3_dec d r c a : Decision (rect3 d r c a).
Proof. unfold rect3. apply _. Defined.

(** The four tables of an evaluation set hold [n'] sample rows of [m]
    output components each, for every one of the [k] parameters. *)
Definition shaped (o : Objective.t) (n' m : nat) : Prop :=
  rect n' m (Objective.fM_1 o) ∧ rect n' m (Objective.fM_2 o) ∧
  rect3 (Objective.k o) n' m (Objective.fN_j o) ∧
  rect3 (Objective.k o) n' m (Objective.fN_nj o).

#[global] Instance shaped_dec o n' m : Decision (shaped o n' m).
Proof. unfold shaped. apply _. Defined.

(** Column [c] of a table, and the sum of a list of numbers. *)
Definition col (c : nat) (a : mat) : vec := (λ row : vec, row !!! c) <$> a.
Definition fsum (v : vec) : float64 := foldl fadd (Fin 0%Qc) v.

(** The record [compute_varsens] returns when every [U_j[j]] and
    [U_nj[j]] it reads exists. *)
Definition estimates (k n : nat) (objective : Objective.t) : Varsens.t :=
  let fM_1 := Objective.fM_1 objective in
  let fM_2 := Objective.fM_2 objective in
  let fN_j := Objective.fN_j objective in
  let fN_nj := Objective.fN_nj objective in
  let E_2 := numpy.div1s (builtin_sum (numpy.mul2 fM_1 fM_2)) (of_nat n) in
  let var_y := numpy.var0 (numpy.concatenate fM_1 fM_2) 1 in
  let U_j := Varsens.double_estimate n fM_1 fN_j fM_2 fN_nj in
  let U_nj := Varsens.double_estimate n fM_1 fN_nj fM_2 fN_j in
  let '(sens, sens_t) :=
    foldl (λ '((sens, sens_t) : mat * mat) j,
             (<[j := numpy.div1 (numpy.sub1 (U_j !!! j) E_2) var_y]> sens,
              <[j := (λ v, fsub (of_Z 1) v)
                       <$> numpy.div1 (numpy.sub1 (U_nj !!! j) E_2) var_y]> sens_t))
          (numpy.zeros2 k (numpy.width U_j), numpy.zeros2 k (numpy.width U_j))
          (seq 0 k) in
  Varsens.mk k n objective E_2 var_y U_j U_nj sens sens_t
    (Varsens.second_order n E_2 var_y fN_nj fN_j fN_j fN_nj)
    (Varsens.second_order n E_2 var_y fN_nj fN_nj fN_j fN_j).

(** The mean of a list of numbers, the sum of the squared deviations
    from it, and the variance estimate with a given divisor. *)
Definition mean (xs : vec) : float64 := fdiv (fsum xs) (of_nat (length xs)).
Definition sum_sq_dev (xs : vec) : float64 :=
  fsum ((λ v, fmul (fsub v (mean xs)) (fsub v (mean xs))) <$> xs).
Definition variance (divisor : Z) (xs : vec) : float64 :=
  fdiv (sum_sq_dev xs) (of_Z divisor).

(** The number [z], and the number [a / b]. *)
Definition fz (z : Z) : float64 := of_Z z.

(** An evaluation set with [k = 2], [n = 2] and one output component. *)
Definition demo_objective : Objective.t :=
  Objective.mk 2 2
    [[fz 1]; [fz 2]] [[fz 3]; [fz 5]]
    [[[fz 7]; [fz 9]]; [[fz 2]; [fz 4]]]
    [[[fz 6]; [fz 8]]; [[fz 1]; [fz 3]]].

(** The cross sum of two tables in output component [c]. *)
Definition cross_sum (c : nat) (a b : mat) : float64 :=
  fsum (zip_with fmul (col c a) (col c b)).

(** The double estimate as the program computes it from the two cross
    sums: each is divided by [n - 1], the quotients are added and halved. *)
Definition halved (n : nat) (s1 s2 : float64) : float64 :=
  fdiv (fadd (fdiv s1 (of_Z (Z.of_nat n - 1))) (fdiv s2 (of_Z (Z.of_nat n - 1))))
       (of_Z 2).

#[global] Instance exn_eq_dec : EqDecision exn.
Proof. solve_decision. Defined.

#[global] Instance objective_eq_dec : EqDecision Objective.t.
Proof. solve_decision. Defined.

Definition frac (a : Z) (b : positive) : float64 := Fin (Q2Qc (a # b)).

(** A campaign with [k = 1], [n = 3] and one output component, in the
    order [fM_1; fM_2; fN_j[0]; fN_nj[0]]; the value of [fM_1[1]] is NaN. *)
Definition pruned_vals : mat :=
  [[fz 1]; [NaN]; [fz 2];
   [fz 3]; [fz 4]; [fz 5];
   [fz 7]; [fz 8]; [fz 9];
   [fz 6]; [fz 1]; [fz 8]].

(** What [load] makes of it: row 1 is gone from every table, [n] is
    still 3. *)
Definition pruned_objective : Objective.t :=
  Objective.mk 1 3 [[fz 1]; [fz 2]] [[fz 3]; [fz 5]]
               [[[fz 7]; [fz 9]]] [[[fz 6]; [fz 8]]].

(** The squared-mean estimate as the specification words it: the mean
    over the remaining rows of the products [fM1[i] * fM2[i]]. *)
Definition mean_of_products (c : nat) (fM1 fM2 : mat) : float64 :=
  fdiv (cross_sum c fM1 fM2) (of_nat (length fM1)).

(** The double estimate as the specification words it, with the
    post-prune count [n']. *)
Definition U_claimed (n' : nat) (s1 s2 : float64) : float64 :=
  fdiv (fadd s1 s2) (of_Z (2 * (Z.of_nat n' - 1))).

(** The two indices as the specification words them. *)
Definition first_order_claimed (n' : nat) (v : Varsens.t) (p c : nat)
    : option float64 :=
  let o := Varsens.objective v in
  E ← Varsens.E_2 v !! c; V ← Varsens.var_y v !! c;
  fNj ← Objective.fN_j o !! p; fNnj ← Objective.fN_nj o !! p;
  Some (fdiv (fsub (U_claimed n' (cross_sum c (Objective.fM_1 o) fNj)
                                 (cross_sum c (Objective.fM_2 o) fNnj)) E) V).

Definition total_order_claimed (n' : nat) (v : Varsens.t) (p c : nat)
    : option float64 :=
  let o := Varsens.objective v in
  E ← Varsens.E_2 v !! c; V ← Varsens.var_y v !! c;
  fNj ← Objective.fN_j o !! p; fNnj ← Objective.fN_nj o !! p;
  Some (fsub (of_Z 1)
          (fdiv (fsub (U_claimed n' (cross_sum c (Objective.fM_1 o) fNnj)
                                    (cross_sum c (Objective.fM_2 o) fNj)) E) V)).

(** Whether the first component of row [i] of a table is NaN. *)
Definition nan_at (a : mat) (i : nat) : bool :=
  match a !! i with
  | Some (v :: _) => isnan v
  | _ => false
  end.

(** Whether, in some table of the set, the first component of sample
    row [i] is NaN. *)
Definition has_nan (o : Objective.t) (i : nat) : bool :=
  nan_at (Objective.fM_1 o) i || nan_at (Objective.fM_2 o) i
  || existsb (λ a, nan_at a i) (Objective.fN_j o)
  || existsb (λ a, nan_at a i) (Objective.fN_nj o).

(** The first column of a mask. *)
Definition first (b : list (list bool)) : list bool :=
  (λ r : list bool, default false (head r)) <$> b.

(** A row with at least one entry. *)
Definition nonempty {A} (r : list A) : Prop := r ≠ [].

(** One round of the loop that accumulates the NaN mask. *)
Definition locate_step (fN_j fN_nj : ten) (isnan : list (list bool)) (i : nat)
    : list (list bool) :=
  numpy.logical_or (numpy.logical_or isnan (numpy.isnan2 (fN_j !!! i)))
                   (numpy.isnan2 (fN_nj !!! i)).

(** The rows of a table at the listed indices, in the listed order. *)
Definition keep {A} `{!Inhabited A} (surv : list nat) (a : list A) : list A :=
  (λ i, a !!! i) <$> surv.

(** [dst] with column [j] overwritten by column [j] of [src]. *)
Definition overwrite (j : nat) (src dst : mat) : mat :=
  zip_with (λ (r : vec) v, <[j := v]> r) dst (col j src).

(** The [k] resample matrices derived from [src] and [dst]. *)
Definition families (k : nat) (src dst : mat) : ten :=
  (λ j, overwrite j src dst) <$> seq 0 k.

(** The 2-D array an attribute refers to. *)
Definition deref2 (w : world) (l : option loc) : option mat :=
  l ≫= λ l, match heap w !! l with Some (Arr2 a) => Some a | _ => None end.

Definition deref3 (w : world) (l : option loc) : option ten :=
  l ≫= λ l, match heap w !! l with Some (Arr3 a) => Some a | _ => None end.

(** The scaling function [__init__] applies: the identity when none is
    given. *)
Definition scaling_or_id (scaling : option (mat → mat)) : mat → mat :=
  match scaling with None => λ x, x | Some s => s end.

(** A scaling function that maps [n] points of dimension [k] to [n]
    points of dimension [k]. *)
Definition keeps_shape (n k : nat) (sc : mat → mat) : Prop :=
  ∀ a, rect n k a → rect n k (sc a).

(** The result of [derive] on the design [x]: the sample object and the
    four arrays it allocates after the ones in [h]. *)
Definition derived_sample (h : list ndarray) (k n : nat) : Sample.t :=
  Sample.mk k n (Some (length h)) (Some (length h + 1))
              (Some (length h + 2)) (Some (length h + 3)).

Definition derived_heap (h : list ndarray) (k : nat) (m1 m2 : mat) : list ndarray :=
  h ++ [Arr2 m1; Arr2 m2; Arr3 (families k m1 m2); Arr3 (families k m2 m1)].

(** The three ways in which [Sample(...)] comes to derive a sample from
    an unscaled design: a raw array, files holding a [(2n, k)] design,
    or fresh points of the Halton sequence after a burn-in. *)
Inductive construction : Type :=
  | FromRaw (x : mat) (loadArgs : option (list numpy.loaded))
  | FromFiles (files : list numpy.loaded)
  | Fresh (discard : pyobj).

(** The arguments with which the constructor is called. *)
Definition raw_of (c : construction) : option mat :=
  match c with FromRaw x _ => Some x | _ => None end.

Definition loadArgs_of (c : construction) : option (list numpy.loaded) :=
  match c with
  | FromRaw _ loadArgs => loadArgs
  | FromFiles files => Some files
  | Fresh _ => None
  end.

Definition discard_of (c : construction) : pyobj :=
  match c with Fresh discard => discard | _ => PyInt 0 end.

(** The number of points burnt before the design is drawn. *)
Definition burn_in (k : nat) (discard : pyobj) : nat :=
  20 * k + match discard with PyInt d => d | PyBool true => 1 | _ => 0 end.

(** The array [numpy.vstack] makes of the arrays read from the files;
    there is none when it raises. *)
Definition stacked (sample : list numpy.loaded) : mat :=
  match numpy.vstack sample with
  | inr x => x
  | inl _ => []
  end.

(** The unscaled design. *)
Definition design (halton : nat → nat → vec) (k n : nat) (c : construction) : mat :=
  match c with
  | FromRaw x _ => x
  | FromFiles files => stacked files
  | Fresh discard => halton k <$> seq (burn_in k discard) (2 * n)
  end.

(** The requests the construction makes to the sequence source. *)
Definition requests (k n : nat) (c : construction) : list nat :=
  match c with
  | Fresh discard => [burn_in k discard; 2 * n]
  | _ => []
  end.

(** [M_2] is shuffled on the raw path only. *)
Definition second_half (shuffle1 : nat → list nat) (c : construction) (m2 : mat) : mat :=
  match c with
  | FromRaw _ _ => keep (shuffle1 (length m2)) m2
  | _ => m2
  end.

(** What a construction needs in order to go through. *)
Definition admissible (c : construction) (scaling : option (mat → mat)) : Prop :=
  match c with
  | FromRaw _ _ => True
  | FromFiles _ => is_Some scaling
  | Fresh discard => is_Some scaling ∧ (∀ x, discard ≠ PyArray x)
  end.

(** Entry [(r, c)] of a 2-D array. *)
Definition entry (a : mat) (r c : nat) : option float64 := a !! r ≫= (.!! c).

(** Whether [p] occurs in [s]. *)
Fixpoint starts_with (p s : string) : bool :=
  match p, s with
  | EmptyString, _ => true
  | String a p', String b s' => if Ascii.eqb a b then starts_with p' s' else false
  | String _ _, EmptyString => false
  end.

Fixpoint contains (p s : string) : bool :=
  starts_with p s ||
  match s with
  | EmptyString => false
  | String _ s' => contains p s'
  end.

(** The two messages of a shape mismatch. *)
Definition raw_message : string :=
  "Raw sample dimensions do not match specified dimensions".

Definition loaded_message (actual : nat * nat) (n k : nat) : string :=
  "Loaded sample has shape " +:+ str_shape actual
  +:+ ". Must have shape " +:+ fmt_shape (2 * n) k
  +:+ " or " +:+ fmt_shape (2 * n * (1 + k)) k +:+ ".".

(** The components of a returned value, as a table row holds them. *)
Definition stored (v : pyval) : vec :=
  match v with Scalar s => [s] | Vector u => u end.

(** An objective function all of whose values have [l] components. *)
Definition uniform (f : vec → pyval) (l : nat) : Prop :=
  ∀ x, length (stored (f x)) = l.

(** The table of the values of [f] at the rows of [a]. *)
Definition values (f : vec → pyval) (a : mat) : mat :=
  (λ x, stored (f x)) <$> a.

(** The world after the calls [xs] were logged. *)
Definition logged (w : world) (xs : list vec) : world :=
  World (heap w) (gets w) (calls w ++ xs).

(** Equality of results is decidable, so that concrete runs can be
    compared by evaluation. *)
#[global] Instance ndarray_eq_dec : EqDecision ndarray.
Proof. solve_decision. Defined.

#[global] Instance world_eq_dec : EqDecision world.
Proof. solve_decision. Defined.

#[global] Instance sample_eq_dec : EqDecision Sample.t.
Proof. solve_decision. Defined.

(** A stand-in for the sequence source: point [i] of dimension [k] has
    the coordinates [10 i], [10 i + 1], ... *)
Definition demo_halton (k i : nat) : vec := (λ c, of_nat (10 * i + c)) <$> seq 0 k.

(** A stand-in for the seeded shuffle: it reverses the rows. *)
Definition demo_shuffle (n : nat) : list nat := reverse (seq 0 n).

(** The world before anything was allocated or called. *)
Definition empty_world : world := World [] [] [].

(** An unscaled design with [k = 2] and [n = 2]. *)
Definition demo_design : mat := [[fz 1; fz 2]; [fz 3; fz 4]; [fz 5; fz 6]; [fz 7; fz 8]].

(** The tables of two files with two parameters, of one and of two lines,
    and of two files with one parameter, of one and of two lines. *)
Definition three_rows : list mat := [[[fz 1; fz 2]]; [[fz 3; fz 4]; [fz 5; fz 6]]].
Definition one_column : list mat := [[[fz 1]]; [[fz 2]; [fz 3]]].

(** A sample with [k = 1] and [n = 2], and the world that holds it. *)
Definition demo_sample : Sample.t := Sample.mk 1 2 (Some 0) (Some 1) (Some 2) (Some 3).
Definition demo_world : world :=
  World [Arr2 [[fz 1]; [fz 2]]; Arr2 [[fz 3]; [fz 4]];
         Arr3 [[[fz 1]; [fz 2]]]; Arr3 [[[fz 3]; [fz 4]]]] [] [].

(** An objective function that doubles its only parameter, and one that
    is NaN everywhere. *)
Definition double (x : vec) : pyval := Scalar (fmul (fz 2) (x !!! 0)).
Definition undefined (x : vec) : pyval := Scalar NaN.

(** A campaign with [k = 1], [n = 2] and two output components in which
    [fM_1[0]] has a NaN in its second component and [fM_2[0]] is
    infinite in its first. *)
Definition nonfinite_vals : mat :=
  [[fz 1; NaN]; [fz 2; fz 3];
   [PInf; fz 4]; [fz 5; fz 6];
   [fz 7; fz 8]; [fz 9; fz 1];
   [fz 2; fz 3]; [fz 4; fz 5]].

(** The rows of the four arrays in the order in which [flat] lists them. *)
Definition flattened (m1 m2 : mat) (nj nnj : ten) : mat :=
  m1 ++ m2 ++ concat nj ++ concat nnj.

(** A sample object whose four attributes refer to arrays of the shapes
    the constructor gives them. *)
Definition holds (w : world) (s : Sample.t) (m1 m2 : mat) (nj nnj : ten) : Prop :=
  deref2 w (Sample.M_1 s) = Some m1 ∧ deref2 w (Sample.M_2 s) = Some m2 ∧
  deref3 w (Sample.N_j s) = Some nj ∧ deref3 w (Sample.N_nj s) = Some nnj ∧
  rect (Sample.n s) (Sample.k s) m1 ∧ rect (Sample.n s) (Sample.k s) m2 ∧
  rect3 (Sample.k s) (Sample.n s) (Sample.k s) nj ∧
  rect3 (Sample.k s) (Sample.n s) (Sample.k s) nnj.

(** The sample object and the heap after a flattened sample was loaded. *)
Definition loaded_sample (h : list ndarray) (k n : nat) : Sample.t :=
  Sample.mk k n (Some (length h)) (Some (length h + 1))
            (Some (length h + 2)) (Some (length h + 3)).

Definition loaded_heap (h : list ndarray) (m1 m2 : mat) (nj nnj : ten) : list ndarray :=
  h ++ [Arr2 m1; Arr2 m2; Arr3 nj; Arr3 nnj].

(** The evaluation set with the rows [surv] of every table. *)
Definition kept (surv : list nat) (o : Objective.t) : Objective.t :=
  Objective.mk (Objective.k o) (Objective.n o)
    (keep surv (Objective.fM_1 o)) (keep surv (Objective.fM_2 o))
    (keep surv <$> Objective.fN_j o) (keep surv <$> Objective.fN_nj o).

(** The sample rows without a NaN in the first component of any table. *)
Definition survivors (o : Objective.t) (n : nat) : list nat :=
  filter (λ i, has_nan o i = false) (seq 0 n).



(** The evaluation set with the two halves of the design exchanged. *)
Definition swapped (o : Objective.t) : Objective.t :=
  Objective.mk (Objective.k o) (Objective.n o)
    (Objective.fM_2 o) (Objective.fM_1 o) (Objective.fN_nj o) (Objective.fN_j o).

(** A 4-D array of the shape [(k, m, k, m)]. *)
Definition rect4 (k m : nat) (a : ten4) : Prop :=
  length a = k ∧ Forall (rect3 m k m) a.

(** A string without a whitespace character. *)
Fixpoint nospace (s : string) : bool :=
  match s with
  | EmptyString => true
  | String a s' => negb (Ascii.is_space a) && nospace s'
  end.

(** A string of whitespace characters only. *)
Fixpoint blank (s : string) : bool :=
  match s with
  | EmptyString => true
  | String a s' => Ascii.is_space a && blank s'
  end.

(** A prefix as [export] takes it: at least one character and no
    whitespace. *)
Definition plain (s : string) : Prop := s ≠ EmptyString ∧ nospace s = true.

(** The prefix without the underscore it may end with, as [export] uses
    it, and with the underscore it may lack, as [load] uses it. *)
Definition without_underscore (p : string) : string :=
  if str.endswith p "_"%char then str.but_last p else p.

Definition with_underscore (p : string) : string :=
  if str.endswith p "_"%char then p else p +:+ "_".

(** The names under which [export] writes [c] blocks, [c] other than 1. *)
Definition block_names (outdir prefix postfix : string) (c : nat) : list string :=
  (λ b, os_path_join outdir (without_underscore prefix)
        +:+ "_" +:+ pretty (b + 1) +:+ postfix) <$> seq 0 c.

(** The name under which [export] writes a single block. *)
Definition single_name (outdir prefix postfix : string) : string :=
  os_path_join outdir (without_underscore prefix) +:+ postfix.

(** The block size [export] works with. *)
Definition effective (bs : blocksize) (len : nat) : Z :=
  match bs with
  | Inf => Z.of_nat len
  | Rows b => if decide (Z.of_nat len < b)%Z then Z.of_nat len else b
  end.

(** A file system that holds one file. *)
Definition only_file (name : string) (a : mat) (file : string) : option mat :=
  if decide (file = name) then Some a else None.

(** The four arrays of [demo_sample]. *)
Definition demo_M_1 : mat := [[fz 1]; [fz 2]].
Definition demo_M_2 : mat := [[fz 3]; [fz 4]].
Definition demo_N_j : ten := [[[fz 1]; [fz 2]]].
Definition demo_N_nj : ten := [[[fz 3]; [fz 4]]].

(** A sample with [k = 2] and [n = 1], its four arrays and the world that
    holds it. *)
Definition pair_M_1 : mat := [[fz 1; fz 2]].
Definition pair_M_2 : mat := [[fz 3; fz 4]].
Definition pair_N_j : ten := [[[fz 1; fz 4]]; [[fz 3; fz 2]]].
Definition pair_N_nj : ten := [[[fz 3; fz 2]]; [[fz 1; fz 4]]].
Definition pair_sample : Sample.t := Sample.mk 2 1 (Some 0) (Some 1) (Some 2) (Some 3).
Definition pair_world : world :=
  World [Arr2 pair_M_1; Arr2 pair_M_2; Arr3 pair_N_j; Arr3 pair_N_nj] [] [].

(** The flattened [pair_sample] in two blocks, of four and of two rows,
    and the flattened [demo_sample]. *)
Definition pair_blocks : list mat :=
  [[[fz 1; fz 2]; [fz 3; fz 4]; [fz 1; fz 4]; [fz 3; fz 2]];
   [[fz 3; fz 2]; [fz 1; fz 4]]].
Definition demo_flat : mat :=
  [[fz 1]; [fz 2]; [fz 3]; [fz 4]; [fz 1]; [fz 2]; [fz 3]; [fz 4]].

(** An evaluation set with [n = 1]. *)
Definition single_draw : Objective.t :=
  Objective.mk 1 1 [[fz 1]] [[fz 2]] [[[fz 3]]] [[[fz 4]]].

(** An evaluation set whose values on [M_1] and [M_2] are all 5. *)
Definition constant_objective : Objective.t :=
  Objective.mk 1 2 [[fz 5]; [fz 5]] [[fz 5]; [fz 5]]
               [[[fz 5]; [fz 7]]] [[[fz 6]; [fz 5]]].

(** An evaluation set, as a fresh evaluation leaves it, with a NaN in
    [fM_2]. *)
Definition spoilt_objective : Objective.t :=
  Objective.mk 1 2 [[fz 1]; [fz 2]] [[fz 3]; [NaN]]
               [[[fz 7]; [fz 9]]] [[[fz 6]; [fz 8]]].

(** A file system with the two blocks of the flattened [demo_sample]. *)
Definition demo_fs (file : string) : option mat :=
  if decide (file = "out/sample_1.txt") then Some [[fz 1]; [fz 2]; [fz 3]]
  else if decide (file = "out/sample_2.txt") then Some [[fz 4]]
  else None.

(** * Lemmas and theorems *)

(** ** Arithmetic of the special values *)

Lemma fadd_comm x y : fadd x y = fadd y x.
Proof. destruct x, y; simpl; try done. f_equal. apply Qcplus_comm. Qed.

Lemma fmul_comm x y : fmul x y = fmul y x.
Proof. destruct x, y; simpl; try done. f_equal. apply Qcmult_comm. Qed.

Lemma zip_with_fmul_comm (u v : vec) : zip_with fmul u v = zip_with fmul v u.
Proof.
  revert v. induction u as [|x u IH]; intros [|y v]; simpl; try done.
  by rewrite fmul_comm, IH.
Qed.

Lemma dot_comm u v : numpy.dot u v = numpy.dot v u.
Proof. unfold numpy.dot. by rewrite zip_with_fmul_comm. Qed.

(** ** Entries of 4-D arrays *)

Lemma get4_row3 a p c q d : get4 a p c q d = r ← row3 a p c q; r !! d.
Proof.
  unfold get4, row3.
  destruct (a !! p) as [a1|]; simpl; [|done].
  by destruct (a1 !! c).
Qed.

Lemma get4_tensordot a b p c q d :
  get4 (numpy.tensordot a b) p c q d =
    ap ← a !! p; u ← numpy.columns ap !! c;
    bq ← b !! q; v ← numpy.columns bq !! d; Some (numpy.dot u v).
Proof.
  unfold get4, numpy.tensordot. rewrite list_lookup_fmap.
  destruct (a !! p) as [ap|]; simpl; [|done].
  rewrite list_lookup_fmap.
  destruct (numpy.columns ap !! c) as [u|]; simpl; [|done].
  rewrite list_lookup_fmap.
  destruct (b !! q) as [bq|]; simpl; [|done].
  rewrite list_lookup_fmap.
  by destruct (numpy.columns bq !! d).
Qed.

Lemma row3_on_last g a p c q :
  row3 (Varsens.on_last g a) p c q = g <$> row3 a p c q.
Proof.
  unfold row3, Varsens.on_last. rewrite list_lookup_fmap.
  destruct (a !! p) as [a1|]; simpl; [|done].
  rewrite list_lookup_fmap.
  destruct (a1 !! c) as [a2|]; simpl; [|done].
  by rewrite list_lookup_fmap.
Qed.

Lemma row3_add4 s t p c q :
  row3 (Varsens.add4 s t) p c q =
    x ← row3 s p c q; y ← row3 t p c q; Some (numpy.add1 x y).
Proof.
  unfold row3, Varsens.add4. rewrite lookup_zip_with.
  destruct (s !! p) as [s1|], (t !! p) as [t1|]; simpl; try done.
  2:{ by destruct (s1 !! c) as [s2|]; simpl; [destruct (s2 !! q)|]. }
  rewrite lookup_zip_with.
  destruct (s1 !! c) as [s2|], (t1 !! c) as [t2|]; simpl; try done.
  2:{ by destruct (s2 !! q). }
  by rewrite lookup_zip_with.
Qed.

Lemma get4_second_order n E V a b a' b' p c q d :
  get4 (Varsens.second_order n E V a b a' b') p c q d =
    x ← get4 (numpy.tensordot a b) p c q d;
    y ← get4 (numpy.tensordot a' b') p c q d;
    e ← E !! d; v ← V !! d;
    Some (fdiv (fsub (fdiv (fadd x y) (fmul (of_Z 2) (of_Z (Z.of_nat n - 1)))) e) v).
Proof.
  rewrite !get4_row3. unfold Varsens.second_order.
  rewrite !row3_on_last, row3_add4.
  destruct (row3 (numpy.tensordot a b) p c q) as [r|]; simpl; [|done].
  destruct (row3 (numpy.tensordot a' b') p c q) as [r'|]; simpl.
  - unfold numpy.div1, numpy.sub1, numpy.div1s, numpy.add1.
    rewrite !lookup_zip_with, list_lookup_fmap, lookup_zip_with.
    destruct (r !! d), (r' !! d); simpl; try done.
    by destruct (E !! d), (V !! d).
  - by destruct (r !! d).
Qed.

Lemma tensordot_swap a b p c q d :
  get4 (numpy.tensordot a b) p c q d = get4 (numpy.tensordot b a) q d p c.
Proof.
  rewrite !get4_tensordot.
  destruct (a !! p) as [ap|]; simpl.
  - destruct (numpy.columns ap !! c) as [u|]; simpl.
    + destruct (b !! q) as [bq|]; simpl; [|done].
      destruct (numpy.columns bq !! d) as [v|]; simpl; [|done].
      by rewrite dot_comm.
    + destruct (b !! q) as [bq|]; simpl; [|done].
      by destruct (numpy.columns bq !! d).
  - destruct (b !! q) as [bq|]; simpl; [|done].
    by destruct (numpy.columns bq !! d).
Qed.

Lemma second_order_swap n E V a b p c q :
  get4 (Varsens.second_order n E V a b b a) p c q c =
  get4 (Varsens.second_order n E V a b b a) q c p c.
Proof.
  rewrite !get4_second_order.
  rewrite (tensordot_swap a b p c q c), (tensordot_swap b a p c q c).
  destruct (get4 (numpy.tensordot b a) q c p c) as [x|],
           (get4 (numpy.tensordot a b) q c p c) as [y|]; simpl; try done.
  by rewrite fadd_comm.
Qed.

Lemma second_order_same_swap n E V a b p c q :
  get4 (Varsens.second_order n E V a a b b) p c q c =
  get4 (Varsens.second_order n E V a a b b) q c p c.
Proof.
  rewrite !get4_second_order.
  by rewrite (tensordot_swap a a p c q c), (tensordot_swap b b p c q c).
Qed.

(** ** Shapes *)

Lemma rect_width r c a : rect r c a → 0 < r → numpy.width a = c.
Proof.
  intros [Hl Hr] Hpos. destruct a as [|row a]; simpl in *; [lia|].
  by inversion Hr.
Qed.

Lemma rect_lookup r c a i row : rect r c a → a !! i = Some row → length row = c.
Proof. intros [_ Hr] Hi. by eapply (Forall_lookup_1 _ _ _ _ Hr Hi). Qed.

Lemma rect3_lookup d r c a p ap : rect3 d r c a → a !! p = Some ap → rect r c ap.
Proof. intros [_ Hr] Hi. by eapply (Forall_lookup_1 _ _ _ _ Hr Hi). Qed.

Lemma columns_lookup a c :
  c < numpy.width a → numpy.columns a !! c = Some (col c a).
Proof.
  intros Hc. unfold numpy.columns. rewrite list_lookup_fmap.
  by rewrite lookup_seq_lt.
Qed.

Lemma mul2_rect r c a b : rect r c a → rect r c b → rect r c (numpy.mul2 a b).
Proof.
  intros [Hla Hra] [Hlb Hrb]. split.
  - unfold numpy.mul2. rewrite length_zip_with. lia.
  - apply Forall_lookup_2. intros i row. unfold numpy.mul2.
    rewrite lookup_zip_with. intros Hrow.
    destruct (a !! i) as [ra|] eqn:Ea; simpl in Hrow; [|done].
    destruct (b !! i) as [rb|] eqn:Eb; simpl in Hrow; [|done].
    injection Hrow as <-. unfold numpy.mul1. rewrite length_zip_with.
    rewrite (Forall_lookup_1 _ _ _ _ Hra Ea), (Forall_lookup_1 _ _ _ _ Hrb Eb). lia.
Qed.

Lemma col_mul2 c a b r m :
  rect r m a → rect r m b → c < m →
  col c (numpy.mul2 a b) = zip_with fmul (col c a) (col c b).
Proof.
  intros [_ Hra] [_ Hrb] Hc. revert b Hrb.
  induction Hra as [|ra a Hlen Hra IH]; intros b Hrb; [done|].
  destruct Hrb as [|rb b Hlen' Hrb]; [done|]. simpl.
  f_equal; [|by apply IH].
  unfold numpy.mul1. apply list_lookup_total_correct.
  rewrite lookup_zip_with.
  rewrite (list_lookup_lookup_total_lt ra c) by lia.
  by rewrite (list_lookup_lookup_total_lt rb c) by lia.
Qed.

Lemma foldl_add1_lookup (x : mat) (acc : vec) l c a :
  Forall (λ row : vec, length row = l) x → length acc = l →
  acc !! c = Some a →
  foldl numpy.add1 acc x !! c = Some (foldl fadd a (col c x)).
Proof.
  intros Hx. revert acc a. induction Hx as [|row x Hrow Hx IH]; intros acc a Hacc Ha; simpl.
  - done.
  - apply IH.
    + unfold numpy.add1. rewrite length_zip_with. lia.
    + unfold numpy.add1. rewrite lookup_zip_with, Ha. simpl.
      rewrite (list_lookup_lookup_total_lt row c); [done|].
      apply lookup_lt_Some in Ha. lia.
Qed.

Lemma foldl_add1_length (x : mat) (acc : vec) l :
  Forall (λ row : vec, length row = l) x → length acc = l →
  length (foldl numpy.add1 acc x) = l.
Proof.
  intros Hx. revert acc. induction Hx as [|row x Hrow Hx IH]; intros acc Hacc; simpl; [done|].
  apply IH. unfold numpy.add1. rewrite length_zip_with. lia.
Qed.

Lemma sum0_lookup l x c :
  Forall (λ row : vec, length row = l) x → c < l →
  numpy.sum0 l x !! c = Some (fsum (col c x)).
Proof.
  intros Hx Hc. unfold numpy.sum0, fsum.
  apply (foldl_add1_lookup x _ l); [done|..].
  - unfold numpy.zeros1. by rewrite length_replicate.
  - unfold numpy.zeros1. by apply lookup_replicate_2.
Qed.

Lemma sum0_length l x :
  Forall (λ row : vec, length row = l) x → length (numpy.sum0 l x) = l.
Proof.
  intros Hx. unfold numpy.sum0. apply (foldl_add1_length x _ l); [done|].
  unfold numpy.zeros1. by rewrite length_replicate.
Qed.

(** ** The estimator, entry by entry *)

Lemma fold_result_foldl {A S} (l : list A) (s : S) (body : S → A → result S)
    (pure : S → A → S) :
  (∀ s x, x ∈ l → body s x = inr (pure s x)) →
  fold_result l s body = inr (foldl pure s l).
Proof.
  revert s. induction l as [|x l IH]; intros s Hbody; [done|].
  simpl. rewrite Hbody by (apply elem_of_cons; by left). simpl.
  apply IH. intros s' y Hy. apply Hbody, elem_of_cons. by right.
Qed.

Lemma double_estimate_length n fM fN fM' fN' :
  length (Varsens.double_estimate n fM fN fM' fN') = length fN `min` length fN'.
Proof.
  unfold Varsens.double_estimate, numpy.div2s, Varsens.cross, numpy.sum1.
  by rewrite length_fmap, length_zip_with, !length_fmap.
Qed.

(** [compute_varsens] succeeds when [k] does not exceed the number of
    parameters the tables were evaluated for. *)
Lemma compute_varsens_estimates k n o :
  k ≤ length (Objective.fN_j o) → k ≤ length (Objective.fN_nj o) →
  Varsens.compute_varsens k n o = inr (estimates k n o).
Proof.
  intros H1 H2. unfold Varsens.compute_varsens, estimates, range.
  rewrite Nat.sub_0_r.
  set (U := Varsens.double_estimate n (Objective.fM_1 o) (Objective.fN_j o)
              (Objective.fM_2 o) (Objective.fN_nj o)).
  set (U' := Varsens.double_estimate n (Objective.fM_1 o) (Objective.fN_nj o)
               (Objective.fM_2 o) (Objective.fN_j o)).
  set (E := numpy.div1s _ _). set (V := numpy.var0 _ _).
  rewrite (fold_result_foldl _ _ _
             (λ '((sens, sens_t) : mat * mat) j,
                (<[j := numpy.div1 (numpy.sub1 (U !!! j) E) V]> sens,
                 <[j := (λ v, fsub (of_Z 1) v)
                          <$> numpy.div1 (numpy.sub1 (U' !!! j) E) V]> sens_t))).
  - simpl. by destruct (foldl _ _ _).
  - intros [s t] j Hj. apply elem_of_seq in Hj.
    destruct (lookup_lt_is_Some_2 U j) as [u Hu].
    { unfold U. rewrite double_estimate_length. lia. }
    destruct (lookup_lt_is_Some_2 U' j) as [u' Hu'].
    { unfold U'. rewrite double_estimate_length. lia. }
    unfold item. rewrite Hu, Hu'. simpl.
    by rewrite (list_lookup_total_correct _ _ _ Hu), (list_lookup_total_correct _ _ _ Hu').
Qed.

Lemma compute_varsens_shaped o n' m :
  shaped o n' m →
  Varsens.compute_varsens (Objective.k o) (Objective.n o) o =
    inr (estimates (Objective.k o) (Objective.n o) o).
Proof.
  intros (_ & _ & [H3 _] & [H4 _]). apply compute_varsens_estimates; lia.
Qed.

Lemma E_2_eq k n o :
  Varsens.E_2 (estimates k n o) =
  numpy.div1s (builtin_sum (numpy.mul2 (Objective.fM_1 o) (Objective.fM_2 o))) (of_nat n).
Proof. unfold estimates. by destruct (foldl _ _ _). Qed.

Lemma var_y_eq k n o :
  Varsens.var_y (estimates k n o) =
  numpy.var0 (numpy.concatenate (Objective.fM_1 o) (Objective.fM_2 o)) 1.
Proof. unfold estimates. by destruct (foldl _ _ _). Qed.

Lemma U_j_eq k n o :
  Varsens.U_j (estimates k n o) =
  Varsens.double_estimate n (Objective.fM_1 o) (Objective.fN_j o)
    (Objective.fM_2 o) (Objective.fN_nj o).
Proof. unfold estimates. by destruct (foldl _ _ _). Qed.

Lemma U_nj_eq k n o :
  Varsens.U_nj (estimates k n o) =
  Varsens.double_estimate n (Objective.fM_1 o) (Objective.fN_nj o)
    (Objective.fM_2 o) (Objective.fN_j o).
Proof. unfold estimates. by destruct (foldl _ _ _). Qed.

Lemma sens_2_eq k n o :
  Varsens.sens_2 (estimates k n o) =
  Varsens.second_order n (Varsens.E_2 (estimates k n o))
    (Varsens.var_y (estimates k n o))
    (Objective.fN_nj o) (Objective.fN_j o) (Objective.fN_j o) (Objective.fN_nj o).
Proof. unfold estimates. by destruct (foldl _ _ _). Qed.

Lemma sens_2n_eq k n o :
  Varsens.sens_2n (estimates k n o) =
  Varsens.second_order n (Varsens.E_2 (estimates k n o))
    (Varsens.var_y (estimates k n o))
    (Objective.fN_nj o) (Objective.fN_nj o) (Objective.fN_j o) (Objective.fN_j o).
Proof. unfold estimates. by destruct (foldl _ _ _). Qed.

Lemma builtin_sum_lookup r m x c :
  rect r m x → 0 < r → c < m →
  builtin_sum x !! c = Some (fsum (col c x)).
Proof.
  intros Hx Hr Hc. unfold builtin_sum. rewrite (rect_width r m) by done.
  apply sum0_lookup; [apply Hx|done].
Qed.

Lemma E_2_lookup k n o n' m c :
  shaped o n' m → 0 < n' → c < m →
  Varsens.E_2 (estimates k n o) !! c =
    Some (fdiv (fsum (zip_with fmul (col c (Objective.fM_1 o)) (col c (Objective.fM_2 o))))
               (of_nat n)).
Proof.
  intros (H1 & H2 & _) Hn Hc. rewrite E_2_eq. unfold numpy.div1s.
  rewrite list_lookup_fmap.
  rewrite (builtin_sum_lookup n' m); [|by apply mul2_rect|done..].
  simpl. by rewrite (col_mul2 c _ _ n' m).
Qed.

Lemma col_length c a : length (col c a) = length a.
Proof. unfold col. by rewrite length_fmap. Qed.

Lemma var0_lookup r m x ddof c :
  rect r m x → 0 < r → c < m →
  numpy.var0 x ddof !! c = Some (variance (Z.of_nat (r - ddof)) (col c x)).
Proof.
  intros Hx Hr Hc. pose proof Hx as [Hlen Hrows].
  unfold numpy.var0. rewrite (rect_width r m) by done.
  unfold numpy.div1s at 1. rewrite list_lookup_fmap.
  set (arrmean := numpy.div1s (numpy.sum0 m x) (of_nat (length x))).
  assert (length arrmean = m) as Hlm.
  { unfold arrmean, numpy.div1s. rewrite length_fmap. by apply sum0_length. }
  assert (arrmean !! c = Some (mean (col c x))) as Hmean.
  { unfold arrmean, numpy.div1s. rewrite list_lookup_fmap, sum0_lookup by done.
    simpl. unfold mean. by rewrite col_length. }
  rewrite sum0_lookup; [|..|done].
  - simpl. f_equal. unfold variance, of_nat. rewrite Hlen. f_equal.
    unfold sum_sq_dev. f_equal. unfold col. rewrite <- !list_fmap_compose.
    apply Forall_fmap_ext_1. eapply Forall_impl; [exact Hrows|].
    intros row Hrow. simpl in *.
    apply list_lookup_total_correct. unfold numpy.mul1, numpy.sub1.
    rewrite !lookup_zip_with, Hmean.
    rewrite (list_lookup_lookup_total_lt row c) by lia. done.
  - rewrite <- list_fmap_compose. apply Forall_fmap. eapply Forall_impl; [exact Hrows|].
    intros row Hrow. simpl in *. unfold numpy.mul1, numpy.sub1.
    rewrite !length_zip_with. lia.
Qed.

Lemma concatenate_rect r m a b :
  rect r m a → rect r m b → rect (r + r) m (numpy.concatenate a b).
Proof.
  intros [Hla Hra] [Hlb Hrb]. split.
  - unfold numpy.concatenate. rewrite length_app. lia.
  - by apply Forall_app.
Qed.

Lemma var_y_lookup k n o n' m c :
  shaped o n' m → 0 < n' → c < m →
  Varsens.var_y (estimates k n o) !! c =
    Some (variance (2 * Z.of_nat n' - 1)
            (col c (Objective.fM_1 o) ++ col c (Objective.fM_2 o))).
Proof.
  intros (H1 & H2 & _) Hn Hc. rewrite var_y_eq.
  rewrite (var0_lookup (n' + n') m); [|by apply concatenate_rect|lia|done].
  unfold numpy.concatenate, col. rewrite fmap_app.
  do 2 f_equal. lia.
Qed.

Lemma get4_tensordot_shaped d r m a b p q c c' :
  rect3 d r m a → rect3 d r m b → 0 < r → p < d → q < d → c < m → c' < m →
  is_Some (get4 (numpy.tensordot a b) p c q c').
Proof.
  intros Ha Hb Hr Hp Hq Hc Hc'. rewrite get4_tensordot.
  destruct (lookup_lt_is_Some_2 a p) as [ap Hap]; [destruct Ha; lia|].
  destruct (lookup_lt_is_Some_2 b q) as [bq Hbq]; [destruct Hb; lia|].
  rewrite Hap, Hbq. simpl.
  pose proof (rect3_lookup _ _ _ _ _ _ Ha Hap) as Hrp.
  pose proof (rect3_lookup _ _ _ _ _ _ Hb Hbq) as Hrq.
  rewrite (columns_lookup ap c) by (by rewrite (rect_width r m)).
  simpl.
  by rewrite (columns_lookup bq c') by (by rewrite (rect_width r m)).
Qed.

Lemma second_order_is_Some n E V a b a' b' d r m p q c :
  rect3 d r m a → rect3 d r m b → rect3 d r m a' → rect3 d r m b' →
  length E = m → length V = m →
  0 < r → p < d → q < d → c < m →
  is_Some (get4 (Varsens.second_order n E V a b a' b') p c q c).
Proof.
  intros Ha Hb Ha' Hb' HE HV Hr Hp Hq Hc. rewrite get4_second_order.
  destruct (get4_tensordot_shaped d r m a b p q c c) as [x ->]; try done.
  destruct (get4_tensordot_shaped d r m a' b' p q c c) as [y ->]; try done.
  destruct (lookup_lt_is_Some_2 E c) as [e ->]; [lia|].
  destruct (lookup_lt_is_Some_2 V c) as [v ->]; [lia|].
  done.
Qed.

Lemma E_2_length k n o n' m :
  shaped o n' m → 0 < n' → length (Varsens.E_2 (estimates k n o)) = m.
Proof.
  intros (H1 & H2 & _) Hn. rewrite E_2_eq. unfold numpy.div1s, builtin_sum.
  rewrite length_fmap.
  pose proof (mul2_rect _ _ _ _ H1 H2) as Hm.
  rewrite (rect_width n' m) by done.
  apply sum0_length, Hm.
Qed.

Lemma var_y_length k n o n' m :
  shaped o n' m → 0 < n' → length (Varsens.var_y (estimates k n o)) = m.
Proof.
  intros (H1 & H2 & _) Hn. rewrite var_y_eq.
  pose proof (concatenate_rect _ _ _ _ H1 H2) as Hc.
  unfold numpy.var0. rewrite (rect_width (n' + n') m) by (done || lia).
  unfold numpy.div1s at 1. rewrite length_fmap. apply sum0_length.
  rewrite <- list_fmap_compose. apply Forall_fmap.
  eapply Forall_impl; [apply Hc|]. intros row Hrow. simpl in *.
  unfold numpy.mul1, numpy.sub1, numpy.div1s.
  rewrite !length_zip_with, length_fmap, sum0_length by apply Hc. lia.
Qed.

Lemma second_order_entries k n o n' m p q c :
  shaped o n' m → 0 < n' →
  p < Objective.k o → q < Objective.k o → c < m →
  let v := estimates k n o in
  (∃ s, get4 (Varsens.sens_2 v) p c q c = Some s ∧
        get4 (Varsens.sens_2 v) q c p c = Some s) ∧
  (∃ s, get4 (Varsens.sens_2n v) p c q c = Some s ∧
        get4 (Varsens.sens_2n v) q c p c = Some s).
Proof.
  intros Ho Hn Hp Hq Hc v. subst v.
  pose proof (E_2_length k n o n' m Ho Hn) as HE.
  pose proof (var_y_length k n o n' m Ho Hn) as HV.
  destruct Ho as (H1 & H2 & H3 & H4).
  rewrite sens_2_eq, sens_2n_eq. split.
  - destruct (second_order_is_Some n _ _ _ _ _ _ _ n' m p q c H4 H3 H3 H4 HE HV)
      as [s Hs]; try done.
    exists s. split; [done|]. by rewrite <- second_order_swap.
  - destruct (second_order_is_Some n _ _ _ _ _ _ _ n' m p q c H4 H4 H3 H3 HE HV)
      as [s Hs]; try done.
    exists s. split; [done|]. by rewrite <- second_order_same_swap.
Qed.

(** C9.  The second-order estimates are symmetric in the parameter pair:
    for every output component [c] and all parameters [p], [q], the
    entries [sens_2[p][c][q][c]] and [sens_2[q][c][p][c]] exist and are
    equal, and likewise for [sens_2n]. *)
Theorem second_order_symmetric o n' m p q c :
  shaped o n' m → 0 < n' →
  p < Objective.k o → q < Objective.k o → c < m →
  ∃ v, Varsens.compute_varsens (Objective.k o) (Objective.n o) o = inr v ∧
    (∃ s, get4 (Varsens.sens_2 v) p c q c = Some s ∧
          get4 (Varsens.sens_2 v) q c p c = Some s) ∧
    (∃ s, get4 (Varsens.sens_2n v) p c q c = Some s ∧
          get4 (Varsens.sens_2n v) q c p c = Some s).
Proof.
  intros Ho Hn Hp Hq Hc. eexists. split; [by eapply compute_varsens_shaped|].
  by apply (second_order_entries _ _ o n' m).
Qed.

Lemma second_order_symmetric_witness :
  ∃ v, Varsens.compute_varsens 2 2 demo_objective = inr v ∧
    (∃ s, get4 (Varsens.sens_2 v) 0 0 1 0 = Some s ∧
          get4 (Varsens.sens_2 v) 1 0 0 0 = Some s) ∧
    (∃ s, get4 (Varsens.sens_2n v) 0 0 1 0 = Some s ∧
          get4 (Varsens.sens_2n v) 1 0 0 0 = Some s).
Proof.
  apply (second_order_symmetric demo_objective 2 1 0 1 0).
  - apply (bool_decide_unpack _). vm_compute. exact I.
  - lia.
  - simpl; lia.
  - simpl; lia.
  - lia.
Defined.

(** ** Loops that fill a fresh array slot by slot *)

Lemma foldl_insert_length {A} (F : nat → A) (s : list A) (l : list nat) :
  length (foldl (λ s j, <[j := F j]> s) s l) = length s.
Proof.
  revert s. induction l as [|j l IH]; intros s; simpl; [done|].
  by rewrite IH, length_insert.
Qed.

Lemma foldl_insert_lookup {A} (F : nat → A) (s : list A) (k p : nat) :
  p < length s →
  foldl (λ s j, <[j := F j]> s) s (seq 0 k) !! p =
    if decide (p < k) then Some (F p) else s !! p.
Proof.
  intros Hp. induction k as [|k IH].
  - case_decide; [lia|reflexivity].
  - rewrite seq_S, foldl_app, Nat.add_0_l. cbn [foldl].
    destruct (decide (p = k)) as [->|Hne].
    + rewrite list_lookup_insert_eq by (by rewrite foldl_insert_length).
      destruct (decide (k < S k)); [done|lia].
    + rewrite list_lookup_insert_ne by done. rewrite IH.
      destruct (decide (p < k)), (decide (p < S k)); done || lia.
Qed.

Lemma foldl_insert_pair {A B} (F : nat → A) (G : nat → B)
    (s : list A) (t : list B) (l : list nat) :
  foldl (λ '((s, t) : list A * list B) j, (<[j := F j]> s, <[j := G j]> t)) (s, t) l =
  (foldl (λ s j, <[j := F j]> s) s l, foldl (λ t j, <[j := G j]> t) t l).
Proof. revert s t. induction l as [|j l IH]; intros s t; simpl; [done|apply IH]. Qed.

Lemma sens_eq k n o :
  let v := estimates k n o in
  Varsens.sens v =
    foldl (λ s j, <[j := numpy.div1 (numpy.sub1 (Varsens.U_j v !!! j) (Varsens.E_2 v))
                                    (Varsens.var_y v)]> s)
          (numpy.zeros2 k (numpy.width (Varsens.U_j v))) (seq 0 k).
Proof.
  intros v. subst v. rewrite U_j_eq, E_2_eq, var_y_eq.
  unfold estimates. by rewrite foldl_insert_pair.
Qed.

Lemma sens_t_eq k n o :
  let v := estimates k n o in
  Varsens.sens_t v =
    foldl (λ s j, <[j := (λ x, fsub (of_Z 1) x)
                      <$> numpy.div1 (numpy.sub1 (Varsens.U_nj v !!! j) (Varsens.E_2 v))
                                     (Varsens.var_y v)]> s)
          (numpy.zeros2 k (numpy.width (Varsens.U_j v))) (seq 0 k).
Proof.
  intros v. subst v. rewrite U_j_eq, U_nj_eq, E_2_eq, var_y_eq.
  unfold estimates. by rewrite foldl_insert_pair.
Qed.

Lemma cross_lookup n fM fN d r m p c fNp :
  rect r m fM → rect3 d r m fN → 0 < r → c < m →
  fN !! p = Some fNp →
  Varsens.cross n fM fN !! p ≫= (.!! c) =
    Some (fdiv (fsum (zip_with fmul (col c fM) (col c fNp))) (of_Z (Z.of_nat n - 1))).
Proof.
  intros HM HN Hr Hc Hp. unfold Varsens.cross, numpy.sum1.
  rewrite !list_lookup_fmap, Hp. simpl.
  pose proof (rect3_lookup _ _ _ _ _ _ HN Hp) as Hrp.
  pose proof (mul2_rect _ _ _ _ HM Hrp) as Hmul.
  rewrite (rect_width r m) by done.
  unfold numpy.div1s. rewrite list_lookup_fmap, sum0_lookup; [|apply Hmul|done].
  simpl. by rewrite (col_mul2 c _ _ r m).
Qed.

Lemma double_estimate_lookup n fM fN fM' fN' d r m p c fNp fNp' :
  rect r m fM → rect3 d r m fN → rect r m fM' → rect3 d r m fN' →
  0 < r → c < m →
  fN !! p = Some fNp → fN' !! p = Some fNp' →
  Varsens.double_estimate n fM fN fM' fN' !! p ≫= (.!! c) =
    Some (fdiv (fadd
            (fdiv (fsum (zip_with fmul (col c fM) (col c fNp))) (of_Z (Z.of_nat n - 1)))
            (fdiv (fsum (zip_with fmul (col c fM') (col c fNp'))) (of_Z (Z.of_nat n - 1))))
          (of_Z 2)).
Proof.
  intros HM HN HM' HN' Hr Hc Hp Hp'.
  pose proof (cross_lookup n fM fN d r m p c fNp HM HN Hr Hc Hp) as H1.
  pose proof (cross_lookup n fM' fN' d r m p c fNp' HM' HN' Hr Hc Hp') as H2.
  unfold Varsens.double_estimate, numpy.div2s.
  rewrite list_lookup_fmap, lookup_zip_with.
  destruct (Varsens.cross n fM fN !! p) as [u|]; simpl in *; [|done].
  destruct (Varsens.cross n fM' fN' !! p) as [u'|]; simpl in *; [|done].
  unfold numpy.div1s, numpy.add1. rewrite list_lookup_fmap, lookup_zip_with.
  by rewrite H1, H2.
Qed.

Lemma double_estimate_row n fM fN fM' fN' d r m p c :
  rect r m fM → rect3 d r m fN → rect r m fM' → rect3 d r m fN' →
  0 < r → c < m → p < d →
  (Varsens.double_estimate n fM fN fM' fN' !!! p) !! c =
    Some (halved n (cross_sum c fM (fN !!! p)) (cross_sum c fM' (fN' !!! p))).
Proof.
  intros HM HN HM' HN' Hr Hc Hp.
  destruct (lookup_lt_is_Some_2 fN p) as [fNp Hp1]; [destruct HN; lia|].
  destruct (lookup_lt_is_Some_2 fN' p) as [fNp' Hp2]; [destruct HN'; lia|].
  pose proof (double_estimate_lookup n fM fN fM' fN' d r m p c fNp fNp'
                HM HN HM' HN' Hr Hc Hp1 Hp2) as H.
  rewrite (list_lookup_total_correct _ _ _ Hp1), (list_lookup_total_correct _ _ _ Hp2).
  destruct (Varsens.double_estimate n fM fN fM' fN' !! p) as [row|] eqn:Hrow;
    simpl in H; [|done].
  by rewrite (list_lookup_total_correct _ _ _ Hrow).
Qed.

(** What the program stores in [sens] and [sens_t], entry by entry. *)
Lemma sens_lookup n o n' m p c :
  shaped o n' m → 0 < n' → p < Objective.k o → c < m →
  let v := estimates (Objective.k o) n o in
  let fM_1 := Objective.fM_1 o in
  let fM_2 := Objective.fM_2 o in
  let E := fdiv (cross_sum c fM_1 fM_2) (of_nat n) in
  let V := variance (2 * Z.of_nat n' - 1) (col c fM_1 ++ col c fM_2) in
  let U := halved n (cross_sum c fM_1 (Objective.fN_j o !!! p))
                    (cross_sum c fM_2 (Objective.fN_nj o !!! p)) in
  let U' := halved n (cross_sum c fM_1 (Objective.fN_nj o !!! p))
                     (cross_sum c fM_2 (Objective.fN_j o !!! p)) in
  Varsens.sens v !! p ≫= (.!! c) = Some (fdiv (fsub U E) V) ∧
  Varsens.sens_t v !! p ≫= (.!! c) = Some (fsub (of_Z 1) (fdiv (fsub U' E) V)).
Proof.
  intros Ho Hn Hp Hc v fM_1 fM_2 E V U U'.
  pose proof (E_2_lookup (Objective.k o) n o n' m c Ho Hn Hc) as HE.
  pose proof (var_y_lookup (Objective.k o) n o n' m c Ho Hn Hc) as HV.
  destruct Ho as (H1 & H2 & H3 & H4).
  pose proof (double_estimate_row n _ _ _ _ _ n' m p c H1 H3 H2 H4 Hn Hc Hp) as HU.
  pose proof (double_estimate_row n _ _ _ _ _ n' m p c H1 H4 H2 H3 Hn Hc Hp) as HU'.
  rewrite <- U_j_eq with (k := Objective.k o) in HU.
  rewrite <- U_nj_eq with (k := Objective.k o) in HU'.
  subst v. rewrite sens_eq, sens_t_eq. cbv zeta.
  rewrite !foldl_insert_lookup
    by (unfold numpy.zeros2; rewrite length_replicate; lia).
  rewrite !decide_True by done. simpl.
  unfold numpy.div1, numpy.sub1.
  rewrite list_lookup_fmap, !lookup_zip_with, HU, HU', HE, HV. done.
Qed.

Local Open Scope Qc_scope.

Lemma Qc_of_Z_pred_ne_0 (n : nat) : (2 ≤ n)%nat → Qc_of_Z (Z.of_nat n - 1) ≠ 0.
Proof.
  intros Hn H. apply (f_equal this) in H. simpl in H.
  injection H. lia.
Qed.

Lemma fdiv_Fin (a b : Qc) : b ≠ 0 → fdiv (Fin a) (Fin b) = Fin (a / b).
Proof. intros Hb. simpl. by rewrite decide_False. Qed.

Lemma Qc_of_Z_double (z : Z) : Qc_of_Z (2 * z) = Qc_of_Z 2 * Qc_of_Z z.
Proof.
  apply Qc_is_canon. unfold Qc_of_Z. simpl.
  rewrite !Qred_correct. unfold Qeq. simpl. lia.
Qed.

(** On finite cross sums and for [n >= 2], halving the two quotients is
    dividing the sum by [2 (n - 1)]. *)
Lemma halved_finite (n : nat) (a b : Qc) :
  (2 ≤ n)%nat →
  halved n (Fin a) (Fin b) =
    fdiv (fadd (Fin a) (Fin b)) (of_Z (2 * (Z.of_nat n - 1))).
Proof.
  intros Hn. pose proof (Qc_of_Z_pred_ne_0 n Hn) as Hd.
  assert (Qc_of_Z 2 ≠ 0) as H2.
  { intros H. apply (f_equal this) in H. discriminate H. }
  unfold halved, of_Z.
  rewrite !fdiv_Fin by done. cbn [fadd].
  rewrite !fdiv_Fin.
  - f_equal. rewrite Qc_of_Z_double. by field.
  - rewrite Qc_of_Z_double. intros H.
    apply Qcmult_integral in H. tauto.
  - done.
Qed.

Local Close Scope Qc_scope.

(** ** The estimator on concrete campaigns *)

Ltac by_evaluation := apply (bool_decide_unpack _); vm_compute; exact I.

(** [Varsens(objective)] on a pre-evaluated [Objective] is
    [compute_varsens] with the [k] and [n] stored in the objective. *)
Lemma init_of_objective halton shuffle1 o verbose w :
  Varsens.init halton shuffle1 (inl o) None None None None verbose w =
    lift (Varsens.compute_varsens (Objective.k o) (Objective.n o) o) w.
Proof. reflexivity. Qed.

Lemma load_pruned_vals :
  Objective.load 1 3 pruned_vals (of_Z 1) = inr pruned_objective.
Proof. by_evaluation. Qed.

(** C2.  After a row was pruned the estimator still divides by the
    configured [n]: on [pruned_vals] two rows remain, the mean of the
    products is 13/2, and [E_2] is 13/3. *)
Theorem E_2_after_pruning :
  ∃ v,
    Objective.load 1 3 pruned_vals (of_Z 1) = inr pruned_objective ∧
    shaped pruned_objective 2 1 ∧
    Varsens.compute_varsens 1 3 pruned_objective = inr v ∧
    Varsens.E_2 v = [frac 13 3] ∧
    mean_of_products 0 (Objective.fM_1 pruned_objective) (Objective.fM_2 pruned_objective)
      = frac 13 2.
Proof.
  exists (estimates 1 3 pruned_objective). split_and!; try by_evaluation.
  apply compute_varsens_estimates; simpl; lia.
Qed.

(** C1.  After a row was pruned the double estimates are still divided
    by the configured [n - 1]: on [pruned_vals], where [n' = 2], the
    indices the estimator stores differ from the ones the formulas with
    [2 (n' - 1)] give. *)
Theorem sens_after_pruning :
  ∃ v,
    Objective.load 1 3 pruned_vals (of_Z 1) = inr pruned_objective ∧
    shaped pruned_objective 2 1 ∧
    Varsens.compute_varsens 1 3 pruned_objective = inr v ∧
    Varsens.U_j v = [[frac 83 4]] ∧ Varsens.U_nj v = [[fz 22]] ∧
    Varsens.sens v = [[frac 197 35]] ∧
    first_order_claimed 2 v 0 0 = Some (frac 446 35) ∧
    Varsens.sens_t v = [[frac (-177) 35]] ∧
    total_order_claimed 2 v 0 0 = Some (frac (-63) 5).
Proof.
  exists (estimates 1 3 pruned_objective). split_and!; try by_evaluation.
  apply compute_varsens_estimates; simpl; lia.
Qed.

(** C3.  [var_y] is the Bessel-corrected variance of the [2 n'] pooled
    values of [fM1] and [fM2]: its divisor is [2 n' - 1]. *)
Theorem var_y_pooled_variance o n' m c :
  shaped o n' m → 0 < n' → c < m →
  ∃ v, Varsens.compute_varsens (Objective.k o) (Objective.n o) o = inr v ∧
    Varsens.var_y v !! c =
      Some (variance (2 * Z.of_nat n' - 1)
              (col c (Objective.fM_1 o) ++ col c (Objective.fM_2 o))).
Proof.
  intros Ho Hn Hc. eexists. split; [by eapply compute_varsens_shaped|].
  by apply (var_y_lookup _ _ o n' m).
Qed.

Lemma var_y_pooled_variance_witness :
  ∃ v, Varsens.compute_varsens 2 2 demo_objective = inr v ∧
    Varsens.var_y v !! 0 =
      Some (variance (2 * Z.of_nat 2 - 1)
              (col 0 (Objective.fM_1 demo_objective)
               ++ col 0 (Objective.fM_2 demo_objective))).
Proof.
  apply (var_y_pooled_variance demo_objective 2 1 0).
  - apply (bool_decide_unpack _). vm_compute. exact I.
  - lia.
  - lia.
Defined.

(** With the divisor [n' - 1] the claim fails: on a campaign with
    [n' = 2] the pooled values are 1, 2, 3, 5 and [var_y] is 35/12,
    while the sum of squares over [n' - 1 = 1] is 35/4. *)
Lemma var_y_divisor_counterexample :
  let o := demo_objective in
  let pool := col 0 (Objective.fM_1 o) ++ col 0 (Objective.fM_2 o) in
  ∃ v,
    shaped o 2 1 ∧
    Varsens.compute_varsens 2 2 o = inr v ∧
    Varsens.var_y v = [frac 35 12] ∧
    variance (Z.of_nat 2 - 1) pool = frac 35 4 ∧
    Varsens.var_y v !! 0 ≠ Some (variance (Z.of_nat 2 - 1) pool).
Proof.
  exists (estimates 2 2 demo_objective). split_and!; try by_evaluation.
  apply compute_varsens_estimates; simpl; lia.
Qed.

(** ** Agreement with the specification's formulas when nothing was pruned *)

Lemma objective_eq k n o :
  Varsens.objective (estimates k n o) = o.
Proof. unfold estimates. by destruct (foldl _ _ _). Qed.

Lemma E_2_unpruned k o m c :
  shaped o (Objective.n o) m → 0 < Objective.n o → c < m →
  Varsens.E_2 (estimates k (Objective.n o) o) !! c =
    Some (mean_of_products c (Objective.fM_1 o) (Objective.fM_2 o)).
Proof.
  intros Ho Hn Hc. rewrite (E_2_lookup k _ o _ m c Ho Hn Hc).
  unfold mean_of_products, cross_sum. destruct Ho as ([-> _] & _). done.
Qed.

Lemma sens_unpruned o m p c :
  let n := Objective.n o in
  let v := estimates (Objective.k o) n o in
  shaped o n m → 2 ≤ n → p < Objective.k o → c < m →
  isfinite (cross_sum c (Objective.fM_1 o) (Objective.fN_j o !!! p)) = true →
  isfinite (cross_sum c (Objective.fM_2 o) (Objective.fN_nj o !!! p)) = true →
  isfinite (cross_sum c (Objective.fM_1 o) (Objective.fN_nj o !!! p)) = true →
  isfinite (cross_sum c (Objective.fM_2 o) (Objective.fN_j o !!! p)) = true →
  Varsens.sens v !! p ≫= (.!! c) = first_order_claimed n v p c ∧
  Varsens.sens_t v !! p ≫= (.!! c) = total_order_claimed n v p c.
Proof.
  intros n v Ho Hn Hp Hc F1 F2 F3 F4.
  assert (0 < n) as Hn' by lia.
  destruct (sens_lookup n o n m p c Ho Hn' Hp Hc) as [Hs Ht].
  fold v in Hs, Ht. rewrite Hs, Ht. clear Hs Ht.
  unfold first_order_claimed, total_order_claimed. subst v.
  rewrite objective_eq.
  rewrite (E_2_lookup _ n o n m c Ho Hn' Hc), (var_y_lookup _ n o n m c Ho Hn' Hc).
  destruct Ho as (H1 & H2 & H3 & H4).
  destruct (lookup_lt_is_Some_2 (Objective.fN_j o) p) as [fNp Hp1]; [destruct H3; lia|].
  destruct (lookup_lt_is_Some_2 (Objective.fN_nj o) p) as [fNp' Hp2]; [destruct H4; lia|].
  rewrite Hp1, Hp2. simpl.
  rewrite (list_lookup_total_correct _ _ _ Hp1) in *.
  rewrite (list_lookup_total_correct _ _ _ Hp2) in *.
  unfold U_claimed.
  destruct (cross_sum c (Objective.fM_1 o) fNp); try done.
  destruct (cross_sum c (Objective.fM_2 o) fNp'); try done.
  destruct (cross_sum c (Objective.fM_1 o) fNp'); try done.
  destruct (cross_sum c (Objective.fM_2 o) fNp); try done.
  by rewrite !halved_finite by done.
Qed.

(** ** Slicing *)

Lemma slice_length {A} (a b : nat) (x : list A) :
  a ≤ b → b ≤ length x → length (numpy.slice a b x) = b - a.
Proof. intros Hab Hb. unfold numpy.slice. rewrite length_take, length_drop. lia. Qed.

Lemma slice_lookup {A} (a b i : nat) (x : list A) :
  i < b - a → numpy.slice a b x !! i = x !! (a + i).
Proof. intros Hi. unfold numpy.slice. by rewrite lookup_take_lt, lookup_drop. Qed.

Lemma slice_rect a b r m x :
  rect r m x → a ≤ b → b ≤ r → rect (b - a) m (numpy.slice a b x).
Proof.
  intros [Hl Hr] Hab Hb. split.
  - apply slice_length; lia.
  - unfold numpy.slice. by apply Forall_take, Forall_drop.
Qed.

Lemma div2s_rect r m a s : rect r m a → rect r m (numpy.div2s a s).
Proof.
  intros [Hl Hr]. split.
  - unfold numpy.div2s. by rewrite length_fmap.
  - unfold numpy.div2s. apply Forall_fmap. eapply Forall_impl; [exact Hr|].
    intros row Hrow. simpl in *. unfold numpy.div1s. by rewrite length_fmap.
Qed.

(** ** The block loop of the two [load] methods *)

Lemma extract_blocks_eq g k n x fN cur :
  extract_blocks g k n x fN cur =
    (foldl (λ fN i, <[i := g (numpy.slice (cur + i * n) (cur + i * n + n) x)]> fN)
           fN (seq 0 k),
     cur + k * n).
Proof.
  unfold extract_blocks, range. rewrite Nat.sub_0_r.
  induction k as [|k IH]; [simpl; f_equal; lia|].
  rewrite !seq_S, !foldl_app, IH. simpl. f_equal; lia.
Qed.

Lemma extract_blocks_lookup g k n x l cur p :
  p < k →
  (extract_blocks g k n x (numpy.zeros3 k n l) cur).1 !! p =
    Some (g (numpy.slice (cur + p * n) (cur + p * n + n) x)).
Proof.
  intros Hp. rewrite extract_blocks_eq. simpl.
  rewrite foldl_insert_lookup
    by (unfold numpy.zeros3; rewrite length_replicate; lia).
  by rewrite decide_True.
Qed.

Lemma extract_blocks_length g k n x l cur :
  length (extract_blocks g k n x (numpy.zeros3 k n l) cur).1 = k.
Proof.
  rewrite extract_blocks_eq. simpl. rewrite foldl_insert_length.
  unfold numpy.zeros3. by rewrite length_replicate.
Qed.

Lemma extract_blocks_rect3 g k n x l cur r m :
  (∀ a, rect n m a → rect n m (g a)) →
  rect r m x → cur + k * n ≤ r →
  rect3 k n m (extract_blocks g k n x (numpy.zeros3 k n l) cur).1.
Proof.
  intros Hg Hx Hr. split; [apply extract_blocks_length|].
  apply Forall_lookup_2. intros p a Ha.
  assert (p < k) as Hp.
  { apply lookup_lt_Some in Ha. by rewrite extract_blocks_length in Ha. }
  rewrite extract_blocks_lookup in Ha by done. injection Ha as <-.
  apply Hg.
  replace n with (cur + p * n + n - (cur + p * n)) at 1 by lia.
  apply (slice_rect _ _ r); [done|lia|]. nia.
Qed.

(** ** The NaN mask *)

Lemma column0_first (b : list (list bool)) :
  Forall nonempty b → numpy.column0 b = inr (first b).
Proof.
  intros Hb. unfold numpy.column0.
  assert (mapM head b = Some (first b)) as ->; [|done].
  induction Hb as [|r b Hr Hb IH]; [done|].
  destruct r as [|v r]; [done|]. simpl. by rewrite IH.
Qed.

Lemma logical_or_nonempty a b :
  Forall nonempty a → Forall nonempty b → Forall nonempty (numpy.logical_or a b).
Proof.
  intros Ha. revert b. induction Ha as [|r a Hr Ha IH]; intros b Hb; [constructor|].
  destruct Hb as [|r' b Hr' Hb]; [constructor|].
  simpl. constructor; [|by apply IH].
  by destruct r, r'.
Qed.

Lemma first_logical_or a b :
  Forall nonempty a → Forall nonempty b →
  first (numpy.logical_or a b) = zip_with orb (first a) (first b).
Proof.
  intros Ha. revert b. induction Ha as [|r a Hr Ha IH]; intros b Hb; [done|].
  destruct Hb as [|r' b Hr' Hb]; [done|].
  simpl. f_equal; [|by apply IH].
  by destruct r, r'.
Qed.

Lemma isnan2_nonempty r m a : rect r m a → 0 < m → Forall nonempty (numpy.isnan2 a).
Proof.
  intros [_ Ha] Hm. unfold numpy.isnan2. apply Forall_fmap.
  eapply Forall_impl; [exact Ha|]. intros row Hrow. simpl in *.
  destruct row; [simpl in Hrow; lia|done].
Qed.

Lemma first_isnan2_lookup a i : i < length a →
  first (numpy.isnan2 a) !! i = Some (nan_at a i).
Proof.
  intros Hi. unfold first, numpy.isnan2, nan_at. rewrite !list_lookup_fmap.
  destruct (lookup_lt_is_Some_2 a i Hi) as [row ->]. simpl.
  by destruct row.
Qed.

Lemma first_isnan2_length a : length (first (numpy.isnan2 a)) = length a.
Proof. unfold first, numpy.isnan2. by rewrite !length_fmap. Qed.

Section locate.
Context (fN_j fN_nj : ten) (n m : nat).
Hypothesis Hm : 0 < m.

Lemma locate_fold_shape (l : list nat) (acc : list (list bool)) :
  Forall (λ i, rect n m (fN_j !!! i) ∧ rect n m (fN_nj !!! i)) l →
  Forall nonempty acc → length acc = n →
  Forall nonempty (foldl (locate_step fN_j fN_nj) acc l) ∧
  length (foldl (locate_step fN_j fN_nj) acc l) = n.
Proof.
  intros Hl. revert acc.
  induction Hl as [|i l [Hi Hi'] Hl IH]; intros acc Hne Hlen; [done|].
  simpl. apply IH.
  - unfold locate_step. repeat apply logical_or_nonempty; try done;
      by eapply isnan2_nonempty.
  - unfold locate_step, numpy.logical_or, numpy.isnan2.
    rewrite !length_zip_with, !length_fmap.
    destruct Hi as [Hi1 _], Hi' as [Hi2 _]. lia.
Qed.

Lemma locate_fold_lookup (l : list nat) (acc : list (list bool)) (r : nat) (b0 : bool) :
  Forall (λ i, rect n m (fN_j !!! i) ∧ rect n m (fN_nj !!! i)) l →
  Forall nonempty acc → length acc = n → r < n →
  first acc !! r = Some b0 →
  Forall nonempty (foldl (locate_step fN_j fN_nj) acc l) ∧
  length (foldl (locate_step fN_j fN_nj) acc l) = n ∧
  ∃ b, first (foldl (locate_step fN_j fN_nj) acc l) !! r = Some b ∧
       (b = true ↔ b0 = true ∨
          ∃ i, i ∈ l ∧ (nan_at (fN_j !!! i) r = true ∨ nan_at (fN_nj !!! i) r = true)).
Proof.
  intros Hl. revert acc b0.
  induction Hl as [|i l [Hi Hi'] Hl IH]; intros acc b0 Hne Hlen Hr Hb0.
  - simpl. split_and!; [done..|]. exists b0. split; [done|].
    split; [by left|]. intros [?|(i & Hi & _)]; [done|]. by apply elem_of_nil in Hi.
  - simpl.
    assert (Forall nonempty (locate_step fN_j fN_nj acc i)) as Hne'.
    { unfold locate_step. repeat apply logical_or_nonempty; try done;
        by eapply isnan2_nonempty. }
    assert (length (locate_step fN_j fN_nj acc i) = n) as Hlen'.
    { unfold locate_step, numpy.logical_or, numpy.isnan2.
      rewrite !length_zip_with, !length_fmap.
      destruct Hi as [Hi1 _], Hi' as [Hi2 _]. lia. }
    assert (first (locate_step fN_j fN_nj acc i) !! r =
            Some (b0 || nan_at (fN_j !!! i) r || nan_at (fN_nj !!! i) r)) as Hb'.
    { unfold locate_step. rewrite !first_logical_or;
        try (done || by eapply isnan2_nonempty
             || (apply logical_or_nonempty; [done|by eapply isnan2_nonempty])).
      rewrite !lookup_zip_with, Hb0. simpl.
      destruct Hi as [Hi1 _], Hi' as [Hi2 _].
      by rewrite !first_isnan2_lookup by lia. }
    destruct (IH _ _ Hne' Hlen' Hr Hb') as (H1 & H2 & b & Hb & Hiff).
    split_and!; [done..|]. exists b. split; [done|].
    rewrite Hiff. rewrite !orb_true_iff. split.
    + intros [[[?|?]|?]|(j & Hj & Hnan)]; [by left|right; exists i..|].
      * split; [apply elem_of_cons; by left|by left].
      * split; [apply elem_of_cons; by left|by right].
      * right. exists j. split; [apply elem_of_cons; by right|done].
    + intros [?|(j & Hj & Hnan)]; [tauto|].
      apply elem_of_cons in Hj as [->|Hj]; [tauto|]. right. eauto.
Qed.
End locate.

Lemma filter_iff_in {A} (P1 P2 : A → Prop)
    `{!∀ x, Decision (P1 x), !∀ x, Decision (P2 x)} (l : list A) :
  (∀ x, x ∈ l → (P1 x ↔ P2 x)) → filter P1 l = filter P2 l.
Proof.
  induction l as [|a l IH]; intros Hiff; [done|].
  assert (filter P1 l = filter P2 l) as IH'.
  { apply IH. intros x Hx. apply Hiff, elem_of_cons. by right. }
  assert (P1 a ↔ P2 a) as Ha by (apply Hiff, elem_of_cons; by left).
  destruct (decide (P1 a)).
  - rewrite !filter_cons_True by tauto. by rewrite IH'.
  - rewrite !filter_cons_False by tauto. done.
Qed.

Lemma locate_nans_spec o n m :
  shaped o n m → 0 < m →
  ∃ mask, Objective.locate_nans o = inr mask ∧ length mask = n ∧
          ∀ r, r < n → mask !! r = Some (has_nan o r).
Proof.
  intros (H1 & H2 & H3 & H4) Hm. unfold Objective.locate_nans.
  set (acc := numpy.logical_or _ _).
  change (foldl _ acc (seq 0 (Objective.k o)))
    with (foldl (locate_step (Objective.fN_j o) (Objective.fN_nj o)) acc
            (seq 0 (Objective.k o))).
  assert (Forall nonempty acc) as Hne.
  { apply logical_or_nonempty; by eapply isnan2_nonempty. }
  assert (length acc = n) as Hlen.
  { unfold acc, numpy.logical_or, numpy.isnan2.
    rewrite length_zip_with, !length_fmap. destruct H1 as [-> _], H2 as [-> _]. lia. }
  assert (Forall (λ i, rect n m (Objective.fN_j o !!! i) ∧ rect n m (Objective.fN_nj o !!! i))
                 (seq 0 (Objective.k o))) as Hl.
  { apply Forall_forall. intros i Hi. apply elem_of_seq in Hi.
    destruct (lookup_lt_is_Some_2 (Objective.fN_j o) i) as [a Ha]; [destruct H3; lia|].
    destruct (lookup_lt_is_Some_2 (Objective.fN_nj o) i) as [a' Ha']; [destruct H4; lia|].
    rewrite (list_lookup_total_correct _ _ _ Ha), (list_lookup_total_correct _ _ _ Ha').
    split; [exact (rect3_lookup _ _ _ _ _ _ H3 Ha)|exact (rect3_lookup _ _ _ _ _ _ H4 Ha')]. }
  destruct (locate_fold_shape _ _ _ m Hm _ acc Hl Hne Hlen) as (Hne' & Hlen').
  rewrite column0_first by done.
  eexists. split; [done|]. split; [unfold first; by rewrite length_fmap|].
  intros r Hr.
  assert (first acc !! r
          = Some (nan_at (Objective.fM_1 o) r || nan_at (Objective.fM_2 o) r)) as Hr0.
  { unfold acc. rewrite first_logical_or by (by eapply isnan2_nonempty).
    destruct H1 as [E1 _], H2 as [E2 _].
    by rewrite lookup_zip_with, !first_isnan2_lookup by lia. }
  destruct (locate_fold_lookup _ _ _ m Hm _ acc r _ Hl Hne Hlen Hr Hr0)
    as (_ & _ & b & Hb & Hiff).
  rewrite Hb. f_equal. apply eq_true_iff_eq. rewrite Hiff.
  unfold has_nan. rewrite !orb_true_iff, !existsb_exists.
  split.
  - intros [[?|?]|(i & Hi & Hnan)]; [tauto..|].
    apply elem_of_seq in Hi.
    destruct (lookup_lt_is_Some_2 (Objective.fN_j o) i) as [a Ha]; [destruct H3; lia|].
    destruct (lookup_lt_is_Some_2 (Objective.fN_nj o) i) as [a' Ha']; [destruct H4; lia|].
    rewrite (list_lookup_total_correct _ _ _ Ha), (list_lookup_total_correct _ _ _ Ha') in Hnan.
    destruct Hnan as [Hnan|Hnan].
    + left. right. exists a. split; [|done].
      apply list_elem_of_In, list_elem_of_lookup. eauto.
    + right. exists a'. split; [|done].
      apply list_elem_of_In, list_elem_of_lookup. eauto.
  - intros [[[?|?]|(a & Ha & Hnan)]|(a & Ha & Hnan)]; [tauto..| |].
    + apply list_elem_of_In, list_elem_of_lookup in Ha as [i Ha].
      right. exists i. split.
      * apply elem_of_seq. apply lookup_lt_Some in Ha. destruct H3; lia.
      * left. by rewrite (list_lookup_total_correct _ _ _ Ha).
    + apply list_elem_of_In, list_elem_of_lookup in Ha as [i Ha].
      right. exists i. split.
      * apply elem_of_seq. apply lookup_lt_Some in Ha. destruct H4; lia.
      * right. by rewrite (list_lookup_total_correct _ _ _ Ha).
Qed.

(** ** Deleting rows *)

Lemma delete_from_keep {A} `{!Inhabited A} (obj : list nat) (i : nat) (arr full : list A) :
  (∀ j, j < length arr → full !! (i + j) = arr !! j) →
  numpy.delete_from obj i arr = keep (filter (λ j, j ∉ obj) (seq i (length arr))) full.
Proof.
  revert i. induction arr as [|a arr IH]; intros i Hfull; [done|].
  simpl. rewrite filter_cons.
  assert (numpy.delete_from obj (S i) arr =
          keep (filter (λ j, j ∉ obj) (seq (S i) (length arr))) full) as IH'.
  { apply IH. intros j Hj. specialize (Hfull (S j)). simpl in Hfull.
    rewrite <- Hfull by lia. f_equal. lia. }
  destruct (decide (i ∈ obj)) as [Hin|Hin].
  - rewrite decide_False by tauto. done.
  - rewrite decide_True by done. unfold keep at 1. rewrite fmap_cons. f_equal; [|done].
    symmetry. apply list_lookup_total_correct.
    specialize (Hfull 0). simpl in Hfull. rewrite Nat.add_0_r in Hfull.
    apply Hfull. lia.
Qed.

Lemma delete_keep {A} `{!Inhabited A} (arr : list A) (P : nat → bool) (n : nat) :
  length arr = n →
  numpy.delete arr (filter (λ i, P i = true) (seq 0 n)) =
    keep (filter (λ i, P i = false) (seq 0 n)) arr.
Proof.
  intros <-. unfold numpy.delete.
  rewrite (delete_from_keep _ 0 arr arr) by done.
  f_equal. apply filter_iff_in. intros j Hj.
  rewrite list_elem_of_filter. destruct (P j); split; try done.
  - intros Hn. by destruct Hn.
  - intros _ [? _]. done.
Qed.

Lemma keep_rect surv r m (a : mat) :
  rect r m a → Forall (λ i, i < r) surv → rect (length surv) m (keep surv a).
Proof.
  intros [Hl Hr] Hs. split; [unfold keep; by rewrite length_fmap|].
  unfold keep. apply Forall_fmap. eapply Forall_impl; [exact Hs|].
  intros i Hi. simpl in *.
  destruct (lookup_lt_is_Some_2 a i) as [row Hrow]; [lia|].
  rewrite (list_lookup_total_correct _ _ _ Hrow).
  exact (Forall_lookup_1 _ _ _ _ Hr Hrow).
Qed.

Lemma keep_rect3 surv d r m (a : ten) :
  rect3 d r m a → Forall (λ i, i < r) surv →
  rect3 d (length surv) m (keep surv <$> a).
Proof.
  intros [Hl Hr] Hs. split; [by rewrite length_fmap|].
  apply Forall_fmap. eapply Forall_impl; [exact Hr|].
  intros b Hb. simpl. by apply (keep_rect _ r).
Qed.

Lemma extract_shaped k n x s m :
  rect (2 * n * (1 + k)) m x →
  ∃ pre, Objective.extract k n x s = inr pre ∧ shaped pre n m ∧
         Objective.k pre = k ∧ Objective.n pre = n.
Proof.
  intros Hx. pose proof Hx as [Hlen Hrows]. unfold Objective.extract.
  rewrite decide_True by done.
  pose proof (extract_blocks_rect3 (λ a, numpy.div2s a s) k n x (numpy.width x)
                (2 * n) _ m (λ a, div2s_rect n m a s) Hx) as HNj.
  pose proof (extract_blocks_rect3 (λ a, numpy.div2s a s) k n x (numpy.width x)
                (2 * n + k * n) _ m (λ a, div2s_rect n m a s) Hx) as HNnj.
  rewrite (extract_blocks_eq _ k n x _ (2 * n)) in *. simpl in HNj.
  rewrite (extract_blocks_eq _ k n x _ (2 * n + k * n)) in *. simpl in HNnj.
  eexists. split; [done|]. split; [|done].
  split_and!; simpl.
  - apply div2s_rect. replace n with (n - 0) at 1 by lia.
    apply (slice_rect _ _ _ _ _ Hx); lia.
  - apply div2s_rect. replace n with (2 * n - n) at 1 by lia.
    apply (slice_rect _ _ _ _ _ Hx); lia.
  - apply HNj. lia.
  - apply HNnj. lia.
Qed.

(** C4.  [load] deletes from all four tables exactly the sample rows
    whose first output component is NaN in some table; the rows that
    remain are the same in all four, in their original order. *)
Theorem load_trims_nan_rows k n x s m :
  rect (2 * n * (1 + k)) m x → 0 < m →
  ∃ pre o,
    Objective.extract k n x s = inr pre ∧ shaped pre n m ∧
    Objective.load k n x s = inr o ∧
    let surv := filter (λ i, has_nan pre i = false) (seq 0 n) in
    Objective.fM_1 o = keep surv (Objective.fM_1 pre) ∧
    Objective.fM_2 o = keep surv (Objective.fM_2 pre) ∧
    Objective.fN_j o = keep surv <$> Objective.fN_j pre ∧
    Objective.fN_nj o = keep surv <$> Objective.fN_nj pre ∧
    shaped o (length surv) m.
Proof.
  intros Hx Hm.
  destruct (extract_shaped k n x s m Hx) as (pre & Hpre & Hshape & Hk & Hn).
  destruct (locate_nans_spec pre n m Hshape Hm) as (mask & Hmask & Hlen & Hlook).
  unfold Objective.load. rewrite Hpre. simpl.
  unfold Objective.trim. rewrite Hmask. simpl.
  assert (Objective.nan_rows mask = filter (λ i, has_nan pre i = true) (seq 0 n)) as ->.
  { unfold Objective.nan_rows. rewrite Hlen. apply filter_iff_in.
    intros i Hi. apply elem_of_seq in Hi.
    assert (i < n) as Hi' by lia.
    by rewrite (list_lookup_total_correct mask i _ (Hlook i Hi')). }
  destruct Hshape as (H1 & H2 & H3 & H4).
  assert (Forall (λ i, i < n) (filter (λ i, has_nan pre i = false) (seq 0 n))) as Hsurv.
  { apply Forall_forall. intros i Hi. apply list_elem_of_filter in Hi as [_ Hi].
    apply elem_of_seq in Hi. lia. }
  exists pre. eexists. split; [done|]. split; [done|]. split; [done|].
  simpl. split_and!.
  - apply delete_keep, H1.
  - apply delete_keep, H2.
  - apply list_fmap_ext. intros i a Ha. apply delete_keep.
    apply (rect3_lookup _ _ _ _ _ _ H3 Ha).
  - apply list_fmap_ext. intros i a Ha. apply delete_keep.
    apply (rect3_lookup _ _ _ _ _ _ H4 Ha).
  - split_and!; simpl.
    + rewrite delete_keep by apply H1. by apply (keep_rect _ n).
    + rewrite delete_keep by apply H2. by apply (keep_rect _ n).
    + rewrite (list_fmap_ext _ (keep (filter (λ i, has_nan pre i = false) (seq 0 n)))).
      * by apply (keep_rect3 _ _ n).
      * intros i a Ha. apply delete_keep. apply (rect3_lookup _ _ _ _ _ _ H3 Ha).
    + rewrite (list_fmap_ext _ (keep (filter (λ i, has_nan pre i = false) (seq 0 n)))).
      * by apply (keep_rect3 _ _ n).
      * intros i a Ha. apply delete_keep. apply (rect3_lookup _ _ _ _ _ _ H4 Ha).
Qed.

(** ** Loops in the [io] monad *)

Lemma for_each_seq (body : nat → io unit) (I : nat → world → Prop) (a k : nat) (w : world) :
  I a w →
  (∀ i w, a ≤ i < a + k → I i w → ∃ w', body i w = inr (tt, w') ∧ I (S i) w') →
  ∃ w', for_each (seq a k) body w = inr (tt, w') ∧ I (a + k) w'.
Proof.
  revert a w. induction k as [|k IH]; intros a w Ha Hstep.
  - exists w. rewrite Nat.add_0_r. done.
  - destruct (Hstep a w ltac:(lia) Ha) as (w1 & Hbody & H1).
    destruct (IH (S a) w1 H1) as (w' & Hrest & H').
    { intros i w2 Hi. apply Hstep. lia. }
    exists w'. simpl. unfold io_bind. rewrite Hbody.
    split; [done|]. by replace (a + S k) with (S a + k) by lia.
Qed.

Lemma for_fold_seq {S} (body : S → nat → io S) (I : nat → S → world → Prop)
    (a k : nat) (s : S) (w : world) :
  I a s w →
  (∀ i s w, a ≤ i < a + k → I i s w →
     ∃ s' w', body s i w = inr (s', w') ∧ I (Datatypes.S i) s' w') →
  ∃ s' w', for_fold (seq a k) s body w = inr (s', w') ∧ I (a + k) s' w'.
Proof.
  revert a s w. induction k as [|k IH]; intros a s w Ha Hstep.
  - exists s, w. rewrite Nat.add_0_r. done.
  - destruct (Hstep a s w ltac:(lia) Ha) as (s1 & w1 & Hbody & H1).
    destruct (IH (Datatypes.S a) s1 w1 H1) as (s' & w' & Hrest & H').
    { intros i s2 w2 Hi. apply Hstep. lia. }
    exists s', w'. simpl. unfold io_bind. rewrite Hbody.
    split; [done|]. by replace (a + Datatypes.S k) with (Datatypes.S a + k) by lia.
Qed.

(** ** Resample matrices *)

Lemma column_col r m (a : mat) i : rect r m a → i < m → column a i = inr (col i a).
Proof.
  intros [_ Ha] Hi. unfold column.
  assert (mapM (λ row : vec, row !! i) a = Some (col i a)) as ->; [|done].
  apply mapM_Some. unfold col.
  induction Ha as [|row a Hrow Ha IH]; [constructor|].
  simpl. constructor; [|done].
  apply list_lookup_lookup_total_lt. lia.
Qed.

Lemma set_column_overwrite r m (src dst : mat) i :
  rect r m src → rect r m dst → i < m →
  set_column dst i (col i src) = inr (overwrite i src dst).
Proof.
  intros [Hls _] [Hld Hd] Hi. unfold set_column.
  rewrite decide_True.
  - rewrite decide_True; [done|]. rewrite col_length. lia.
  - eapply Forall_impl; [exact Hd|]. intros row Hrow. simpl in *. lia.
Qed.

Lemma families_lookup k src dst j : j < k → families k src dst !! j = Some (overwrite j src dst).
Proof. intros Hj. unfold families. by rewrite list_lookup_fmap, lookup_seq_lt. Qed.

Lemma families_foldl k src dst :
  families k src dst =
    foldl (λ a j, <[j := overwrite j src dst]> a) (replicate k dst) (seq 0 k).
Proof.
  apply list_eq. intros j.
  destruct (decide (j < k)) as [Hj|Hj].
  - rewrite families_lookup by done.
    rewrite foldl_insert_lookup by (rewrite length_replicate; lia).
    by rewrite decide_True.
  - rewrite !lookup_ge_None_2; [done|..].
    + rewrite foldl_insert_length, length_replicate. lia.
    + unfold families. rewrite length_fmap, length_seq. lia.
Qed.

(** ** Steps of [io] computations *)

Lemma io_bind_inr {A B} (c : io A) (f : A → io B) w a w' :
  c w = inr (a, w') → io_bind c f w = f a w'.
Proof. intros H. unfold io_bind. by rewrite H. Qed.

Lemma io_bind_inl {A B} (c : io A) (f : A → io B) w e :
  c w = inl e → io_bind c f w = inl e.
Proof. intros H. unfold io_bind. by rewrite H. Qed.

Lemma read2_ok l a w : heap w !! l = Some (Arr2 a) → read2 l w = inr (a, w).
Proof. intros H. unfold read2. by rewrite H. Qed.

Lemma read3_ok l a w : heap w !! l = Some (Arr3 a) → read3 l w = inr (a, w).
Proof. intros H. unfold read3. by rewrite H. Qed.

Lemma lift_ok {A} (r : result A) a w : r = inr a → lift r w = inr (a, w).
Proof. by intros ->. Qed.

Lemma lift_err {A} (r : result A) e w : r = inl e → lift r w = inl e.
Proof. by intros ->. Qed.

Lemma item_ok {A} (a : list A) i x : a !! i = Some x → item a i = inr x.
Proof. intros H. unfold item. by rewrite H. Qed.

Ltac io_step H := rewrite (io_bind_inr _ _ _ _ _ H).

Section generate.
Context (halton : nat → nat → vec) (shuffle1 : nat → list nat).

Lemma generate_N_j_spec k n M_1 M_2 m1 m2 w :
  heap w !! M_1 = Some (Arr2 m1) → heap w !! M_2 = Some (Arr2 m2) →
  rect n k m1 → rect n k m2 →
  Sample.generate_N_j k M_1 M_2 w =
    inr (length (heap w),
         World (heap w ++ [Arr3 (families k m1 m2)]) (gets w) (calls w)).
Proof.
  intros HM1 HM2 Hr1 Hr2. unfold Sample.generate_N_j.
  io_step (read2_ok _ _ _ HM2).
  unfold alloc at 1. unfold io_bind at 1. cbn [ret].
  pose (I := λ (i : nat) (w' : world),
          w' = World (heap w ++ [Arr3 (foldl (λ a j, <[j := overwrite j m1 m2]> a)
                                        (replicate k m2) (seq 0 i))])
                     (gets w) (calls w)).
  unfold range. rewrite Nat.sub_0_r.
  match goal with
  | |- context [for_each (seq 0 k) ?body] =>
      destruct (for_each_seq body I 0 k
                  (World (heap w ++ [Arr3 (replicate k m2)]) (gets w) (calls w)))
        as (w' & Hloop & Hw')
  end.
  { unfold I. done. }
  { intros i w0 Hi ->.
    assert (M_1 < length (heap w)) as HM1lt by (by eapply lookup_lt_Some).
    erewrite io_bind_inr; [|apply read2_ok; simpl; rewrite lookup_app_l by done; exact HM1].
    erewrite io_bind_inr; [|apply lift_ok, (column_col n k); done || lia].
    erewrite io_bind_inr;
      [|apply read3_ok; simpl; rewrite lookup_app_r by done;
        rewrite Nat.sub_diag; reflexivity].
    erewrite io_bind_inr.
    2:{ apply lift_ok, item_ok.
        rewrite foldl_insert_lookup by (rewrite length_replicate; lia).
        rewrite decide_False by lia. apply lookup_replicate_2. lia. }
    erewrite io_bind_inr; [|apply lift_ok, (set_column_overwrite n k); done || lia].
    eexists. split; [done|]. unfold I. rewrite seq_S, foldl_app.
    cbn [heap gets calls foldl]. f_equal.
    replace (length (heap w)) with (length (heap w) + 0) at 1 by lia.
    by rewrite insert_app_r. }
  io_step Hloop. unfold I in Hw'. simpl in Hw'. rewrite Hw'. unfold io_ret.
  by rewrite families_foldl.
Qed.
End generate.

(** ** Constructing a sample *)

Section construct.
Context (halton : nat → nat → vec) (shuffle1 : nat → list nat).

Lemma shuffled_rect n k (a : mat) :
  shuffle1 n ≡ₚ seq 0 n → rect n k a → rect n k (keep (shuffle1 n) a).
Proof.
  intros Hperm Ha.
  assert (length (shuffle1 n) = n) as Hlen.
  { rewrite Hperm. apply length_seq. }
  rewrite <- Hlen at 1. apply (keep_rect _ n); [done|].
  rewrite Hperm. apply Forall_forall. intros i Hi. apply elem_of_seq in Hi. lia.
Qed.

Lemma derive_spec self scaling (is_raw : bool) x w :
  let k := Sample.k self in
  let n := Sample.n self in
  let sc := scaling_or_id scaling in
  let m1 := sc (numpy.slice 0 n x) in
  let m2 := sc (numpy.slice n (2 * n) x) in
  let m2' := if is_raw then keep (shuffle1 (length m2)) m2 else m2 in
  rect n k m1 → rect n k m2' →
  Sample.derive shuffle1 self scaling is_raw x w =
    inr (derived_sample (heap w) k n,
         World (derived_heap (heap w) k m1 m2') (gets w) (calls w)).
Proof.
  intros k n sc m1 m2 m2' Hr1 Hr2. unfold Sample.derive.
  fold k n. change (match scaling with None => λ x, x | Some s => s end) with sc.
  fold m1 m2.
  unfold alloc at 1. unfold io_bind at 1. cbn [ret heap gets calls].
  unfold alloc at 1. unfold io_bind at 1. cbn [ret heap gets calls].
  rewrite length_app. cbn [length].
  set (w2 := World (((heap w ++ [Arr2 m1]) ++ [Arr2 m2'])) (gets w) (calls w)).
  assert ((if is_raw then Sample.shuffle shuffle1 (length (heap w) + 1) else io_ret tt)
            (World ((heap w ++ [Arr2 m1]) ++ [Arr2 m2]) (gets w) (calls w))
          = inr (tt, w2)) as Hsh.
  { unfold m2', w2. destruct is_raw; [|done].
    unfold Sample.shuffle.
    erewrite io_bind_inr.
    2:{ apply read2_ok. simpl. rewrite lookup_app_r by (rewrite length_app; simpl; lia).
        rewrite length_app. simpl. rewrite Nat.sub_diag. done. }
    unfold write. simpl. do 3 f_equal.
    replace (length (heap w) + 1) with (length (heap w ++ [Arr2 m1]) + 0)
      by (rewrite length_app; simpl; lia).
    by rewrite insert_app_r. }
  io_step Hsh.
  assert (heap w2 !! length (heap w) = Some (Arr2 m1)) as HM1.
  { unfold w2. simpl. rewrite <- app_assoc. rewrite lookup_app_r by done.
    by rewrite Nat.sub_diag. }
  assert (heap w2 !! (length (heap w) + 1) = Some (Arr2 m2')) as HM2.
  { unfold w2. simpl. rewrite lookup_app_r by (rewrite length_app; simpl; lia).
    rewrite length_app. simpl. by rewrite Nat.sub_diag. }
  io_step (generate_N_j_spec k n _ _ _ _ w2 HM1 HM2 Hr1 Hr2).
  set (w3 := World (heap w2 ++ [Arr3 (families k m1 m2')]) (gets w2) (calls w2)).
  assert (heap w3 !! length (heap w) = Some (Arr2 m1)) as HM1'.
  { unfold w3. simpl. rewrite lookup_app_l; [done|]. by eapply lookup_lt_Some. }
  assert (heap w3 !! (length (heap w) + 1) = Some (Arr2 m2')) as HM2'.
  { unfold w3. simpl. rewrite lookup_app_l; [done|]. by eapply lookup_lt_Some. }
  io_step (generate_N_j_spec k n _ _ _ _ w3 HM2' HM1' Hr2 Hr1).
  unfold io_ret, derived_sample, derived_heap, w3, w2. simpl.
  rewrite !length_app. simpl.
  rewrite <- !app_assoc. cbn [app].
  replace (length (heap w) + 1 + 1 + 1) with (length (heap w) + 3) by lia.
  by replace (length (heap w) + 1 + 1) with (length (heap w) + 2) by lia.
Qed.
End construct.

(** What [numpy.vstack] returns has a row. *)
Lemma vstack_nonempty sample x : numpy.vstack sample = inr x → x ≠ [].
Proof.
  unfold numpy.vstack. destruct sample as [|a sample]; [done|].
  rewrite fmap_cons. case_decide; [|done]. intros [= <-].
  by destruct a.
Qed.

Lemma stacked_vstack sample : stacked sample ≠ [] → numpy.vstack sample = inr (stacked sample).
Proof. unfold stacked. by destruct (numpy.vstack sample). Qed.

Lemma rect_shape r m x : rect r m x → 0 < r → shape x = (r, m).
Proof.
  intros Hx Hr. unfold shape. rewrite (rect_width r m) by done.
  by destruct Hx as [-> _].
Qed.

(** [load] on files that hold an unscaled design returns the design. *)
Lemma load_unscaled self f sample x w :
  numpy.vstack sample = inr x → shape x = (2 * Sample.n self, Sample.k self) →
  Sample.load self (Some f) sample w = inr ((x, self), w).
Proof.
  intros Hs Hx. unfold Sample.load. io_step (lift_ok _ _ w Hs).
  by rewrite decide_True.
Qed.

Section init.
Context (halton : nat → nat → vec) (shuffle1 : nat → list nat).

Lemma init_spec k n scaling c w :
  let x := design halton k n c in
  let sc := scaling_or_id scaling in
  let m1 := sc (numpy.slice 0 n x) in
  let m2 := second_half shuffle1 c (sc (numpy.slice n (2 * n) x)) in
  0 < n → 0 < k → admissible c scaling →
  rect (2 * n) k x → rect n k m1 → rect n k m2 →
  Sample.init halton shuffle1 k n scaling (discard_of c) (raw_of c) (loadArgs_of c) w =
    inr (derived_sample (heap w) k n,
         World (derived_heap (heap w) k m1 m2) (gets w ++ requests k n c) (calls w)).
Proof.
  intros x sc m1 m2 Hn Hk Hadm Hx Hm1 Hm2.
  assert (shape x = (2 * n, k)) as Hshape by (apply rect_shape; [done|lia]).
  assert (shape x ≠ (2 * n * (1 + k), k)) as Hflat.
  { rewrite Hshape. intros [= H]. nia. }
  pose (self := Sample.mk k n None None None None).
  unfold Sample.init. fold self.
  destruct c as [x0 la|files|discard];
    cbn [raw_of loadArgs_of discard_of design second_half requests admissible] in *.
  - rewrite decide_False by (intros H; by apply H).
    rewrite (derive_spec shuffle1 self scaling true x0 w Hm1 Hm2).
    by rewrite app_nil_r.
  - destruct Hadm as [f ->].
    assert (numpy.vstack files = inr x) as Hstack.
    { apply stacked_vstack. fold x. destruct Hx as [Hlen _].
      intros Hnil. rewrite Hnil in Hlen. simpl in Hlen. lia. }
    io_step (load_unscaled self f files x w Hstack Hshape).
    cbv beta iota.
    destruct (decide (shape x = (2 * n * (1 + k), k))) as [Heq|_]; [done|].
    rewrite (derive_spec shuffle1 self (Some f) false x w Hm1 Hm2).
    by rewrite app_nil_r.
  - destruct Hadm as [[f ->] Hd].
    assert (int discard = inr (burn_in k discard - 20 * k)) as Hint.
    { unfold burn_in. destruct discard as [d|[]|y]; simpl; try (f_equal; lia).
      by destruct (Hd y). }
    io_step (lift_ok _ _ w Hint).
    replace (20 * k + (burn_in k discard - 20 * k)) with (burn_in k discard)
      by (unfold burn_in; lia).
    unfold Sample.get, io_bind, ret. cbv beta iota. cbn [heap gets calls].
    rewrite Nat.add_0_l.
    etrans; [exact (derive_spec shuffle1 self (Some f) false _ _ Hm1 Hm2)|].
    cbn [heap gets calls Sample.k Sample.n self]. by rewrite <- app_assoc.
Qed.
End init.

Lemma overwrite_entry n k j src dst r c :
  rect n k src → rect n k dst → j < k → r < n → c < k →
  entry (overwrite j src dst) r c = entry (if decide (c = j) then src else dst) r c.
Proof.
  intros Hs Hd Hj Hr Hc. unfold entry, overwrite.
  destruct (lookup_lt_is_Some_2 src r) as [rs Hrs]; [destruct Hs; lia|].
  destruct (lookup_lt_is_Some_2 dst r) as [rd Hrd]; [destruct Hd; lia|].
  pose proof (rect_lookup _ _ _ _ _ Hs Hrs) as Hls.
  pose proof (rect_lookup _ _ _ _ _ Hd Hrd) as Hld.
  rewrite lookup_zip_with, Hrd. unfold col. rewrite list_lookup_fmap, Hrs. simpl.
  destruct (decide (c = j)) as [->|Hne].
  - rewrite Hrs. simpl. rewrite list_lookup_insert_eq by lia.
    symmetry. apply list_lookup_lookup_total_lt. lia.
  - rewrite Hrd. simpl. by rewrite list_lookup_insert_ne.
Qed.

Lemma derived_heap_lookup h k m1 m2 :
  derived_heap h k m1 m2 !! length h = Some (Arr2 m1) ∧
  derived_heap h k m1 m2 !! (length h + 1) = Some (Arr2 m2) ∧
  derived_heap h k m1 m2 !! (length h + 2) = Some (Arr3 (families k m1 m2)) ∧
  derived_heap h k m1 m2 !! (length h + 3) = Some (Arr3 (families k m2 m1)).
Proof.
  unfold derived_heap. rewrite !lookup_app_r by lia.
  replace (length h - length h) with 0 by lia.
  replace (length h + 1 - length h) with 1 by lia.
  replace (length h + 2 - length h) with 2 by lia.
  replace (length h + 3 - length h) with 3 by lia.
  done.
Qed.

Lemma derived_sample_deref h k n m1 m2 g c :
  let s := derived_sample h k n in
  let w := World (derived_heap h k m1 m2) g c in
  deref2 w (Sample.M_1 s) = Some m1 ∧ deref2 w (Sample.M_2 s) = Some m2 ∧
  deref3 w (Sample.N_j s) = Some (families k m1 m2) ∧
  deref3 w (Sample.N_nj s) = Some (families k m2 m1).
Proof.
  intros s w. destruct (derived_heap_lookup h k m1 m2) as (H0 & H1 & H2 & H3).
  unfold deref2, deref3, s, w, derived_sample.
  cbn [Sample.M_1 Sample.M_2 Sample.N_j Sample.N_nj heap mbind option_bind].
  by rewrite H0, H1, H2, H3.
Qed.

Section sample_theorems.
Context (halton : nat → nat → vec) (shuffle1 : nat → list nat).

Lemma halves_rect k n scaling c :
  let x := design halton k n c in
  let sc := scaling_or_id scaling in
  rect (2 * n) k x → keeps_shape n k sc → shuffle1 n ≡ₚ seq 0 n →
  rect n k (sc (numpy.slice 0 n x)) ∧
  rect n k (second_half shuffle1 c (sc (numpy.slice n (2 * n) x))).
Proof.
  intros x sc Hx Hsc Hperm.
  assert (rect n k (sc (numpy.slice 0 n x))) as H1.
  { apply Hsc. replace n with (n - 0) at 1 by lia.
    apply (slice_rect _ _ _ _ _ Hx); lia. }
  assert (rect n k (sc (numpy.slice n (2 * n) x))) as H2.
  { apply Hsc. replace n with (2 * n - n) at 1 by lia.
    apply (slice_rect _ _ _ _ _ Hx); lia. }
  split; [done|]. destruct c; cbn [second_half]; try done.
  pose proof H2 as [Hlen _]. rewrite Hlen. by apply shuffled_rect.
Qed.

(** C5.  In every sample the constructor derives, [N_j[j]] is [M_2]
    with column [j] overwritten by column [j] of [M_1] and [N_nj[j]]
    is [M_1] with column [j] overwritten by column [j] of [M_2]; the
    other columns are those of [M_2] (of [M_1]), and [M_1] and [M_2]
    hold what was assigned to them before the derivation. *)
Theorem resample_families k n scaling c w :
  let x := design halton k n c in
  let sc := scaling_or_id scaling in
  let m1 := sc (numpy.slice 0 n x) in
  let m2 := second_half shuffle1 c (sc (numpy.slice n (2 * n) x)) in
  0 < n → 0 < k → admissible c scaling →
  rect (2 * n) k x → keeps_shape n k sc → shuffle1 n ≡ₚ seq 0 n →
  ∃ s w' nj nnj,
    Sample.init halton shuffle1 k n scaling (discard_of c) (raw_of c) (loadArgs_of c) w
      = inr (s, w') ∧
    deref2 w' (Sample.M_1 s) = Some m1 ∧ deref2 w' (Sample.M_2 s) = Some m2 ∧
    deref3 w' (Sample.N_j s) = Some nj ∧ deref3 w' (Sample.N_nj s) = Some nnj ∧
    length nj = k ∧ length nnj = k ∧
    ∀ j, j < k →
      nj !! j = Some (overwrite j m1 m2) ∧
      nnj !! j = Some (overwrite j m2 m1) ∧
      ∀ r c, r < n → c < k →
        entry (overwrite j m1 m2) r c = entry (if decide (c = j) then m1 else m2) r c ∧
        entry (overwrite j m2 m1) r c = entry (if decide (c = j) then m2 else m1) r c.
Proof.
  intros x sc m1 m2 Hn Hk Hadm Hx Hsc Hperm.
  destruct (halves_rect k n scaling c Hx Hsc Hperm) as [Hm1 Hm2].
  fold x sc m1 m2 in Hm1, Hm2.
  eexists _, _, (families k m1 m2), (families k m2 m1).
  split; [exact (init_spec halton shuffle1 k n scaling c w Hn Hk Hadm Hx Hm1 Hm2)|].
  destruct (derived_sample_deref (heap w) k n m1 m2
              (gets w ++ requests k n c) (calls w)) as (H1 & H2 & H3 & H4).
  split_and!; try done.
  - unfold families. by rewrite length_fmap, length_seq.
  - unfold families. by rewrite length_fmap, length_seq.
  - intros j Hj. rewrite !families_lookup by done. split_and!; try done.
    intros r c' Hr Hc. split; by apply (overwrite_entry n k).
Qed.

(** C10.  The shuffle touches [M_2] on the raw path and nothing else:
    a design loaded from files (or freshly generated) yields the scaled
    halves in their order, a raw design yields the scaled first half
    and the shuffled scaled second half. *)
Theorem shuffle_only_on_raw k n scaling c w :
  let x := design halton k n c in
  let sc := scaling_or_id scaling in
  0 < n → 0 < k → admissible c scaling →
  rect (2 * n) k x → keeps_shape n k sc → shuffle1 n ≡ₚ seq 0 n →
  ∃ s w',
    Sample.init halton shuffle1 k n scaling (discard_of c) (raw_of c) (loadArgs_of c) w
      = inr (s, w') ∧
    deref2 w' (Sample.M_1 s) = Some (sc (numpy.slice 0 n x)) ∧
    deref2 w' (Sample.M_2 s) =
      Some (match c with
            | FromRaw _ _ => keep (shuffle1 n) (sc (numpy.slice n (2 * n) x))
            | _ => sc (numpy.slice n (2 * n) x)
            end).
Proof.
  intros x sc Hn Hk Hadm Hx Hsc Hperm.
  destruct (halves_rect k n scaling c Hx Hsc Hperm) as [Hm1 Hm2].
  fold x sc in Hm1, Hm2.
  eexists _, _.
  split; [exact (init_spec halton shuffle1 k n scaling c w Hn Hk Hadm Hx Hm1 Hm2)|].
  match goal with
  | |- context [World (derived_heap _ _ ?a ?b) ?g ?cl] =>
      destruct (derived_sample_deref (heap w) k n a b g cl) as (H1 & H2 & _)
  end.
  split; [done|]. rewrite H2. f_equal.
  destruct c; cbn [second_half]; try done.
  fold x sc.
  assert (length (sc (numpy.slice n (2 * n) x)) = n) as ->; [|done].
  assert (rect n k (sc (numpy.slice n (2 * n) x))) as [Hl _]; [|done].
  apply Hsc. replace n with (2 * n - n) at 1 by lia.
  apply (slice_rect _ _ _ _ _ Hx); lia.
Qed.
End sample_theorems.

(** ** Requests to the sequence source *)

Lemma slice_points (g : nat → vec) (b n : nat) :
  numpy.slice 0 n (g <$> seq b (2 * n)) = g <$> seq b n ∧
  numpy.slice n (2 * n) (g <$> seq b (2 * n)) = g <$> seq (b + n) n.
Proof.
  unfold numpy.slice. split.
  - rewrite drop_0, Nat.sub_0_r, <- fmap_take, take_seq. f_equal. f_equal. lia.
  - rewrite <- fmap_drop, <- fmap_take, drop_seq, take_seq. f_equal. f_equal; lia.
Qed.

Lemma points_rect (g : nat → vec) (k b c : nat) :
  (∀ i, length (g i) = k) → rect c k (g <$> seq b c).
Proof.
  intros Hg. split; [by rewrite length_fmap, length_seq|].
  apply Forall_fmap, Forall_forall. intros i _. apply Hg.
Qed.

Section burn_in.
Context (halton : nat → nat → vec) (shuffle1 : nat → list nat).

(** A fresh sample requests [burn_in] points, then [2 n] points, and
    takes [M_1] and [M_2] from the latter. *)
Lemma fresh_sample k n f discard w :
  0 < n → 0 < k → (∀ x, discard ≠ PyArray x) →
  (∀ i, length (halton k i) = k) → keeps_shape n k f →
  ∃ s w',
    Sample.init halton shuffle1 k n (Some f) discard None None w = inr (s, w') ∧
    gets w' = gets w ++ [burn_in k discard; 2 * n] ∧
    deref2 w' (Sample.M_1 s) = Some (f (halton k <$> seq (burn_in k discard) n)) ∧
    deref2 w' (Sample.M_2 s) = Some (f (halton k <$> seq (burn_in k discard + n) n)).
Proof.
  intros Hn Hk Hd Hh Hf.
  destruct (slice_points (halton k) (burn_in k discard) n) as [Hs1 Hs2].
  assert (rect n k (f (halton k <$> seq (burn_in k discard) n))) as Hm1
    by (by apply Hf, points_rect).
  assert (rect n k (f (halton k <$> seq (burn_in k discard + n) n))) as Hm2
    by (by apply Hf, points_rect).
  pose proof (init_spec halton shuffle1 k n (Some f) (Fresh discard) w Hn Hk) as Hinit.
  cbn [design second_half scaling_or_id admissible discard_of raw_of loadArgs_of requests]
    in Hinit.
  rewrite Hs1, Hs2 in Hinit.
  eexists _, _. split.
  - apply Hinit; [by split; [eexists|]|by apply points_rect|done..].
  - split; [done|].
    match goal with
    | |- context [World (derived_heap _ _ ?a ?b) ?g ?cl] =>
        destruct (derived_sample_deref (heap w) k n a b g cl) as (H1 & H2 & _)
    end.
    by split.
Qed.

(** C7.  Through the estimator the sample is built by
    [Sample(k, n, scaling_func, verbose)]: [verbose] lands in the
    [discard] parameter, and with [verbose = True] the burn-in is
    [20 k + 1] points. *)
Theorem estimator_burn_in objective k n f w :
  0 < n → 0 < k → (∀ i, length (halton k i) = k) → keeps_shape n k f →
  ∃ s w',
    Varsens.init_sample halton shuffle1 objective (Some f) (Some k) (Some n) None true w
      = inr ((Some k, Some n, Some s), w') ∧
    gets w' = gets w ++ [20 * k + 1; 2 * n] ∧
    deref2 w' (Sample.M_1 s) = Some (f (halton k <$> seq (20 * k + 1) n)) ∧
    deref2 w' (Sample.M_2 s) = Some (f (halton k <$> seq (20 * k + 1 + n) n)).
Proof.
  intros Hn Hk Hh Hf.
  destruct (fresh_sample k n f (PyBool true) w Hn Hk) as (s & w' & Hinit & Hrest);
    [done..|].
  exists s, w'. split; [|exact Hrest].
  unfold Varsens.init_sample. by io_step Hinit.
Qed.
End burn_in.

(** ** Shape errors *)

Section shape_errors.
Context (halton : nat → nat → vec) (shuffle1 : nat → list nat).

(** C8.  When the arrays read from the files stack to an array of
    neither accepted shape, the constructor raises an error whose
    message gives the shape of the stacked array and the two accepted
    ones; when they do not stack (there is none, or their widths
    differ) it raises the error of [numpy.vstack], which comes before
    any test of a shape.  A raw array of a shape other than [(2n, k)]
    raises an error with a fixed message. *)
Theorem shape_mismatch_errors k n scaling discard w :
  (∀ sample x,
      numpy.vstack sample = inr x →
      shape x ≠ (2 * n, k) →
      shape x ≠ (2 * n * (1 + k), k) →
      Sample.init halton shuffle1 k n scaling discard None (Some sample) w =
        inl (Exception (loaded_message (shape x) n k))) ∧
  (∀ sample e,
      numpy.vstack sample = inl e →
      Sample.init halton shuffle1 k n scaling discard None (Some sample) w = inl e) ∧
  (∀ x loadArgs,
      shape x ≠ (2 * n, k) →
      Sample.init halton shuffle1 k n scaling discard (Some x) loadArgs w =
        inl (Exception raw_message)).
Proof.
  split_and!.
  - intros sample x Hstack H1 H2. unfold Sample.init, Sample.load.
    cbn [Sample.k Sample.n].
    apply io_bind_inl.
    rewrite (io_bind_inr _ _ _ _ _ (lift_ok _ _ w Hstack)).
    destruct (decide (shape x = (2 * n, k))) as [?|_]; [done|].
    destruct (decide (shape x = (2 * n * (1 + k), k))) as [?|_]; [done|].
    done.
  - intros sample e Hstack. unfold Sample.init, Sample.load.
    apply io_bind_inl, io_bind_inl. by apply lift_err.
  - intros x loadArgs Hx. unfold Sample.init.
    destruct (decide (shape x ≠ (2 * n, k))) as [_|Hn]; [done|].
    by destruct Hn.
Qed.
End shape_errors.

(** ** Evaluating the objective function *)

Lemma logged_logged w xs ys : logged (logged w xs) ys = logged w (xs ++ ys).
Proof. unfold logged. simpl. by rewrite app_assoc. Qed.

Lemma logged_nil w : logged w [] = w.
Proof. unfold logged. rewrite app_nil_r. by destruct w. Qed.

Lemma assign_row_stored (a : mat) i v n l :
  rect n l a → i < n → length (stored v) = l →
  Objective.assign_row a i v = inr (<[i := stored v]> a).
Proof.
  intros Ha Hi Hv. unfold Objective.assign_row.
  destruct (lookup_lt_is_Some_2 a i) as [row Hrow]; [destruct Ha; lia|].
  rewrite (item_ok _ _ _ Hrow). simpl.
  rewrite (rect_lookup _ _ _ _ _ Ha Hrow).
  destruct v as [s|u]; simpl in *.
  - by subst l.
  - by rewrite decide_True.
Qed.

Lemma insert_rect n l (a : mat) i row :
  rect n l a → length row = l → rect n l (<[i := row]> a).
Proof.
  intros [Hl Hr] Hrow. split; [by rewrite length_insert|].
  by apply Forall_insert.
Qed.

Lemma seq_lookup_total {A} `{!Inhabited A} (m : list A) :
  (λ i, m !!! i) <$> seq 0 (length m) = m.
Proof.
  apply list_eq. intros i. rewrite list_lookup_fmap.
  destruct (decide (i < length m)) as [Hi|Hi].
  - rewrite lookup_seq_lt by done. simpl.
    symmetry. by apply list_lookup_lookup_total_lt.
  - rewrite lookup_seq_ge by lia. simpl. symmetry. apply lookup_ge_None_2. lia.
Qed.

Lemma foldl_insert_all {A B} `{!Inhabited A} (g : A → B) (m : list A) (t : list B) :
  length t = length m →
  foldl (λ t i, <[i := g (m !!! i)]> t) t (seq 0 (length m)) = g <$> m.
Proof.
  intros Hlen. apply list_eq. intros i.
  destruct (decide (i < length m)) as [Hi|Hi].
  - rewrite foldl_insert_lookup by lia. rewrite decide_True by done.
    rewrite list_lookup_fmap, (list_lookup_lookup_total_lt m i) by done. done.
  - rewrite !lookup_ge_None_2; [done|..].
    + rewrite length_fmap. lia.
    + rewrite foldl_insert_length. lia.
Qed.

Section evaluate.
Context (f : vec → pyval) (l : nat).
Hypothesis Hf : uniform f l.

Lemma evaluate2_spec M m n a c fM w :
  heap w !! M = Some (Arr2 m) → length m = n → rect n l fM → a + c ≤ n →
  for_fold (seq a c) fM (λ fM i,
      M <~ lift (attr (Some M)) ;;
      m <~ read2 M ;;
      x <~ lift (item m i) ;;
      v <~ Objective.call f x ;;
      lift (Objective.assign_row fM i v)) w =
    inr (foldl (λ t i, <[i := stored (f (m !!! i))]> t) fM (seq a c),
         logged w ((λ i, m !!! i) <$> seq a c)).
Proof.
  intros HM Hm. revert a fM w HM.
  induction c as [|c IH]; intros a fM w HM HfM Hac.
  - simpl. unfold io_ret. by rewrite logged_nil.
  - cbn [seq for_fold foldl fmap list_fmap].
    destruct (lookup_lt_is_Some_2 m a) as [x Hx]; [lia|].
    erewrite io_bind_inr.
    2:{ erewrite io_bind_inr; [|by apply lift_ok].
        erewrite io_bind_inr; [|by apply read2_ok].
        erewrite io_bind_inr; [|by apply lift_ok, item_ok].
        unfold Objective.call at 1. unfold io_bind at 1. cbn [ret].
        apply lift_ok. apply (assign_row_stored _ _ _ n l); [done|lia|apply Hf]. }
    rewrite IH; [| done | by apply insert_rect | lia].
    rewrite (list_lookup_total_correct _ _ _ Hx).
    f_equal. f_equal. unfold logged. simpl. by rewrite <- app_assoc.
Qed.
End evaluate.

Section evaluate3.
Context (f : vec → pyval) (l : nat).
Hypothesis Hf : uniform f l.

Lemma evaluate3_inner N nj i ai n a c (fN : ten) fNi w :
  heap w !! N = Some (Arr3 nj) → nj !! i = Some ai → length ai = n →
  fN !! i = Some fNi → rect n l fNi → a + c ≤ n →
  for_fold (seq a c) fN (λ fN j,
      N <~ lift (attr (Some N)) ;;
      a <~ read3 N ;;
      ai <~ lift (item a i) ;;
      x <~ lift (item ai j) ;;
      v <~ Objective.call f x ;;
      fNi <~ lift (item fN i) ;;
      fNi' <~ lift (Objective.assign_row fNi j v) ;;
      io_ret (<[i := fNi']> fN)) w =
    inr (<[i := foldl (λ t j, <[j := stored (f (ai !!! j))]> t) fNi (seq a c)]> fN,
         logged w ((λ j, ai !!! j) <$> seq a c)).
Proof.
  intros HN Hi Hai. revert a fN fNi w HN.
  induction c as [|c IH]; intros a fN fNi w HN HfN Hrect Hac.
  - simpl. unfold io_ret. rewrite logged_nil. by rewrite list_insert_id.
  - cbn [seq for_fold foldl fmap list_fmap].
    destruct (lookup_lt_is_Some_2 ai a) as [x Hx]; [lia|].
    erewrite io_bind_inr.
    2:{ erewrite io_bind_inr; [|by apply lift_ok].
        erewrite io_bind_inr; [|by apply read3_ok].
        erewrite io_bind_inr; [|by apply lift_ok, item_ok].
        erewrite io_bind_inr; [|by apply lift_ok, item_ok].
        unfold Objective.call at 1. unfold io_bind at 1. cbn [ret].
        erewrite io_bind_inr; [|by apply lift_ok, item_ok].
        erewrite io_bind_inr;
          [|apply lift_ok, (assign_row_stored _ _ _ n l); [done|lia|apply Hf]].
        reflexivity. }
    rewrite (IH _ _ (<[a := stored (f x)]> fNi)).
    + rewrite list_insert_insert_eq, (list_lookup_total_correct _ _ _ Hx).
      f_equal. f_equal. unfold logged. simpl. by rewrite <- app_assoc.
    + done.
    + apply list_lookup_insert_eq. by eapply lookup_lt_Some.
    + apply insert_rect; [done|apply Hf].
    + lia.
Qed.

Lemma evaluate3_outer N nj k n b d (fN : ten) w :
  heap w !! N = Some (Arr3 nj) → length nj = k →
  Forall (λ a : mat, length a = n) nj →
  rect3 k n l fN → b + d ≤ k →
  for_fold (seq b d) fN (λ fN i,
    for_fold (seq 0 n) fN (λ fN j,
      N <~ lift (attr (Some N)) ;;
      a <~ read3 N ;;
      ai <~ lift (item a i) ;;
      x <~ lift (item ai j) ;;
      v <~ Objective.call f x ;;
      fNi <~ lift (item fN i) ;;
      fNi' <~ lift (Objective.assign_row fNi j v) ;;
      io_ret (<[i := fNi']> fN))) w =
    inr (foldl (λ t i, <[i := (λ x, stored (f x)) <$> (nj !!! i)]> t) fN (seq b d),
         logged w (concat ((λ i, nj !!! i) <$> seq b d))).
Proof.
  intros HN Hk Hnj. revert b fN w HN.
  induction d as [|d IH]; intros b fN w HN HfN Hbd.
  - simpl. unfold io_ret. by rewrite logged_nil.
  - cbn [seq for_fold foldl fmap list_fmap concat].
    destruct (lookup_lt_is_Some_2 nj b) as [ai Hai]; [lia|].
    destruct (lookup_lt_is_Some_2 fN b) as [fNi HfNi]; [destruct HfN; lia|].
    pose proof (Forall_lookup_1 _ _ _ _ Hnj Hai) as Hlen. simpl in Hlen.
    pose proof (rect3_lookup _ _ _ _ _ _ HfN HfNi) as Hrect.
    assert (foldl (λ (t : mat) j, <[j := stored (f (ai !!! j))]> t) fNi (seq 0 n)
            = (λ x, stored (f x)) <$> ai) as Hfill.
    { rewrite <- Hlen. apply (foldl_insert_all (λ x, stored (f x)) ai).
      destruct Hrect; lia. }
    assert ((λ j, ai !!! j) <$> seq 0 n = ai) as Hrows.
    { rewrite <- Hlen. apply seq_lookup_total. }
    erewrite io_bind_inr;
      [|apply (evaluate3_inner N nj b ai n 0 n fN fNi w); done || lia].
    rewrite Hfill, Hrows.
    rewrite IH.
    + by rewrite (list_lookup_total_correct _ _ _ Hai), logged_logged.
    + done.
    + destruct HfN as [HfNl HfNr]. split; [by rewrite length_insert|].
      apply Forall_insert; [done|].
      split; [by rewrite length_fmap|].
      apply Forall_fmap, Forall_forall. intros x _. apply Hf.
    + lia.
Qed.
End evaluate3.

Lemma zeros2_rect n l : rect n l (numpy.zeros2 n l).
Proof.
  unfold numpy.zeros2, numpy.zeros1. split; [by rewrite length_replicate|].
  apply Forall_replicate. by rewrite length_replicate.
Qed.

Lemma zeros3_rect3 k n l : rect3 k n l (numpy.zeros3 k n l).
Proof.
  unfold numpy.zeros3. split; [by rewrite length_replicate|].
  apply Forall_replicate, zeros2_rect.
Qed.

Lemma foldl_insert_all3 {A B} `{!Inhabited A} (g : A → B) (m : list A) (t : list B) :
  length t = length m →
  foldl (λ t i, <[i := g (m !!! i)]> t) t (seq 0 (length m)) = g <$> m.
Proof. apply foldl_insert_all. Qed.

Lemma concat_length_uniform {A} (ls : list (list A)) n :
  Forall (λ a, length a = n) ls → length (concat ls) = length ls * n.
Proof.
  induction 1 as [|a ls Ha _ IH]; [done|].
  simpl. rewrite length_app, IH, Ha. lia.
Qed.

(** C6.  A fresh evaluation calls the objective function once on every
    row of [M_1], then of [M_2], then of [N_j[0]], ..., [N_j[k-1]], then
    of [N_nj[0]], ..., [N_nj[k-1]]: [2 n (1 + k)] calls, after which the
    tables hold the values at the rows of the same index. *)
Theorem fresh_evaluation k n l s f w m1 m2 nj nnj :
  0 < n →
  deref2 w (Sample.M_1 s) = Some m1 → deref2 w (Sample.M_2 s) = Some m2 →
  deref3 w (Sample.N_j s) = Some nj → deref3 w (Sample.N_nj s) = Some nnj →
  length m1 = n → length m2 = n →
  length nj = k → Forall (λ a : mat, length a = n) nj →
  length nnj = k → Forall (λ a : mat, length a = n) nnj →
  uniform f l →
  let xs := m1 ++ m2 ++ concat nj ++ concat nnj in
  Objective.init k n (Some s) (Some f) (PyArray []) None w =
    inr (Objective.mk k n (values f m1) (values f m2)
                      (values f <$> nj) (values f <$> nnj),
         logged w xs) ∧
  length xs = 2 * n * (1 + k).
Proof.
  intros Hn HM1 HM2 HNj HNnj Hm1 Hm2 Hk Hnj Hk' Hnnj Hf xs.
  pose (g := λ x, stored (f x)). split.
  2:{ unfold xs. rewrite !length_app, (concat_length_uniform nj n),
        (concat_length_uniform nnj n) by done. lia. }
  destruct s as [sk sn [M1|] [M2|] [Nj|] [Nnj|]]; try done.
  unfold deref2, deref3 in *. simpl in HM1, HM2, HNj, HNnj.
  destruct (heap w !! M1) as [[a1|]|] eqn:E1; try done. injection HM1 as ->.
  destruct (heap w !! M2) as [[a2|]|] eqn:E2; try done. injection HM2 as ->.
  destruct (heap w !! Nj) as [[|a3]|] eqn:E3; try done. injection HNj as ->.
  destruct (heap w !! Nnj) as [[|a4]|] eqn:E4; try done. injection HNnj as ->.
  destruct (lookup_lt_is_Some_2 m1 0) as [x0 Hx0]; [lia|].
  unfold Objective.init. cbn [len Sample.M_1 Sample.M_2 Sample.N_j Sample.N_nj].
  erewrite io_bind_inr; [|by apply lift_ok].
  destruct (decide (0 < length (@nil vec))) as [Hlt|_]; [simpl in Hlt; lia|].
  erewrite io_bind_inr; [|by apply lift_ok].
  erewrite io_bind_inr; [|by apply read2_ok].
  erewrite io_bind_inr; [|by apply lift_ok, item_ok].
  unfold Objective.call at 1. unfold io_bind at 1. cbn [ret].
  assert (match f x0 with Scalar _ => 1 | Vector v => length v end = l) as ->.
  { rewrite <- (Hf x0). by destruct (f x0). }
  fold (logged w [x0]).
  erewrite io_bind_inr;
    [|apply lift_ok, (assign_row_stored _ _ _ n l); [apply zeros2_rect|lia|apply Hf]].
  unfold Objective.evaluate2, range.
  erewrite io_bind_inr.
  2:{ apply (evaluate2_spec f l Hf M1 m1 n 1 (n - 1)); [done|done| |lia].
      apply insert_rect; [apply zeros2_rect|apply Hf]. }
  rewrite Nat.sub_0_r.
  erewrite io_bind_inr.
  2:{ apply (evaluate2_spec f l Hf M2 m2 n 0 n); [done|done|apply zeros2_rect|lia]. }
  unfold Objective.evaluate3, range. rewrite !Nat.sub_0_r.
  erewrite io_bind_inr.
  2:{ apply (evaluate3_outer f l Hf Nj nj k n 0 k); [done..|apply zeros3_rect3|lia]. }
  erewrite io_bind_inr.
  2:{ apply (evaluate3_outer f l Hf Nnj nnj k n 0 k); [done..|apply zeros3_rect3|lia]. }
  unfold io_ret. rewrite !logged_logged.
  assert (foldl (λ t i, <[i := stored (f (m1 !!! i))]> t)
            (<[0 := stored (f x0)]> (numpy.zeros2 n l)) (seq 1 (n - 1)) = values f m1) as ->.
  { rewrite <- (list_lookup_total_correct _ _ _ Hx0).
    change (foldl (λ t i, <[i := stored (f (m1 !!! i))]> t) (numpy.zeros2 n l)
              (0 :: seq 1 (n - 1)) = g <$> m1).
    replace (0 :: seq 1 (n - 1)) with (seq 0 (length m1))
      by (rewrite Hm1; destruct n; [lia|]; simpl; by rewrite Nat.sub_0_r).
    apply (foldl_insert_all g m1). destruct (zeros2_rect n l). lia. }
  assert (foldl (λ t i, <[i := stored (f (m2 !!! i))]> t) (numpy.zeros2 n l) (seq 0 n)
          = values f m2) as ->.
  { rewrite <- Hm2. apply (foldl_insert_all g m2). destruct (zeros2_rect (length m2) l). lia. }
  assert (∀ (t : ten) (N : ten), length t = length N →
            foldl (λ t i, <[i := (λ x, stored (f x)) <$> (N !!! i)]> t) t (seq 0 (length N))
            = values f <$> N) as Hfam.
  { intros t N Ht. apply (foldl_insert_all (values f) N). done. }
  assert (∀ N : ten, length N = k →
            foldl (λ (t : ten) i, <[i := (λ x, stored (f x)) <$> (N !!! i)]> t)
                  (numpy.zeros3 k n l) (seq 0 k) = values f <$> N) as Hfam'.
  { intros N HN. rewrite <- HN at 2. apply Hfam.
    destruct (zeros3_rect3 k n l). lia. }
  rewrite !Hfam' by done.
  assert (∀ N : ten, length N = k → (λ i, N !!! i) <$> seq 0 k = N) as Hall.
  { intros N <-. apply seq_lookup_total. }
  rewrite !Hall by done.
  assert ((λ i, m2 !!! i) <$> seq 0 n = m2) as ->.
  { rewrite <- Hm2. apply seq_lookup_total. }
  assert ([x0] ++ ((λ i, m1 !!! i) <$> seq 1 (n - 1)) = m1) as Hfirst.
  { transitivity ((λ i, m1 !!! i) <$> seq 0 (length m1)); [|apply seq_lookup_total].
    rewrite Hm1. destruct n; [lia|]. simpl. rewrite Nat.sub_0_r.
    by rewrite (list_lookup_total_correct _ _ _ Hx0). }
  rewrite app_assoc, Hfirst. done.
Qed.

(** ** Concrete campaigns *)

Lemma id_keeps_shape n k scaling : scaling = None → keeps_shape n k (scaling_or_id scaling).
Proof. intros -> a Ha. exact Ha. Qed.

Lemma demo_halton_length k i : length (demo_halton k i) = k.
Proof. unfold demo_halton. by rewrite length_fmap, length_seq. Qed.

Lemma resample_families_witness :
  let c := FromRaw demo_design None in
  let x := design demo_halton 2 2 c in
  let sc := scaling_or_id None in
  let m1 := sc (numpy.slice 0 2 x) in
  let m2 := second_half demo_shuffle c (sc (numpy.slice 2 (2 * 2) x)) in
  ∃ s w' nj nnj,
    Sample.init demo_halton demo_shuffle 2 2 None (discard_of c) (raw_of c) (loadArgs_of c)
      empty_world = inr (s, w') ∧
    deref2 w' (Sample.M_1 s) = Some m1 ∧ deref2 w' (Sample.M_2 s) = Some m2 ∧
    deref3 w' (Sample.N_j s) = Some nj ∧ deref3 w' (Sample.N_nj s) = Some nnj ∧
    length nj = 2 ∧ length nnj = 2 ∧
    ∀ j, j < 2 →
      nj !! j = Some (overwrite j m1 m2) ∧
      nnj !! j = Some (overwrite j m2 m1) ∧
      ∀ r c, r < 2 → c < 2 →
        entry (overwrite j m1 m2) r c = entry (if decide (c = j) then m1 else m2) r c ∧
        entry (overwrite j m2 m1) r c = entry (if decide (c = j) then m2 else m1) r c.
Proof.
  apply (resample_families demo_halton demo_shuffle 2 2 None
           (FromRaw demo_design None) empty_world).
  - lia.
  - lia.
  - exact I.
  - apply (bool_decide_unpack _). vm_compute. exact I.
  - by apply id_keeps_shape.
  - apply (bool_decide_unpack _). vm_compute. exact I.
Defined.

Lemma shuffle_only_on_raw_witness :
  let c := FromFiles [numpy.loadtxt demo_design] in
  let x := design demo_halton 2 2 c in
  let sc := scaling_or_id (Some (λ a, a)) in
  ∃ s w',
    Sample.init demo_halton demo_shuffle 2 2 (Some (λ a, a)) (discard_of c) (raw_of c)
      (loadArgs_of c) empty_world = inr (s, w') ∧
    deref2 w' (Sample.M_1 s) = Some (sc (numpy.slice 0 2 x)) ∧
    deref2 w' (Sample.M_2 s) =
      Some (match c with
            | FromRaw _ _ => keep (demo_shuffle 2) (sc (numpy.slice 2 (2 * 2) x))
            | _ => sc (numpy.slice 2 (2 * 2) x)
            end).
Proof.
  apply (shuffle_only_on_raw demo_halton demo_shuffle 2 2 (Some (λ a, a))
           (FromFiles [numpy.loadtxt demo_design]) empty_world).
  - lia.
  - lia.
  - eexists. reflexivity.
  - apply (bool_decide_unpack _). vm_compute. exact I.
  - intros a Ha. exact Ha.
  - apply (bool_decide_unpack _). vm_compute. exact I.
Defined.

Lemma estimator_burn_in_witness :
  ∃ s w',
    Varsens.init_sample demo_halton demo_shuffle (inl demo_objective)
      (Some (λ a, a)) (Some 2) (Some 2) None true empty_world
      = inr ((Some 2, Some 2, Some s), w') ∧
    gets w' = gets empty_world ++ [20 * 2 + 1; 2 * 2] ∧
    deref2 w' (Sample.M_1 s) = Some (demo_halton 2 <$> seq (20 * 2 + 1) 2) ∧
    deref2 w' (Sample.M_2 s) = Some (demo_halton 2 <$> seq (20 * 2 + 1 + 2) 2).
Proof.
  apply (estimator_burn_in demo_halton demo_shuffle (inl demo_objective) 2 2
           (λ a, a) empty_world).
  - lia.
  - lia.
  - apply demo_halton_length.
  - intros a Ha. exact Ha.
Defined.

Lemma shape_mismatch_errors_witness :
  Sample.init demo_halton demo_shuffle 2 1 None (PyInt 0) None
    (Some (numpy.loadtxt <$> three_rows)) empty_world =
    inl (Exception (loaded_message (3, 2) 1 2)) ∧
  (∃ msg, Sample.init demo_halton demo_shuffle 1 1 None (PyInt 0) None
            (Some (numpy.loadtxt <$> one_column)) empty_world = inl (ValueError msg)) ∧
  Sample.init demo_halton demo_shuffle 1 1 None (PyInt 0) None (Some []) empty_world =
    inl (ValueError "need at least one array to concatenate") ∧
  Sample.init demo_halton demo_shuffle 1 1 None (PyInt 0) (Some [[fz 1]]) None empty_world =
    inl (Exception raw_message).
Proof.
  split_and!.
  - destruct (shape_mismatch_errors demo_halton demo_shuffle 2 1 None (PyInt 0) empty_world)
      as (Hload & _ & _).
    apply (Hload (numpy.loadtxt <$> three_rows) (concat three_rows)).
    + vm_compute. reflexivity.
    + vm_compute. intros H. discriminate H.
    + vm_compute. intros H. discriminate H.
  - destruct (shape_mismatch_errors demo_halton demo_shuffle 1 1 None (PyInt 0) empty_world)
      as (_ & Hstack & _).
    eexists. apply (Hstack (numpy.loadtxt <$> one_column)). vm_compute. reflexivity.
  - destruct (shape_mismatch_errors demo_halton demo_shuffle 1 1 None (PyInt 0) empty_world)
      as (_ & Hstack & _).
    apply (Hstack []). reflexivity.
  - destruct (shape_mismatch_errors demo_halton demo_shuffle 1 1 None (PyInt 0) empty_world)
      as (_ & _ & Hraw).
    apply (Hraw [[fz 1]] None). vm_compute. intros H. discriminate H.
Defined.

Lemma fresh_evaluation_witness :
  let m1 := [[fz 1]; [fz 2]] in
  let m2 := [[fz 3]; [fz 4]] in
  let nj := [[[fz 1]; [fz 2]]] in
  let nnj := [[[fz 3]; [fz 4]]] in
  let xs := m1 ++ m2 ++ concat nj ++ concat nnj in
  Objective.init 1 2 (Some demo_sample) (Some double) (PyArray []) None demo_world =
    inr (Objective.mk 1 2 (values double m1) (values double m2)
                      (values double <$> nj) (values double <$> nnj),
         logged demo_world xs) ∧
  length xs = 2 * 2 * (1 + 1).
Proof.
  apply (fresh_evaluation 1 2 1 demo_sample double demo_world
           [[fz 1]; [fz 2]] [[fz 3]; [fz 4]] [[[fz 1]; [fz 2]]] [[[fz 3]; [fz 4]]]).
  - lia.
  - reflexivity.
  - reflexivity.
  - reflexivity.
  - reflexivity.
  - reflexivity.
  - reflexivity.
  - reflexivity.
  - apply (bool_decide_unpack _). vm_compute. exact I.
  - reflexivity.
  - apply (bool_decide_unpack _). vm_compute. exact I.
  - intros x. reflexivity.
Defined.

Lemma load_trims_nan_rows_witness :
  ∃ pre o,
    Objective.extract 1 3 pruned_vals (of_Z 1) = inr pre ∧ shaped pre 3 1 ∧
    Objective.load 1 3 pruned_vals (of_Z 1) = inr o ∧
    let surv := filter (λ i, has_nan pre i = false) (seq 0 3) in
    Objective.fM_1 o = keep surv (Objective.fM_1 pre) ∧
    Objective.fM_2 o = keep surv (Objective.fM_2 pre) ∧
    Objective.fN_j o = keep surv <$> Objective.fN_j pre ∧
    Objective.fN_nj o = keep surv <$> Objective.fN_nj pre ∧
    shaped o (length surv) 1.
Proof.
  apply (load_trims_nan_rows 1 3 pruned_vals (of_Z 1) 1).
  - apply (bool_decide_unpack _). vm_compute. exact I.
  - lia.
Defined.

(** Rows with a non-finite value survive: [load] keeps a row whose NaN
    is not in the first output component and a row with an infinite
    value, and a fresh evaluation deletes no row at all. *)
Lemma nonfinite_rows_survive :
  (∃ o, Objective.load 1 2 nonfinite_vals (of_Z 1) = inr o ∧
        Objective.fM_1 o = [[fz 1; NaN]; [fz 2; fz 3]] ∧
        Objective.fM_2 o = [[PInf; fz 4]; [fz 5; fz 6]] ∧
        length (Objective.fM_1 o) = 2) ∧
  (∃ o w', Objective.init 1 2 (Some demo_sample) (Some undefined) (PyArray []) None
             demo_world = inr (o, w') ∧
           Objective.fM_1 o = [[NaN]; [NaN]] ∧ Objective.fM_2 o = [[NaN]; [NaN]] ∧
           Objective.fN_j o = [[[NaN]; [NaN]]] ∧ Objective.fN_nj o = [[[NaN]; [NaN]]]).
Proof.
  split.
  - eexists. split; [vm_compute; reflexivity|]. repeat split; by_evaluation.
  - eexists _, _. split; [vm_compute; reflexivity|]. repeat split.
Qed.

(** The message for a mismatching raw array names no shape: for a raw
    array of shape [(1, 1)] where [(2, 1)] is expected it contains
    neither of them. *)
Lemma raw_message_names_no_shape :
  shape [[fz 1]] = (1, 1) ∧
  shape [[fz 1]] ≠ (2 * 1, 1) ∧ shape [[fz 1]] ≠ (2 * 1 * (1 + 1), 1) ∧
  Sample.init demo_halton demo_shuffle 1 1 None (PyInt 0) (Some [[fz 1]]) None empty_world =
    inl (Exception raw_message) ∧
  contains (str_shape (1, 1)) raw_message = false ∧
  contains (fmt_shape 2 1) raw_message = false ∧
  contains (str_shape (3, 1)) (loaded_message (3, 1) 1 1) = true.
Proof. repeat split; try by_evaluation; vm_compute; reflexivity. Qed.

(** Through the estimator an objective given as a function is rejected:
    [verbose] lands in the [objective_vals] parameter of [Objective],
    whose length is asked for. *)
Lemma estimator_rejects_functions halton shuffle1 f scaling_func k n sample verbose w self w' :
  Varsens.init_sample halton shuffle1 (inr f) scaling_func k n sample verbose w
    = inr (self, w') →
  Varsens.init halton shuffle1 (inr f) scaling_func k n sample verbose w =
    inl (TypeError "object of type 'bool' has no len()").
Proof.
  intros Hs. unfold Varsens.init. io_step Hs.
  destruct self as [[[k'|] [n'|]] smp]; try done.
  - unfold Varsens.init_sample in Hs.
    destruct sample, k, n, scaling_func; try done;
      unfold io_bind in Hs; destruct (Sample.init _ _ _ _ _ _ _ _ _) as [|[]]; done.
  - unfold Varsens.init_sample in Hs.
    destruct sample, k, n, scaling_func; try done;
      unfold io_bind in Hs; destruct (Sample.init _ _ _ _ _ _ _ _ _) as [|[]]; done.
  - unfold Varsens.init_sample in Hs.
    destruct sample, k, n, scaling_func; try done;
      unfold io_bind in Hs; destruct (Sample.init _ _ _ _ _ _ _ _ _) as [|[]]; done.
Qed.

(** ** Flattening a sample *)

Lemma map_result_ok {A B} (f : A → result B) (l : list A) (l' : list B) :
  Forall2 (λ x y, f x = inr y) l l' → map_result f l = inr l'.
Proof.
  induction 1 as [|x y l l' Hxy _ IH]; [done|].
  simpl. rewrite Hxy. simpl. by rewrite IH.
Qed.

Lemma broadcast_same {A} (v : list A) : broadcast (length v) v = inr v.
Proof. unfold broadcast. by rewrite decide_True. Qed.

Lemma set_rows_rect (x v : mat) a m :
  Forall (λ row : vec, length row = m) x →
  Forall (λ row : vec, length row = m) v →
  a + length v ≤ length x →
  set_rows x a (a + length v) v = inr (take a x ++ v ++ drop (a + length v) x).
Proof.
  intros Hx Hv Hlen. unfold set_rows.
  assert (length (numpy.slice a (a + length v) x) = length v) as Hl.
  { rewrite slice_length by lia. lia. }
  rewrite Hl, broadcast_same. simpl.
  rewrite (map_result_ok _ _ v); [done|].
  apply Forall2_same_length_lookup_2.
  { rewrite length_zip_with. lia. }
  intros i [t r] r' Hz Hr'. apply lookup_zip_with_Some in Hz as (t' & r'' & [= <- <-] & Ht & Hr).
  rewrite Hr in Hr'. injection Hr' as <-.
  assert (length t = m) as ->.
  { unfold numpy.slice in Ht. apply lookup_take_Some in Ht as [Ht _].
    rewrite lookup_drop in Ht. exact (Forall_lookup_1 _ _ _ _ Hx Ht). }
  rewrite <- (Forall_lookup_1 _ _ _ _ Hv Hr). apply broadcast_same.
Qed.

(** Writing the next block behind the rows written so far. *)
Lemma set_rows_next (p v : mat) r m :
  Forall (λ row : vec, length row = m) p →
  Forall (λ row : vec, length row = m) v →
  length v ≤ r →
  set_rows (p ++ numpy.zeros2 r m) (length p) (length p + length v) v =
    inr ((p ++ v) ++ numpy.zeros2 (r - length v) m).
Proof.
  intros Hp Hv Hr.
  assert (length (numpy.zeros2 r m) = r) as Hz
    by (unfold numpy.zeros2; by rewrite length_replicate).
  rewrite (set_rows_rect _ _ _ m); [| |done|rewrite length_app; lia].
  - rewrite take_app_length, drop_app_add'; [|done].
    unfold numpy.zeros2. rewrite drop_replicate. by rewrite <- !app_assoc.
  - apply Forall_app. split; [done|].
    unfold numpy.zeros2, numpy.zeros1. apply Forall_replicate.
    by rewrite length_replicate.
Qed.

Lemma concat_take_S {A} (l : list (list A)) i a :
  l !! i = Some a → concat (take (S i) l) = concat (take i l) ++ a.
Proof.
  intros Hi. rewrite (take_S_r _ _ _ Hi), concat_app. simpl. by rewrite app_nil_r.
Qed.

Lemma concat_rect (l : ten) d r m :
  rect3 d r m l → rect (d * r) m (concat l).
Proof.
  intros [<- Hl]. induction Hl as [|a l [Ha1 Ha2] _ IH]; [by split|].
  destruct IH as [IH1 IH2]. split; simpl.
  - rewrite length_app. lia.
  - by apply Forall_app.
Qed.

Lemma take_rect3 (l : ten) d r m i :
  rect3 d r m l → i ≤ d → rect3 i r m (take i l).
Proof.
  intros [Hd Hl] Hi. split; [rewrite length_take; lia|by apply Forall_take].
Qed.

Section flat.
Context (m : nat).

(** One of the two loops of [flat]: the blocks of [N] are written behind
    the rows [p] written before. *)
Lemma flat_loop (N : loc) (blocks : ten) (k n : nat) (p : mat) (r : nat) w :
  heap w !! N = Some (Arr3 blocks) → rect3 k n m blocks →
  Forall (λ row : vec, length row = m) p → k * n ≤ r →
  for_fold (seq 0 k) (p ++ numpy.zeros2 r m, length p) (λ '(x, curr_length) i,
      a <~ read3 N ;;
      a <~ lift (item a i) ;;
      x <~ lift (set_rows x curr_length (curr_length + length a) a) ;;
      io_ret (x, curr_length + length a)) w =
    inr (((p ++ concat blocks) ++ numpy.zeros2 (r - k * n) m,
          length p + k * n), w).
Proof.
  intros HN Hb Hp Hr.
  pose (I := λ (i : nat) (s : mat * nat) (w' : world),
          w' = w ∧
          s = ((p ++ concat (take i blocks)) ++ numpy.zeros2 (r - i * n) m,
               length p + i * n)).
  match goal with
  | |- for_fold _ ?s0 ?body _ = _ =>
      destruct (for_fold_seq body I 0 k s0 w) as (s' & w' & Hloop & -> & ->)
  end.
  - split; [done|]. simpl. by rewrite app_nil_r, Nat.sub_0_r, Nat.add_0_r.
  - intros i s w0 Hi [-> ->].
    destruct (lookup_lt_is_Some_2 blocks i) as [a Ha]; [destruct Hb; lia|].
    pose proof (rect3_lookup _ _ _ _ _ _ Hb Ha) as [Hla Hra].
    assert (i * n + n ≤ r) as Hle by nia.
    assert (length (p ++ concat (take i blocks)) = length p + i * n) as Hlen.
    { rewrite length_app.
      destruct (concat_rect (take i blocks) i n m) as [-> _]; [|done].
      apply (take_rect3 _ k); [done|lia]. }
    assert (Forall (λ row : vec, length row = m) (p ++ concat (take i blocks))) as Hrows.
    { apply Forall_app. split; [done|].
      apply (concat_rect (take i blocks) i n m), (take_rect3 _ k); [done|lia]. }
    erewrite io_bind_inr; [|by apply read3_ok].
    erewrite io_bind_inr; [|by apply lift_ok, item_ok].
    erewrite io_bind_inr.
    2:{ apply lift_ok. rewrite <- Hlen.
        apply (set_rows_next _ a (r - i * n) m); [done|done|lia]. }
    eexists _, _. split; [done|]. split; [done|].
    rewrite (concat_take_S _ _ _ Ha), app_assoc. f_equal; [|lia].
    f_equal. f_equal. lia.
  - rewrite Hloop. destruct Hb as [Hk _].
    by rewrite Nat.add_0_l, <- Hk, firstn_all, Hk.
Qed.
End flat.

Lemma width_rect3 (l : ten) d r m : rect3 d r m l → length l * numpy.width l = d * r.
Proof.
  intros [<- Hl]. destruct Hl as [|a l [Ha _] _]; [done|]. simpl. by rewrite Ha.
Qed.

Lemma flat_spec w s m1 m2 nj nnj :
  holds w s m1 m2 nj nnj →
  Sample.flat s w = inr (flattened m1 m2 nj nnj, w).
Proof.
  intros (H1 & H2 & H3 & H4 & R1 & R2 & R3 & R4).
  destruct s as [k n [M1|] [M2|] [Nj|] [Nnj|]]; try done.
  unfold deref2, deref3 in *. simpl in *.
  destruct (heap w !! M1) as [[a1|]|] eqn:E1; try done. injection H1 as ->.
  destruct (heap w !! M2) as [[a2|]|] eqn:E2; try done. injection H2 as ->.
  destruct (heap w !! Nj) as [[|a3]|] eqn:E3; try done. injection H3 as ->.
  destruct (heap w !! Nnj) as [[|a4]|] eqn:E4; try done. injection H4 as ->.
  unfold Sample.flat. cbn [Sample.M_1 Sample.M_2 Sample.N_j Sample.N_nj Sample.k].
  erewrite io_bind_inr; [|by apply lift_ok].
  erewrite io_bind_inr; [|by apply read2_ok].
  erewrite io_bind_inr; [|by apply lift_ok].
  erewrite io_bind_inr; [|by apply read2_ok].
  erewrite io_bind_inr; [|by apply lift_ok].
  erewrite io_bind_inr; [|by apply read3_ok].
  erewrite io_bind_inr; [|by apply lift_ok].
  erewrite io_bind_inr; [|by apply read3_ok].
  rewrite (width_rect3 nj k n k), (width_rect3 nnj k n k) by done.
  pose proof R1 as [L1 F1]. pose proof R2 as [L2 F2].
  erewrite io_bind_inr.
  2:{ apply lift_ok. apply (set_rows_next [] m1 _ k); [done|done|lia]. }
  erewrite io_bind_inr.
  2:{ apply lift_ok. apply (set_rows_next m1 m2 _ k); [done|done|lia]. }
  unfold range. rewrite Nat.sub_0_r.
  replace (length m1 + length m2) with (length (m1 ++ m2)) by (by rewrite length_app).
  cbn [app].
  erewrite io_bind_inr.
  2:{ apply (flat_loop k Nj nj k n); [done|done|by apply Forall_app|].
      rewrite length_app. lia. }
  replace (length (m1 ++ m2) + k * n) with (length ((m1 ++ m2) ++ concat nj)).
  2:{ rewrite (length_app (m1 ++ m2)). f_equal. by destruct (concat_rect nj k n k R3). }
  erewrite io_bind_inr.
  2:{ apply (flat_loop k Nnj nnj k n); [done|done| |].
      - apply Forall_app. split; [by apply Forall_app|].
        by destruct (concat_rect nj k n k R3).
      - destruct (concat_rect nj k n k R3) as [Lc _]. rewrite !length_app, Lc. lia. }
  unfold io_ret, flattened. do 2 f_equal.
  match goal with |- context [numpy.zeros2 ?r k] => replace r with 0 end.
  2:{ destruct (concat_rect nj k n k R3) as [Lc _]. rewrite !length_app, Lc. lia. }
  unfold numpy.zeros2. simpl. by rewrite app_nil_r, <- !app_assoc.
Qed.

Lemma flattened_rect m1 m2 nj nnj n k :
  rect n k m1 → rect n k m2 → rect3 k n k nj → rect3 k n k nnj →
  rect (2 * n * (1 + k)) k (flattened m1 m2 nj nnj).
Proof.
  intros [L1 F1] [L2 F2] R3 R4.
  destruct (concat_rect nj k n k R3) as [L3 F3].
  destruct (concat_rect nnj k n k R4) as [L4 F4].
  split.
  - unfold flattened. rewrite !length_app. lia.
  - unfold flattened. by repeat (apply Forall_app; split).
Qed.

(** X1.  [flat] returns the [2 n (1 + k)] rows of the sample in the
    order [M_1], [M_2], [N_j[0]], ..., [N_j[k-1]], [N_nj[0]], ...,
    [N_nj[k-1]], each of [k] entries, and changes nothing: no array of
    the sample is written to, no point is requested and no call made. *)
Theorem flat_lists_the_design w s m1 m2 nj nnj :
  holds w s m1 m2 nj nnj →
  Sample.flat s w = inr (m1 ++ m2 ++ concat nj ++ concat nnj, w) ∧
  rect (2 * Sample.n s * (1 + Sample.k s)) (Sample.k s)
       (m1 ++ m2 ++ concat nj ++ concat nnj).
Proof.
  intros H. split; [by apply flat_spec|].
  destruct H as (_ & _ & _ & _ & R1 & R2 & R3 & R4).
  by apply flattened_rect.
Qed.

(** ** Loading a flattened sample *)

Lemma slice_middle {A} (pre b post : list A) :
  numpy.slice (length pre) (length pre + length b) (pre ++ b ++ post) = b.
Proof.
  unfold numpy.slice. rewrite drop_app_length.
  replace (length pre + length b - length pre) with (length b) by lia.
  by rewrite take_app_length.
Qed.

(** The blocks that the loop of [load] cuts out of an array in which
    they follow one another. *)
Lemma extract_blocks_concat (g : mat → mat) k n m (pre post : mat) (blocks : ten) l :
  rect3 k n m blocks →
  extract_blocks g k n (pre ++ concat blocks ++ post) (numpy.zeros3 k n l) (length pre) =
    (g <$> blocks, length pre + k * n).
Proof.
  intros Hb. rewrite extract_blocks_eq. f_equal.
  apply list_eq. intros p. rewrite list_lookup_fmap.
  destruct (decide (p < k)) as [Hp|Hp].
  - rewrite foldl_insert_lookup
      by (unfold numpy.zeros3; rewrite length_replicate; lia).
    rewrite decide_True by done.
    destruct (lookup_lt_is_Some_2 blocks p) as [a Ha]; [destruct Hb; lia|].
    rewrite Ha. simpl. do 2 f_equal.
    pose proof (rect3_lookup _ _ _ _ _ _ Hb Ha) as [Hla _].
    rewrite <- (take_drop_middle _ _ _ Ha) at 1.
    rewrite concat_app. simpl. rewrite <- !app_assoc, (app_assoc pre).
    assert (length (pre ++ concat (take p blocks)) = length pre + p * n) as Hlen.
    { rewrite length_app.
      destruct (concat_rect (take p blocks) p n m) as [-> _]; [|done].
      apply (take_rect3 _ k); [done|lia]. }
    rewrite <- Hlen, <- Hla. apply slice_middle.
  - rewrite !lookup_ge_None_2; [done|destruct Hb; lia|].
    rewrite foldl_insert_length. unfold numpy.zeros3. rewrite length_replicate. lia.
Qed.

Lemma loaded_holds h k n m1 m2 nj nnj g c :
  rect n k m1 → rect n k m2 → rect3 k n k nj → rect3 k n k nnj →
  holds (World (loaded_heap h m1 m2 nj nnj) g c) (loaded_sample h k n) m1 m2 nj nnj.
Proof.
  intros R1 R2 R3 R4. unfold holds, loaded_sample, loaded_heap, deref2, deref3.
  cbn [Sample.M_1 Sample.M_2 Sample.N_j Sample.N_nj Sample.k Sample.n heap
       mbind option_bind].
  rewrite !lookup_app_r by lia.
  replace (length h - length h) with 0 by lia.
  replace (length h + 1 - length h) with 1 by lia.
  replace (length h + 2 - length h) with 2 by lia.
  replace (length h + 3 - length h) with 3 by lia.
  done.
Qed.

(** A block of rows that comes back from its file as it was written:
    it has two columns or more, or a single row. *)
Lemma atleast_2d_loadtxt (b : mat) m :
  b ≠ [] → Forall (λ row : vec, length row = m) b → 0 < m → 2 ≤ m ∨ length b = 1 →
  numpy.atleast_2d (numpy.loadtxt b) = b.
Proof.
  intros Hne Hrows Hm Hcase. destruct b as [|r rows]; [done|].
  apply Forall_cons in Hrows as [Hr Hrows].
  destruct rows as [|r' rows].
  - destruct r as [|v [|v' r]]; simpl in *; [lia|done..].
  - destruct Hcase as [Hm2|Hone]; [|simpl in Hone; lia].
    destruct r as [|v [|v' r]]; simpl in *; [lia|lia|done].
Qed.

(** A block of one column and several rows comes back as one row. *)
Lemma atleast_2d_loadtxt_column (b : mat) :
  2 ≤ length b → Forall (λ row : vec, length row = 1) b →
  numpy.atleast_2d (numpy.loadtxt b) = [concat b].
Proof.
  intros Hlen Hrows. destruct b as [|r [|r' rows]]; simpl in Hlen; [lia|lia|].
  apply Forall_cons in Hrows as [Hr _].
  by destruct r as [|v [|v' r]]; simpl in *.
Qed.

Lemma concat_singletons {A} (b : list (list A)) :
  Forall (λ row, length row = 1) b → length (concat b) = length b.
Proof.
  induction 1 as [|row b Hrow _ IH]; [done|].
  simpl. rewrite length_app, IH, Hrow. done.
Qed.

Lemma width_app {A} (a rest : list (list A)) :
  a ≠ [] → numpy.width (a ++ rest) = numpy.width a.
Proof. intros Ha. by destruct a. Qed.

(** Blocks of rows of one width, written to one file each, stack to the
    rows in their order. *)
Lemma vstack_blocks (blocks : list mat) m :
  blocks ≠ [] → Forall (λ b : mat, b ≠ []) blocks →
  Forall (λ b : mat, Forall (λ row : vec, length row = m) b) blocks →
  0 < m → 2 ≤ m ∨ Forall (λ b : mat, length b = 1) blocks →
  numpy.vstack (numpy.loadtxt <$> blocks) = inr (concat blocks).
Proof.
  intros Hblocks Hne Hrows Hm Hcase.
  assert (numpy.atleast_2d <$> (numpy.loadtxt <$> blocks) = blocks) as Hsame.
  { rewrite <- list_fmap_compose. rewrite <- (list_fmap_id blocks) at 2.
    apply Forall_fmap_ext. rewrite Forall_forall. intros b Hb. simpl.
    apply (atleast_2d_loadtxt b m); [| |done|].
    - by apply (proj1 (Forall_forall _ _) Hne).
    - by apply (proj1 (Forall_forall _ _) Hrows).
    - destruct Hcase as [?|Hone]; [by left|right].
      by apply (proj1 (Forall_forall _ _) Hone). }
  unfold numpy.vstack. rewrite Hsame.
  destruct blocks as [|a arrs]; [done|].
  rewrite decide_True; [done|].
  assert (∀ b : mat, b ≠ [] → Forall (λ row : vec, length row = m) b → numpy.width b = m)
    as Hwidth.
  { intros b Hb Hr. destruct b as [|row b]; [done|]. by apply Forall_cons in Hr as [? _]. }
  apply Forall_cons in Hne as [Ha Hne]. apply Forall_cons in Hrows as [Hra Hrows].
  rewrite (Hwidth a Ha Hra).
  apply Forall_forall. intros b Hb. apply Hwidth.
  - by apply (proj1 (Forall_forall _ _) Hne).
  - by apply (proj1 (Forall_forall _ _) Hrows).
Qed.

(** The arrays that stack all have the width of the stacked array. *)
Lemma vstack_width sample x a :
  numpy.vstack sample = inr x → a ∈ sample →
  numpy.width (numpy.atleast_2d a) = numpy.width x.
Proof.
  unfold numpy.vstack. destruct sample as [|a0 sample]; [done|].
  rewrite fmap_cons. case_decide as Hall; [|done]. intros [= <-] Hin.
  cbn [concat]. rewrite width_app by (by destruct a0).
  apply elem_of_cons in Hin as [->|Hin]; [done|].
  apply (proj1 (Forall_forall _ _) Hall). by apply list_elem_of_fmap_2.
Qed.

Section reload.
Context (halton : nat → nat → vec) (shuffle1 : nat → list nat).

(** With one parameter, a file of several rows makes the constructor
    raise: either the arrays read do not stack, or the stacked array
    has a width other than one. *)
Lemma load_one_column n scaling discard (blocks : list mat) w :
  Forall (λ b : mat, Forall (λ row : vec, length row = 1) b) blocks →
  Exists (λ b : mat, 2 ≤ length b) blocks →
  ∃ e, Sample.init halton shuffle1 1 n scaling discard None
                   (Some (numpy.loadtxt <$> blocks)) w = inl e.
Proof.
  intros Hrows Hbig.
  apply Exists_exists in Hbig as (b & Hb & Hlen).
  pose proof (proj1 (Forall_forall _ _) Hrows b Hb) as Hcol.
  destruct (numpy.vstack (numpy.loadtxt <$> blocks)) as [e|x] eqn:Hstack.
  - exists e. unfold Sample.init, Sample.load.
    apply io_bind_inl, io_bind_inl. by apply lift_err.
  - assert (numpy.width x = length b) as Hwidth.
    { rewrite <- (vstack_width _ _ (numpy.loadtxt b) Hstack)
        by (by apply list_elem_of_fmap_2).
      rewrite atleast_2d_loadtxt_column by done. simpl.
      by apply concat_singletons. }
    eexists. unfold Sample.init, Sample.load. cbn [Sample.k Sample.n].
    apply io_bind_inl. io_step (lift_ok _ _ w Hstack).
    rewrite decide_False by (unfold shape; rewrite Hwidth; intros [= _ H]; lia).
    rewrite decide_False by (unfold shape; rewrite Hwidth; intros [= _ H]; lia).
    done.
Qed.

(** With one parameter, a single file of several rows is rejected for
    its shape: it is stacked as one row. *)
Lemma load_column_file n scaling discard (x : mat) w :
  2 ≤ length x → Forall (λ row : vec, length row = 1) x →
  Sample.init halton shuffle1 1 n scaling discard None (Some [numpy.loadtxt x]) w =
    inl (Exception (loaded_message (1, length x) n 1)).
Proof.
  intros Hlen Hrows.
  assert (numpy.vstack [numpy.loadtxt x] = inr [concat x]) as Hstack.
  { unfold numpy.vstack. cbn [fmap list_fmap].
    rewrite atleast_2d_loadtxt_column by done.
    rewrite decide_True by constructor. done. }
  assert (shape [concat x] = (1, length x)) as Hshape.
  { unfold shape. cbn [length numpy.width]. by rewrite concat_singletons. }
  unfold Sample.init, Sample.load. cbn [Sample.k Sample.n].
  apply io_bind_inl. io_step (lift_ok _ _ w Hstack).
  rewrite Hshape.
  rewrite decide_False by (intros [= H _]; lia).
  rewrite decide_False by (intros [= H _]; lia).
  done.
Qed.

Lemma load_flattened k n scaling sample m1 m2 nj nnj w :
  0 < n → 0 < k →
  rect n k m1 → rect n k m2 → rect3 k n k nj → rect3 k n k nnj →
  numpy.vstack sample = inr (flattened m1 m2 nj nnj) →
  Sample.load (Sample.mk k n None None None None) scaling sample w =
    inr ((flattened m1 m2 nj nnj, loaded_sample (heap w) k n),
         World (loaded_heap (heap w) m1 m2 nj nnj) (gets w) (calls w)).
Proof.
  intros Hn Hk R1 R2 R3 R4 Hx.
  pose proof (flattened_rect _ _ _ _ _ _ R1 R2 R3 R4) as Rx.
  assert (shape (flattened m1 m2 nj nnj) = (2 * n * (1 + k), k)) as Hshape
    by (apply rect_shape; [done|nia]).
  unfold Sample.load. cbn [Sample.k Sample.n]. io_step (lift_ok _ _ w Hx).
  rewrite decide_False by (rewrite Hshape; intros [= H]; nia).
  rewrite decide_True by done.
  pose proof R1 as [L1 _]. pose proof R2 as [L2 _].
  assert (numpy.slice 0 n (flattened m1 m2 nj nnj) = m1) as ->.
  { unfold flattened. rewrite <- L1. apply (slice_middle []). }
  assert (numpy.slice n (2 * n) (flattened m1 m2 nj nnj) = m2) as ->.
  { unfold flattened. replace (2 * n) with (length m1 + length m2) by lia.
    rewrite <- L1 at 1. apply slice_middle. }
  assert (extract_blocks (λ a, a) k n (flattened m1 m2 nj nnj)
            (numpy.zeros3 k n k) (2 * n) = (nj, 2 * n + k * n)) as ->.
  { unfold flattened. rewrite (app_assoc m1).
    replace (2 * n) with (length (m1 ++ m2)) by (rewrite length_app; lia).
    rewrite (extract_blocks_concat _ k n k) by done. by rewrite list_fmap_id. }
  assert (extract_blocks (λ a, a) k n (flattened m1 m2 nj nnj)
            (numpy.zeros3 k n k) (2 * n + k * n) = (nnj, 2 * n + k * n + k * n)) as ->.
  { unfold flattened. rewrite (app_assoc m1), (app_assoc (m1 ++ m2)).
    destruct (concat_rect nj k n k R3) as [Lc _].
    replace (2 * n + k * n) with (length ((m1 ++ m2) ++ concat nj))
      by (rewrite !length_app; lia).
    rewrite <- (app_nil_r (concat nnj)).
    rewrite (extract_blocks_concat _ k n k) by done. by rewrite list_fmap_id. }
  unfold alloc, io_bind, io_ret, ret, loaded_sample, loaded_heap.
  cbn [heap gets calls]. rewrite !length_app. cbn [length].
  rewrite <- !app_assoc. cbn [app].
  replace (length (heap w) + 1 + 1 + 1) with (length (heap w) + 3) by lia.
  by replace (length (heap w) + 1 + 1) with (length (heap w) + 2) by lia.
Qed.

(** X2.  What [flat] returns can be written to files and loaded
    again, except for a sample of a single parameter.  Let the rows of
    the flattened sample be written to files block by block, each block
    having a row.  With two parameters or more, or with one row to each
    file, the constructor restores [M_1], [M_2], [N_j] and [N_nj] from
    what [numpy.loadtxt] reads, whatever [scaling] is; it applies no
    scaling and no shuffle, requests no point and calls nothing.  With
    one parameter and a file of several rows the constructor raises:
    that file is read as a 1-D array and stacked as one row. *)
Theorem flat_then_load_restores w s m1 m2 nj nnj :
  holds w s m1 m2 nj nnj → 0 < Sample.n s → 0 < Sample.k s →
  ∃ x, Sample.flat s w = inr (x, w) ∧
    ∀ blocks scaling discard w0,
      concat blocks = x → Forall (λ b : mat, b ≠ []) blocks →
      let sample := numpy.loadtxt <$> blocks in
      (2 ≤ Sample.k s ∨ Forall (λ b : mat, length b = 1) blocks →
       ∃ s' w',
         Sample.init halton shuffle1 (Sample.k s) (Sample.n s) scaling discard
                     None (Some sample) w0 = inr (s', w') ∧
         Sample.k s' = Sample.k s ∧ Sample.n s' = Sample.n s ∧
         holds w' s' m1 m2 nj nnj ∧
         gets w' = gets w0 ∧ calls w' = calls w0) ∧
      (Sample.k s = 1 → Exists (λ b : mat, 2 ≤ length b) blocks →
       ∃ e,
         Sample.init halton shuffle1 (Sample.k s) (Sample.n s) scaling discard
                     None (Some sample) w0 = inl e) ∧
      (Sample.k s = 1 → blocks = [x] →
       Sample.init halton shuffle1 (Sample.k s) (Sample.n s) scaling discard
                   None (Some sample) w0 =
         inl (Exception (loaded_message (1, 4 * Sample.n s) (Sample.n s) 1))).
Proof.
  intros H Hn Hk. exists (flattened m1 m2 nj nnj). split; [by apply flat_spec|].
  destruct H as (_ & _ & _ & _ & R1 & R2 & R3 & R4).
  pose proof (flattened_rect _ _ _ _ _ _ R1 R2 R3 R4) as Rx.
  intros blocks scaling discard w0 Hx Hne sample.
  assert (Forall (λ b : mat, Forall (λ row : vec, length row = Sample.k s) b) blocks)
    as Hrows.
  { destruct Rx as [_ Rx]. rewrite <- Hx in Rx. by apply Forall_concat. }
  assert (blocks ≠ []) as Hblocks.
  { intros ->. destruct Rx as [Rx _]. rewrite <- Hx in Rx. simpl in Rx. nia. }
  split_and!.
  - intros Hcase.
    assert (numpy.vstack sample = inr (flattened m1 m2 nj nnj)) as Hstack.
    { rewrite <- Hx. by apply (vstack_blocks _ (Sample.k s)). }
    exists (loaded_sample (heap w0) (Sample.k s) (Sample.n s)),
           (World (loaded_heap (heap w0) m1 m2 nj nnj) (gets w0) (calls w0)).
    split; [|split_and!; try done; apply loaded_holds; assumption].
    unfold Sample.init.
    erewrite io_bind_inr; [|by apply (load_flattened _ _ _ _ m1 m2 nj nnj)].
    cbv beta iota.
    rewrite decide_True; [done|].
    apply rect_shape; [done|nia].
  - intros Hk1 Hbig. rewrite Hk1 in Hrows.
    destruct (load_one_column (Sample.n s) scaling discard blocks w0)
      as [e He]; try done.
    exists e. by rewrite Hk1.
  - intros Hk1 Hb. unfold sample. rewrite Hb, Hk1 in *. cbn [fmap list_fmap].
    destruct Rx as [Rlen Rrows].
    replace (4 * Sample.n s) with (length (flattened m1 m2 nj nnj)) by lia.
    apply load_column_file; [lia|done].
Qed.
End reload.

(** ** The evaluation order is the order of [flat] *)

Local Open Scope Qc_scope.

Lemma fdiv_one v : fdiv v (of_Z 1) = v.
Proof.
  destruct v as [q| | |]; try done.
  unfold fdiv, of_Z. rewrite decide_False by done. f_equal.
  unfold Qcdiv. change (/ Qc_of_Z 1) with (1 : Qc). apply Qcmult_1_r.
Qed.

Local Close Scope Qc_scope.

Lemma div2s_one (a : mat) : numpy.div2s a (of_Z 1) = a.
Proof.
  unfold numpy.div2s, numpy.div1s.
  rewrite <- (list_fmap_id a) at 2. apply list_fmap_ext. intros _ r _.
  rewrite <- (list_fmap_id r) at 2. apply list_fmap_ext. intros _ v _.
  apply fdiv_one.
Qed.

Lemma values_rect f l n (a : mat) : uniform f l → length a = n → rect n l (values f a).
Proof.
  intros Hf Ha. split; [unfold values; by rewrite length_fmap|].
  unfold values. apply Forall_fmap, Forall_forall. intros x _. apply Hf.
Qed.

Lemma values_app f a b : values f (a ++ b) = values f a ++ values f b.
Proof. unfold values. apply fmap_app. Qed.

Lemma values_concat f (l : ten) : values f (concat l) = concat (values f <$> l).
Proof.
  induction l as [|a l IH]; [done|]. simpl. by rewrite values_app, IH.
Qed.

(** The tables [load] extracts from an array in which they follow one
    another. *)
Lemma extract_flattened k n m (t1 t2 : mat) (tj tnj : ten) :
  rect n m t1 → rect n m t2 → rect3 k n m tj → rect3 k n m tnj →
  Objective.extract k n (flattened t1 t2 tj tnj) (of_Z 1) =
    inr (Objective.mk k n t1 t2 tj tnj).
Proof.
  intros R1 R2 R3 R4.
  pose proof R1 as [L1 _]. pose proof R2 as [L2 _].
  destruct (concat_rect tj k n m R3) as [L3 _].
  destruct (concat_rect tnj k n m R4) as [L4 _].
  unfold Objective.extract.
  rewrite decide_True by (unfold flattened; rewrite !length_app; lia).
  assert (numpy.slice 0 n (flattened t1 t2 tj tnj) = t1) as ->.
  { unfold flattened. rewrite <- L1. apply (slice_middle []). }
  assert (numpy.slice n (2 * n) (flattened t1 t2 tj tnj) = t2) as ->.
  { unfold flattened. replace (2 * n) with (length t1 + length t2) by lia.
    rewrite <- L1 at 1. apply slice_middle. }
  set (l := numpy.width _).
  assert (extract_blocks (λ a, numpy.div2s a (of_Z 1)) k n (flattened t1 t2 tj tnj)
            (numpy.zeros3 k n l) (2 * n) = (tj, 2 * n + k * n)) as ->.
  { unfold flattened. rewrite (app_assoc t1).
    replace (2 * n) with (length (t1 ++ t2)) by (rewrite length_app; lia).
    rewrite (extract_blocks_concat _ k n m) by done. f_equal.
    rewrite <- (list_fmap_id tj) at 2. apply list_fmap_ext. intros _ a _.
    apply div2s_one. }
  assert (extract_blocks (λ a, numpy.div2s a (of_Z 1)) k n (flattened t1 t2 tj tnj)
            (numpy.zeros3 k n l) (2 * n + k * n) = (tnj, 2 * n + k * n + k * n)) as ->.
  { unfold flattened. rewrite (app_assoc t1), (app_assoc (t1 ++ t2)).
    replace (2 * n + k * n) with (length ((t1 ++ t2) ++ concat tj))
      by (rewrite !length_app; lia).
    rewrite <- (app_nil_r (concat tnj)).
    rewrite (extract_blocks_concat _ k n m) by done. f_equal.
    rewrite <- (list_fmap_id tnj) at 2. apply list_fmap_ext. intros _ a _.
    apply div2s_one. }
  by rewrite !div2s_one.
Qed.

Lemma fresh_tables k n l s f w m1 m2 nj nnj :
  0 < n →
  deref2 w (Sample.M_1 s) = Some m1 → deref2 w (Sample.M_2 s) = Some m2 →
  deref3 w (Sample.N_j s) = Some nj → deref3 w (Sample.N_nj s) = Some nnj →
  length m1 = n → length m2 = n →
  length nj = k → Forall (λ a : mat, length a = n) nj →
  length nnj = k → Forall (λ a : mat, length a = n) nnj →
  uniform f l →
  Objective.init k n (Some s) (Some f) (PyArray []) None w =
    inr (Objective.mk k n (values f m1) (values f m2)
                      (values f <$> nj) (values f <$> nnj),
         logged w (m1 ++ m2 ++ concat nj ++ concat nnj)).
Proof.
  intros Hn HM1 HM2 HNj HNnj Hm1 Hm2 Hk Hnj Hk' Hnnj Hf.
  pose (g := λ x, stored (f x)).
  destruct s as [sk sn [M1|] [M2|] [Nj|] [Nnj|]]; try done.
  unfold deref2, deref3 in *. simpl in HM1, HM2, HNj, HNnj.
  destruct (heap w !! M1) as [[a1|]|] eqn:E1; try done. injection HM1 as ->.
  destruct (heap w !! M2) as [[a2|]|] eqn:E2; try done. injection HM2 as ->.
  destruct (heap w !! Nj) as [[|a3]|] eqn:E3; try done. injection HNj as ->.
  destruct (heap w !! Nnj) as [[|a4]|] eqn:E4; try done. injection HNnj as ->.
  destruct (lookup_lt_is_Some_2 m1 0) as [x0 Hx0]; [lia|].
  unfold Objective.init. cbn [len Sample.M_1 Sample.M_2 Sample.N_j Sample.N_nj].
  erewrite io_bind_inr; [|by apply lift_ok].
  destruct (decide (0 < length (@nil vec))) as [Hlt|_]; [simpl in Hlt; lia|].
  erewrite io_bind_inr; [|by apply lift_ok].
  erewrite io_bind_inr; [|by apply read2_ok].
  erewrite io_bind_inr; [|by apply lift_ok, item_ok].
  unfold Objective.call at 1. unfold io_bind at 1. cbn [ret].
  assert (match f x0 with Scalar _ => 1 | Vector v => length v end = l) as ->.
  { rewrite <- (Hf x0). by destruct (f x0). }
  fold (logged w [x0]).
  erewrite io_bind_inr;
    [|apply lift_ok, (assign_row_stored _ _ _ n l); [apply zeros2_rect|lia|apply Hf]].
  unfold Objective.evaluate2, range.
  erewrite io_bind_inr.
  2:{ apply (evaluate2_spec f l Hf M1 m1 n 1 (n - 1)); [done|done| |lia].
      apply insert_rect; [apply zeros2_rect|apply Hf]. }
  rewrite Nat.sub_0_r.
  erewrite io_bind_inr.
  2:{ apply (evaluate2_spec f l Hf M2 m2 n 0 n); [done|done|apply zeros2_rect|lia]. }
  unfold Objective.evaluate3, range. rewrite !Nat.sub_0_r.
  erewrite io_bind_inr.
  2:{ apply (evaluate3_outer f l Hf Nj nj k n 0 k); [done..|apply zeros3_rect3|lia]. }
  erewrite io_bind_inr.
  2:{ apply (evaluate3_outer f l Hf Nnj nnj k n 0 k); [done..|apply zeros3_rect3|lia]. }
  unfold io_ret. rewrite !logged_logged.
  assert (foldl (λ t i, <[i := stored (f (m1 !!! i))]> t)
            (<[0 := stored (f x0)]> (numpy.zeros2 n l)) (seq 1 (n - 1)) = values f m1) as ->.
  { rewrite <- (list_lookup_total_correct _ _ _ Hx0).
    change (foldl (λ t i, <[i := stored (f (m1 !!! i))]> t) (numpy.zeros2 n l)
              (0 :: seq 1 (n - 1)) = g <$> m1).
    replace (0 :: seq 1 (n - 1)) with (seq 0 (length m1))
      by (rewrite Hm1; destruct n; [lia|]; simpl; by rewrite Nat.sub_0_r).
    apply (foldl_insert_all g m1). destruct (zeros2_rect n l). lia. }
  assert (foldl (λ t i, <[i := stored (f (m2 !!! i))]> t) (numpy.zeros2 n l) (seq 0 n)
          = values f m2) as ->.
  { rewrite <- Hm2. apply (foldl_insert_all g m2). destruct (zeros2_rect (length m2) l). lia. }
  assert (∀ (t : ten) (N : ten), length t = length N →
            foldl (λ t i, <[i := (λ x, stored (f x)) <$> (N !!! i)]> t) t (seq 0 (length N))
            = values f <$> N) as Hfam.
  { intros t N Ht. apply (foldl_insert_all (values f) N). done. }
  assert (∀ N : ten, length N = k →
            foldl (λ (t : ten) i, <[i := (λ x, stored (f x)) <$> (N !!! i)]> t)
                  (numpy.zeros3 k n l) (seq 0 k) = values f <$> N) as Hfam'.
  { intros N HN. rewrite <- HN at 2. apply Hfam.
    destruct (zeros3_rect3 k n l). lia. }
  rewrite !Hfam' by done.
  assert (∀ N : ten, length N = k → (λ i, N !!! i) <$> seq 0 k = N) as Hall.
  { intros N <-. apply seq_lookup_total. }
  rewrite !Hall by done.
  assert ((λ i, m2 !!! i) <$> seq 0 n = m2) as ->.
  { rewrite <- Hm2. apply seq_lookup_total. }
  assert ([x0] ++ ((λ i, m1 !!! i) <$> seq 1 (n - 1)) = m1) as Hfirst.
  { transitivity ((λ i, m1 !!! i) <$> seq 0 (length m1)); [|apply seq_lookup_total].
    rewrite Hm1. destruct n; [lia|]. simpl. rewrite Nat.sub_0_r.
    by rewrite (list_lookup_total_correct _ _ _ Hx0). }
  rewrite app_assoc, Hfirst. done.
Qed.

Lemma values_rect3 f l d n (N : ten) :
  uniform f l → length N = d → Forall (λ a : mat, length a = n) N →
  rect3 d n l (values f <$> N).
Proof.
  intros Hf Hd HN. split; [by rewrite length_fmap|].
  apply Forall_fmap. eapply Forall_impl; [exact HN|].
  intros a Ha. simpl. by apply (values_rect f l n).
Qed.

(** X3.  A fresh evaluation calls the objective function on the rows of
    [sample.flat()], in their order, and the tables it fills are the ones
    [load] extracts from the values of the function over those rows (with
    the scaling 1, before any row is trimmed). *)
Theorem evaluation_follows_flat k n l s f w m1 m2 nj nnj :
  holds w s m1 m2 nj nnj → Sample.k s = k → Sample.n s = n → 0 < n →
  uniform f l →
  ∃ x o w',
    Sample.flat s w = inr (x, w) ∧
    Objective.init k n (Some s) (Some f) (PyArray []) None w = inr (o, w') ∧
    calls w' = calls w ++ x ∧ heap w' = heap w ∧
    Objective.extract k n (values f x) (of_Z 1) = inr o.
Proof.
  intros H <- <- Hn Hf.
  pose proof (flat_spec _ _ _ _ _ _ H) as Hflat.
  destruct H as (H1 & H2 & H3 & H4 & R1 & R2 & R3 & R4).
  pose proof R1 as [L1 _]. pose proof R2 as [L2 _].
  pose proof R3 as [L3 F3]. pose proof R4 as [L4 F4].
  assert (Forall (λ a : mat, length a = Sample.n s) nj) as F3'
    by (eapply Forall_impl; [exact F3|]; by intros a [? _]).
  assert (Forall (λ a : mat, length a = Sample.n s) nnj) as F4'
    by (eapply Forall_impl; [exact F4|]; by intros a [? _]).
  eexists _, _, _. split; [exact Hflat|]. split.
  { by apply (fresh_tables _ _ l _ _ _ m1 m2 nj nnj). }
  split; [done|]. split; [done|].
  unfold flattened. rewrite !values_app, !values_concat.
  apply (extract_flattened _ _ l).
  - by apply (values_rect f l).
  - by apply (values_rect f l).
  - by apply values_rect3.
  - by apply values_rect3.
Qed.

(** ** What constructing a sample leaves alone *)

Section frame.
Context (halton : nat → nat → vec) (shuffle1 : nat → list nat).

(** X4.  Constructing a sample calls no objective function, and asks
    the sequence source for points only when the sample is generated
    afresh.  A sample that is loaded from files or generated afresh is
    built from an array of its own, and every array that existed
    stays as it was.  (A raw array is the caller's: where [scaling]
    returns its argument, the shuffle of [M_2] writes to it.) *)
Theorem construction_touches_nothing_else k n scaling c w :
  let x := design halton k n c in
  let sc := scaling_or_id scaling in
  0 < n → 0 < k → admissible c scaling →
  rect (2 * n) k x → keeps_shape n k sc → shuffle1 n ≡ₚ seq 0 n →
  ∃ s w',
    Sample.init halton shuffle1 k n scaling (discard_of c) (raw_of c) (loadArgs_of c) w
      = inr (s, w') ∧
    calls w' = calls w ∧
    gets w' = gets w ++ requests k n c ∧
    ((∀ d, c ≠ Fresh d) → gets w' = gets w) ∧
    ((∀ x loadArgs, c ≠ FromRaw x loadArgs) →
     ∀ l a, heap w !! l = Some a → heap w' !! l = Some a).
Proof.
  intros x sc Hn Hk Hadm Hx Hsc Hperm.
  destruct (halves_rect halton shuffle1 k n scaling c Hx Hsc Hperm) as [Hm1 Hm2].
  fold x sc in Hm1, Hm2.
  eexists _, _.
  split; [exact (init_spec halton shuffle1 k n scaling c w Hn Hk Hadm Hx Hm1 Hm2)|].
  cbn [heap gets calls]. split_and!; try done.
  - intros Hd. destruct c; cbn [requests]; try by rewrite app_nil_r.
    by destruct (Hd discard).
  - intros _ l a Hl. unfold derived_heap. by apply lookup_app_l_Some.
Qed.
End frame.

(** ** Continuing a sample *)

Section continue.
Context (halton : nat → nat → vec) (shuffle1 : nat → list nat).

(** X22.  [discard] continues the sequence: a fresh sample built with
    [discard = d] takes the [2 n] points that follow the first
    [20 k + d], and a second one built with [discard = d + 2 n] takes
    the [2 n] points after those, so that the two unscaled designs are
    [4 n] consecutive points of the sequence. *)
Theorem discard_continues_the_sequence k n f d w1 w2 :
  0 < n → 0 < k → (∀ i, length (halton k i) = k) → keeps_shape n k f →
  let point := λ i, halton k (20 * k + d + i) in
  ∃ s1 w1' s2 w2',
    Sample.init halton shuffle1 k n (Some f) (PyInt d) None None w1 = inr (s1, w1') ∧
    Sample.init halton shuffle1 k n (Some f) (PyInt (d + 2 * n)) None None w2
      = inr (s2, w2') ∧
    deref2 w1' (Sample.M_1 s1) = Some (f (point <$> seq 0 n)) ∧
    deref2 w1' (Sample.M_2 s1) = Some (f (point <$> seq n n)) ∧
    deref2 w2' (Sample.M_1 s2) = Some (f (point <$> seq (2 * n) n)) ∧
    deref2 w2' (Sample.M_2 s2) = Some (f (point <$> seq (3 * n) n)).
Proof.
  intros Hn Hk Hh Hf point.
  destruct (fresh_sample halton shuffle1 k n f (PyInt d) w1 Hn Hk)
    as (s1 & w1' & Hi1 & _ & H11 & H12); [done..|].
  destruct (fresh_sample halton shuffle1 k n f (PyInt (d + 2 * n)) w2 Hn Hk)
    as (s2 & w2' & Hi2 & _ & H21 & H22); [done..|].
  assert (∀ a b, halton k <$> seq (20 * k + d + a) b = point <$> seq a b) as Hpts.
  { intros a b. unfold point. rewrite <- (fmap_add_seq (20 * k + d)).
    by rewrite <- list_fmap_compose. }
  exists s1, w1', s2, w2'. split; [done|]. split; [done|].
  unfold burn_in in *. split_and!.
  - rewrite H11, <- Hpts. by rewrite Nat.add_0_r.
  - by rewrite H12, <- Hpts.
  - rewrite H21, <- Hpts. by rewrite Nat.add_assoc.
  - rewrite H22, <- Hpts.
    by replace (20 * k + (d + 2 * n) + n) with (20 * k + d + 3 * n) by lia.
Qed.
End continue.

(** ** Trimming *)

Lemma trim_spec o n m :
  shaped o n m → 0 < m →
  Objective.trim o = inr (kept (survivors o n) o).
Proof.
  intros Hshape Hm.
  destruct (locate_nans_spec o n m Hshape Hm) as (mask & Hmask & Hlen & Hlook).
  unfold Objective.trim. rewrite Hmask. simpl.
  assert (Objective.nan_rows mask = filter (λ i, has_nan o i = true) (seq 0 n)) as ->.
  { unfold Objective.nan_rows. rewrite Hlen. apply filter_iff_in.
    intros i Hi. apply elem_of_seq in Hi.
    assert (i < n) as Hi' by lia.
    by rewrite (list_lookup_total_correct mask i _ (Hlook i Hi')). }
  destruct Hshape as (H1 & H2 & H3 & H4). unfold kept, survivors. f_equal. f_equal.
  - apply delete_keep, H1.
  - apply delete_keep, H2.
  - apply list_fmap_ext. intros i a Ha. apply delete_keep.
    apply (rect3_lookup _ _ _ _ _ _ H3 Ha).
  - apply list_fmap_ext. intros i a Ha. apply delete_keep.
    apply (rect3_lookup _ _ _ _ _ _ H4 Ha).
Qed.

Lemma survivors_lt o n : Forall (λ i, i < n) (survivors o n).
Proof.
  apply Forall_forall. intros i Hi. apply list_elem_of_filter in Hi as [_ Hi].
  apply elem_of_seq in Hi. lia.
Qed.

Lemma survivors_length o n : length (survivors o n) ≤ n.
Proof.
  unfold survivors. etrans; [apply length_filter|]. by rewrite length_seq.
Qed.

Lemma kept_shaped surv o n m :
  shaped o n m → Forall (λ i, i < n) surv → shaped (kept surv o) (length surv) m.
Proof.
  intros (H1 & H2 & H3 & H4) Hs. unfold kept. split_and!; simpl.
  - by apply (keep_rect _ n).
  - by apply (keep_rect _ n).
  - by apply (keep_rect3 _ _ n).
  - by apply (keep_rect3 _ _ n).
Qed.

Lemma nan_at_keep surv (a : mat) j i :
  surv !! j = Some i → i < length a → nan_at (keep surv a) j = nan_at a i.
Proof.
  intros Hj Hi. unfold nan_at, keep. rewrite list_lookup_fmap, Hj. simpl.
  destruct (lookup_lt_is_Some_2 a i Hi) as [row Hrow].
  by rewrite (list_lookup_total_correct _ _ _ Hrow), Hrow.
Qed.

Lemma existsb_nan_at_keep surv (N : ten) n m d j i :
  rect3 d n m N → surv !! j = Some i → i < n →
  existsb (λ a, nan_at a j) (keep surv <$> N) = existsb (λ a, nan_at a i) N.
Proof.
  intros [_ HN] Hj Hi. induction HN as [|a N [Ha _] _ IH]; [done|].
  rewrite fmap_cons. cbn [existsb]. rewrite IH. f_equal. apply nan_at_keep; [done|lia].
Qed.

Lemma has_nan_kept surv o n m j i :
  shaped o n m → surv !! j = Some i → i < n →
  has_nan (kept surv o) j = has_nan o i.
Proof.
  intros ([L1 _] & [L2 _] & H3 & H4) Hj Hi. unfold has_nan, kept. simpl.
  rewrite !(nan_at_keep surv _ j i) by (done || lia).
  by rewrite (existsb_nan_at_keep surv _ n m _ j i H3),
             (existsb_nan_at_keep surv _ n m _ j i H4).
Qed.

(** After trimming no row has a NaN in its first component. *)
Lemma kept_survivors_clean o n m j :
  shaped o n m → j < length (survivors o n) →
  has_nan (kept (survivors o n) o) j = false.
Proof.
  intros Ho Hj.
  destruct (lookup_lt_is_Some_2 _ _ Hj) as [i Hi].
  pose proof (list_elem_of_lookup_2 _ _ _ Hi) as Hin.
  apply list_elem_of_filter in Hin as [Hclean Hin]. apply elem_of_seq in Hin.
  rewrite (has_nan_kept _ o n m j i); [done..|lia].
Qed.

Lemma keep_all {A} `{!Inhabited A} (a : list A) : keep (seq 0 (length a)) a = a.
Proof. apply seq_lookup_total. Qed.

Lemma kept_all o n m : shaped o n m → kept (seq 0 n) o = o.
Proof.
  intros ([L1 _] & [L2 _] & [_ H3] & [_ H4]). unfold kept. destruct o as [k n0 a b c d].
  simpl in *. f_equal.
  - rewrite <- L1. apply keep_all.
  - rewrite <- L2. apply keep_all.
  - rewrite <- (list_fmap_id c) at 2. apply list_fmap_ext. intros i x Hx.
    destruct (Forall_lookup_1 _ _ _ _ H3 Hx) as [<- _]. apply keep_all.
  - rewrite <- (list_fmap_id d) at 2. apply list_fmap_ext. intros i x Hx.
    destruct (Forall_lookup_1 _ _ _ _ H4 Hx) as [<- _]. apply keep_all.
Qed.

Lemma filter_all {A} (P : A → Prop) `{!∀ x, Decision (P x)} (l : list A) :
  Forall P l → filter P l = l.
Proof.
  induction 1 as [|x l Hx _ IH]; [done|]. by rewrite filter_cons_True, IH.
Qed.

(** An evaluation set without a NaN in a first component is left as it
    is. *)
Lemma trim_clean o n m :
  shaped o n m → 0 < m → (∀ i, i < n → has_nan o i = false) →
  Objective.trim o = inr o.
Proof.
  intros Ho Hm Hclean. rewrite (trim_spec o n m) by done.
  assert (survivors o n = seq 0 n) as ->; [|by rewrite (kept_all o n m)].
  unfold survivors. apply filter_all, Forall_forall.
  intros i Hi. apply elem_of_seq in Hi. apply Hclean. lia.
Qed.

Lemma load_spec k n x s m :
  rect (2 * n * (1 + k)) m x → 0 < m →
  ∃ pre, Objective.extract k n x s = inr pre ∧ shaped pre n m ∧
         Objective.k pre = k ∧ Objective.n pre = n ∧
         Objective.load k n x s = inr (kept (survivors pre n) pre).
Proof.
  intros Hx Hm.
  destruct (extract_shaped k n x s m Hx) as (pre & Hpre & Hshape & Hk & Hn).
  exists pre. split_and!; try done.
  unfold Objective.load. rewrite Hpre. simpl. by apply (trim_spec pre n m).
Qed.

(** ** Flattening an evaluation set *)

Lemma fold_result_seq {S} (body : S → nat → result S) (I : nat → S → Prop)
    (a k : nat) (s : S) :
  I a s →
  (∀ i s, a ≤ i < a + k → I i s → ∃ s', body s i = inr s' ∧ I (Datatypes.S i) s') →
  ∃ s', fold_result (seq a k) s body = inr s' ∧ I (a + k) s'.
Proof.
  revert a s. induction k as [|k IH]; intros a s Ha Hstep.
  - exists s. rewrite Nat.add_0_r. done.
  - destruct (Hstep a s ltac:(lia) Ha) as (s1 & Hbody & H1).
    destruct (IH (Datatypes.S a) s1 H1) as (s' & Hrest & H').
    { intros i s2 Hi. apply Hstep. lia. }
    exists s'. simpl. rewrite Hbody. simpl.
    split; [done|]. by replace (a + Datatypes.S k) with (Datatypes.S a + k) by lia.
Qed.

Lemma objective_flat_loop m (blocks : ten) (k n : nat) (p : mat) (r : nat) :
  rect3 k n m blocks →
  Forall (λ row : vec, length row = m) p → k * n ≤ r →
  fold_result (seq 0 k) (p ++ numpy.zeros2 r m, length p) (λ '(x, curr_length) i,
      a <- item blocks i ;;
      x <- set_rows x curr_length (curr_length + length a) a ;;
      ret (x, curr_length + length a)) =
    inr ((p ++ concat blocks) ++ numpy.zeros2 (r - k * n) m, length p + k * n).
Proof.
  intros Hb Hp Hr.
  pose (I := λ (i : nat) (s : mat * nat),
          s = ((p ++ concat (take i blocks)) ++ numpy.zeros2 (r - i * n) m,
               length p + i * n)).
  match goal with
  | |- fold_result _ ?s0 ?body = _ =>
      destruct (fold_result_seq body I 0 k s0) as (s' & Hloop & ->)
  end.
  - unfold I. simpl. by rewrite app_nil_r, Nat.sub_0_r, Nat.add_0_r.
  - intros i s Hi ->.
    destruct (lookup_lt_is_Some_2 blocks i) as [a Ha]; [destruct Hb; lia|].
    pose proof (rect3_lookup _ _ _ _ _ _ Hb Ha) as [Hla Hra].
    assert (i * n + n ≤ r) as Hle by nia.
    assert (length (p ++ concat (take i blocks)) = length p + i * n) as Hlen.
    { rewrite length_app.
      destruct (concat_rect (take i blocks) i n m) as [-> _]; [|done].
      apply (take_rect3 _ k); [done|lia]. }
    assert (Forall (λ row : vec, length row = m) (p ++ concat (take i blocks))) as Hrows.
    { apply Forall_app. split; [done|].
      apply (concat_rect (take i blocks) i n m), (take_rect3 _ k); [done|lia]. }
    rewrite (item_ok _ _ _ Ha). simpl. rewrite <- Hlen.
    rewrite (set_rows_next _ a (r - i * n) m) by (done || lia). simpl.
    eexists. split; [done|]. unfold I.
    rewrite (concat_take_S _ _ _ Ha), app_assoc. f_equal; [|lia].
    f_equal. f_equal. lia.
  - rewrite Hloop. destruct Hb as [Hk _].
    by rewrite Nat.add_0_l, <- Hk, firstn_all, Hk.
Qed.

(** The tables of an evaluation set of which every row was trimmed have
    no rows, whatever the width they had. *)
Lemma shaped_width o n m :
  shaped o n m → shaped o n (numpy.width (Objective.fM_1 o)).
Proof.
  intros Ho. destruct (decide (0 < n)) as [Hn|Hn].
  - destruct Ho as (H1 & ?). by rewrite (rect_width n m).
  - assert (n = 0) as -> by lia.
    assert (∀ (a : mat) c, rect 0 c a → ∀ c', rect 0 c' a) as Hempty.
    { intros a c [Hl _] c'. destruct a; [by split|done]. }
    destruct Ho as (H1 & H2 & [L3 H3] & [L4 H4]). split_and!.
    + by eapply Hempty.
    + by eapply Hempty.
    + split; [done|]. eapply Forall_impl; [exact H3|]. intros a Ha. by eapply Hempty.
    + split; [done|]. eapply Forall_impl; [exact H4|]. intros a Ha. by eapply Hempty.
Qed.

Lemma objective_flat_spec o n m :
  shaped o n m →
  Objective.flat o =
    inr (flattened (Objective.fM_1 o) (Objective.fM_2 o)
                   (Objective.fN_j o) (Objective.fN_nj o)).
Proof.
  intros Ho. apply shaped_width in Ho. clear m.
  set (m := numpy.width (Objective.fM_1 o)) in *.
  destruct Ho as (R1 & R2 & R3 & R4).
  pose proof R1 as [L1 F1]. pose proof R2 as [L2 F2].
  destruct (concat_rect _ _ _ _ R3) as [Lc Fc].
  unfold Objective.flat. fold m.
  rewrite (width_rect3 _ _ n m R3), (width_rect3 _ _ n m R4).
  set (k := Objective.k o) in *.
  set (m1 := Objective.fM_1 o) in *. set (m2 := Objective.fM_2 o) in *.
  set (nj := Objective.fN_j o) in *. set (nnj := Objective.fN_nj o) in *.
  pose proof (set_rows_next [] m1 (length m1 + length m2 + k * n + k * n) m) as E1.
  cbn [app length Nat.add] in E1. rewrite E1 by (done || lia). clear E1.
  cbn [bind].
  rewrite (set_rows_next m1 m2 _ m) by (done || lia). cbn [bind].
  unfold range. rewrite Nat.sub_0_r.
  replace (length m1 + length m2) with (length (m1 ++ m2)) by (by rewrite length_app).
  rewrite (objective_flat_loop m nj k n); [|done|by apply Forall_app|rewrite length_app; lia].
  simpl.
  replace (length (m1 ++ m2) + k * n) with (length ((m1 ++ m2) ++ concat nj))
    by (rewrite (length_app (m1 ++ m2)); lia).
  rewrite (objective_flat_loop m nnj k n); [|done| |rewrite !length_app; lia].
  2:{ apply Forall_app. split; [by apply Forall_app|done]. }
  simpl. unfold flattened, ret. f_equal.
  match goal with |- context [numpy.zeros2 ?r m] => replace r with 0 end.
  2:{ rewrite !length_app. lia. }
  unfold numpy.zeros2. simpl. by rewrite app_nil_r, <- !app_assoc.
Qed.

Lemma shaped_flattened_rect o n m :
  shaped o n m →
  rect (2 * n * (1 + Objective.k o)) m
       (flattened (Objective.fM_1 o) (Objective.fM_2 o)
                  (Objective.fN_j o) (Objective.fN_nj o)).
Proof.
  intros ([L1 F1] & [L2 F2] & R3 & R4).
  destruct (concat_rect _ _ _ _ R3) as [L3 F3].
  destruct (concat_rect _ _ _ _ R4) as [L4 F4].
  split.
  - unfold flattened. rewrite !length_app. lia.
  - unfold flattened. by repeat (apply Forall_app; split).
Qed.


(** X6.  After [load] no row of any table has a NaN in its first
    component, and trimming once more deletes nothing. *)
Theorem load_leaves_no_nan k n x s m :
  rect (2 * n * (1 + k)) m x → 0 < m →
  ∃ o n', Objective.load k n x s = inr o ∧ shaped o n' m ∧ n' ≤ n ∧
    (∀ i, i < n' → has_nan o i = false) ∧
    Objective.trim o = inr o.
Proof.
  intros Hx Hm.
  destruct (load_spec k n x s m Hx Hm) as (pre & _ & Hshape & _ & _ & Hload).
  pose proof (kept_shaped _ _ _ _ Hshape (survivors_lt pre n)) as Ho.
  exists (kept (survivors pre n) pre), (length (survivors pre n)).
  split_and!; [done|done|apply survivors_length| |].
  - intros i Hi. by apply (kept_survivors_clean pre n m).
  - apply (trim_clean _ (length (survivors pre n)) m); [done..|].
    intros i Hi. by apply (kept_survivors_clean pre n m).
Qed.



(** ** Estimates that are not numbers *)

Lemma fdiv_zero_not_finite x : isfinite (fdiv x (of_Z 0)) = false.
Proof.
  destruct x as [a| | |]; unfold fdiv, of_Z, inf_signed; repeat case_decide; try done.
  exfalso. match goal with H : _ ≠ _ |- _ => apply H end. by apply Qc_is_canon.
Qed.

Lemma fadd_not_finite_l a b : isfinite a = false → isfinite (fadd a b) = false.
Proof. by destruct a, b. Qed.

Lemma fadd_not_finite_r a b : isfinite b = false → isfinite (fadd a b) = false.
Proof. by destruct a, b. Qed.

Lemma fneg_not_finite a : isfinite a = false → isfinite (fneg a) = false.
Proof. by destruct a. Qed.

Lemma fsub_not_finite_l a b : isfinite a = false → isfinite (fsub a b) = false.
Proof. apply fadd_not_finite_l. Qed.

Lemma fsub_not_finite_r a b : isfinite b = false → isfinite (fsub a b) = false.
Proof. intros H. apply fadd_not_finite_r. by apply fneg_not_finite. Qed.

Lemma fdiv_not_finite_l a b : isfinite a = false → isfinite (fdiv a b) = false.
Proof.
  destruct a, b; simpl; try done; intros _; unfold inf_signed; by case_decide.
Qed.

Lemma fdiv_by_zero_not_finite a : isfinite (fdiv a (Fin 0%Qc)) = false.
Proof. apply fdiv_zero_not_finite. Qed.

Lemma halved_one_not_finite s1 s2 : isfinite (halved 1 s1 s2) = false.
Proof.
  unfold halved. apply fdiv_not_finite_l, fadd_not_finite_l.
  change (of_Z (Z.of_nat 1 - 1)) with (of_Z 0). apply fdiv_zero_not_finite.
Qed.

(** X9.  With [n = 1] the double estimates are divided by [n - 1 = 0]:
    no first-order and no total-order index is a finite number. *)
Theorem single_draw_gives_no_finite_index o n' m p c :
  shaped o n' m → 0 < n' → Objective.n o = 1 → p < Objective.k o → c < m →
  ∃ v s t,
    Varsens.compute_varsens (Objective.k o) (Objective.n o) o = inr v ∧
    Varsens.sens v !! p ≫= (.!! c) = Some s ∧
    Varsens.sens_t v !! p ≫= (.!! c) = Some t ∧
    isfinite s = false ∧ isfinite t = false.
Proof.
  intros Ho Hn H1 Hp Hc.
  destruct (sens_lookup (Objective.n o) o n' m p c Ho Hn Hp Hc) as [Hs Ht].
  eexists _, _, _. split; [by eapply compute_varsens_shaped|].
  split; [exact Hs|]. split; [exact Ht|]. rewrite H1. split.
  - apply fdiv_not_finite_l, fsub_not_finite_l, halved_one_not_finite.
  - apply fsub_not_finite_r, fdiv_not_finite_l, fsub_not_finite_l,
      halved_one_not_finite.
Qed.

(** ** A constant output *)

Local Open Scope Qc_scope.

Lemma Qc_of_Z_succ (N : nat) : Qc_of_Z (Z.of_nat (S N)) = Qc_of_Z (Z.of_nat N) + 1.
Proof.
  rewrite Nat2Z.inj_succ. apply Qc_is_canon. unfold Qc_of_Z. simpl.
  rewrite !Qred_correct. unfold Qeq. simpl. lia.
Qed.

Lemma Qc_of_Z_pos_ne_0 (z : Z) : (0 < z)%Z → Qc_of_Z z ≠ 0.
Proof.
  intros Hz H. apply (f_equal this) in H. simpl in H.
  injection H. lia.
Qed.

Lemma Qc_of_Z_0 : Qc_of_Z 0 = 0.
Proof. by apply Qc_is_canon. Qed.

Lemma foldl_fadd_replicate (a y : Qc) (N : nat) :
  foldl fadd (Fin a) (replicate N (Fin y)) = Fin (a + Qc_of_Z (Z.of_nat N) * y).
Proof.
  revert a. induction N as [|N IH]; intros a.
  - cbn [replicate foldl]. f_equal. change (Z.of_nat 0) with 0%Z.
    rewrite Qc_of_Z_0. ring.
  - cbn [replicate foldl fadd]. rewrite IH, Qc_of_Z_succ. f_equal. ring.
Qed.

Lemma mean_replicate (y : Qc) (N : nat) :
  (0 < N)%nat → mean (replicate N (Fin y)) = Fin y.
Proof.
  intros HN. unfold mean, fsum. rewrite foldl_fadd_replicate, length_replicate.
  unfold of_nat, of_Z.
  assert (Qc_of_Z (Z.of_nat N) ≠ 0) as Hne by (apply Qc_of_Z_pos_ne_0; lia).
  rewrite fdiv_Fin by done. f_equal. by field.
Qed.

Lemma variance_replicate (y : Qc) (N : nat) (d : Z) :
  (0 < N)%nat → (0 < d)%Z → variance d (replicate N (Fin y)) = Fin 0.
Proof.
  intros HN Hd. unfold variance, sum_sq_dev. rewrite mean_replicate by done.
  rewrite fmap_replicate. cbn [fsub fneg fadd fmul].
  replace ((y + - y) * (y + - y)) with (0 : Qc) by ring.
  unfold fsum. rewrite foldl_fadd_replicate. unfold of_Z.
  rewrite fdiv_Fin by (by apply Qc_of_Z_pos_ne_0). f_equal. field.
  by apply Qc_of_Z_pos_ne_0.
Qed.

Local Close Scope Qc_scope.

Lemma Forall_eq_replicate {A} (x : A) (l : list A) :
  Forall (λ v, v = x) l → l = replicate (length l) x.
Proof. induction 1 as [|v l -> _ IH]; [done|]. simpl. by rewrite <- IH. Qed.

(** X10.  Where the objective function takes one value on every row of
    [M_1] and [M_2], and that value is an integer [z] whose multiples up
    to [2 n' z] are below [2^53] in size (so that the sums and the mean
    that [numpy.var] takes of the [2 n'] values are exact in binary
    floating point too), [var_y] is zero, and the indices, which are
    divided by it, are not finite numbers. *)
Theorem constant_output_gives_no_finite_index o n' m p c z :
  shaped o n' m → 0 < n' → p < Objective.k o → c < m →
  (Z.abs z * (2 * Z.of_nat n') ≤ 2 ^ 53)%Z →
  Forall (λ v, v = of_Z z) (col c (Objective.fM_1 o) ++ col c (Objective.fM_2 o)) →
  ∃ v s t,
    Varsens.compute_varsens (Objective.k o) (Objective.n o) o = inr v ∧
    Varsens.var_y v !! c = Some (Fin 0%Qc) ∧
    Varsens.sens v !! p ≫= (.!! c) = Some s ∧
    Varsens.sens_t v !! p ≫= (.!! c) = Some t ∧
    isfinite s = false ∧ isfinite t = false.
Proof.
  intros Ho Hn Hp Hc _ Hy. unfold of_Z in Hy.
  destruct (sens_lookup (Objective.n o) o n' m p c Ho Hn Hp Hc) as [Hs Ht].
  pose proof (var_y_lookup (Objective.k o) (Objective.n o) o n' m c Ho Hn Hc) as HV.
  assert (variance (2 * Z.of_nat n' - 1)
            (col c (Objective.fM_1 o) ++ col c (Objective.fM_2 o)) = Fin 0%Qc) as HV0.
  { rewrite (Forall_eq_replicate _ _ Hy). apply variance_replicate; [|lia].
    rewrite length_app, !col_length. destruct Ho as ([-> _] & _). lia. }
  rewrite HV0 in Hs, Ht, HV.
  eexists _, _, _. split; [by eapply compute_varsens_shaped|].
  split; [exact HV|]. split; [exact Hs|]. split; [exact Ht|]. split.
  - apply fdiv_by_zero_not_finite.
  - apply fsub_not_finite_r, fdiv_by_zero_not_finite.
Qed.

(** ** A NaN among the evaluations *)

Lemma foldl_fadd_nan (xs : vec) : foldl fadd NaN xs = NaN.
Proof. induction xs as [|x xs IH]; [done|]. simpl. exact IH. Qed.

Lemma fsum_nan (xs : vec) : NaN ∈ xs → fsum xs = NaN.
Proof.
  unfold fsum. generalize (Fin 0%Qc). induction xs as [|x xs IH]; intros a Hin.
  - by apply elem_of_nil in Hin.
  - apply elem_of_cons in Hin as [<-|Hin]; simpl.
    + replace (fadd a NaN) with NaN by (by destruct a). apply foldl_fadd_nan.
    + by apply IH.
Qed.

Lemma variance_nan d (xs : vec) : NaN ∈ xs → variance d xs = NaN.
Proof.
  intros Hin. unfold variance, sum_sq_dev.
  assert (mean xs = NaN) as -> by (unfold mean; by rewrite fsum_nan).
  rewrite fsum_nan; [done|].
  apply list_elem_of_fmap. exists NaN. split; [done|exact Hin].
Qed.

Lemma cross_sum_nan_l c (a b : mat) r m i :
  rect r m a → rect r m b → i < r → entry a i c = Some NaN →
  cross_sum c a b = NaN.
Proof.
  intros [La Ha] [Lb Hb] Hi He. unfold cross_sum. apply fsum_nan.
  apply list_elem_of_lookup. exists i.
  destruct (lookup_lt_is_Some_2 a i) as [ra Hra]; [lia|].
  destruct (lookup_lt_is_Some_2 b i) as [rb Hrb]; [lia|].
  unfold entry in He. rewrite Hra in He. simpl in He.
  rewrite lookup_zip_with. unfold col. rewrite !list_lookup_fmap, Hra, Hrb. simpl.
  by rewrite (list_lookup_total_correct _ _ _ He).
Qed.

Lemma cross_sum_comm c a b : cross_sum c a b = cross_sum c b a.
Proof. unfold cross_sum. by rewrite zip_with_fmul_comm. Qed.

Lemma col_entry c (a : mat) i v : entry a i c = Some v → v ∈ col c a.
Proof.
  unfold entry. intros He. destruct (a !! i) as [row|] eqn:Hrow; [|done].
  simpl in He. apply list_elem_of_lookup. exists i. unfold col.
  rewrite list_lookup_fmap, Hrow. simpl.
  by rewrite (list_lookup_total_correct _ _ _ He).
Qed.

(** X11.  A NaN among the values on [M_1] or [M_2] makes the estimates
    of its output component NaN: [E_2], [var_y] and the first-order and
    total-order index of every parameter. *)
Theorem nan_value_spoils_the_component o n' m i c :
  shaped o n' m → i < n' → c < m →
  entry (Objective.fM_1 o) i c = Some NaN ∨ entry (Objective.fM_2 o) i c = Some NaN →
  ∃ v,
    Varsens.compute_varsens (Objective.k o) (Objective.n o) o = inr v ∧
    Varsens.E_2 v !! c = Some NaN ∧ Varsens.var_y v !! c = Some NaN ∧
    ∀ p, p < Objective.k o →
      Varsens.sens v !! p ≫= (.!! c) = Some NaN ∧
      Varsens.sens_t v !! p ≫= (.!! c) = Some NaN.
Proof.
  intros Ho Hi Hc Hnan. assert (0 < n') as Hn by lia.
  pose proof (E_2_lookup (Objective.k o) (Objective.n o) o n' m c Ho Hn Hc) as HE.
  pose proof (var_y_lookup (Objective.k o) (Objective.n o) o n' m c Ho Hn Hc) as HV.
  assert (cross_sum c (Objective.fM_1 o) (Objective.fM_2 o) = NaN) as Hcross.
  { destruct Ho as (R1 & R2 & _). destruct Hnan as [H|H].
    - by apply (cross_sum_nan_l c _ _ n' m i).
    - rewrite cross_sum_comm. by apply (cross_sum_nan_l c _ _ n' m i). }
  fold (cross_sum c (Objective.fM_1 o) (Objective.fM_2 o)) in HE.
  rewrite Hcross in HE.
  rewrite variance_nan in HV.
  2:{ apply elem_of_app. destruct Hnan as [H|H]; [left|right]; by eapply col_entry. }
  eexists. split; [by eapply compute_varsens_shaped|].
  split; [exact HE|]. split; [exact HV|].
  intros p Hp.
  destruct (sens_lookup (Objective.n o) o n' m p c Ho Hn Hp Hc) as [Hs Ht].
  rewrite Hcross in Hs, Ht. rewrite Hs, Ht. split.
  - f_equal. set (U := halved _ _ _). by destruct U.
  - f_equal. set (U := halved _ _ _). by destruct U.
Qed.

(** ** The two halves of the design *)

Lemma zip_with_comm {A B} (f : A → A → B) (a b : list A) :
  (∀ x y, f x y = f y x) → zip_with f a b = zip_with f b a.
Proof.
  intros Hf. revert b. induction a as [|x a IH]; intros [|y b]; simpl; try done.
  by rewrite Hf, IH.
Qed.

Lemma add1_comm u v : numpy.add1 u v = numpy.add1 v u.
Proof. apply zip_with_comm, fadd_comm. Qed.

Lemma mul2_comm a b : numpy.mul2 a b = numpy.mul2 b a.
Proof. apply zip_with_comm. intros u v. apply zip_with_comm, fmul_comm. Qed.

Lemma double_estimate_comm n fM fN fM' fN' :
  Varsens.double_estimate n fM fN fM' fN' = Varsens.double_estimate n fM' fN' fM fN.
Proof.
  unfold Varsens.double_estimate. f_equal. apply zip_with_comm, add1_comm.
Qed.

(** X12.  The estimator treats the two halves of the design alike:
    with [fM_1] and [fM_2] exchanged and [fN_j] and [fN_nj] exchanged it
    computes the same [E_2], [U_j] and [U_nj]. *)
Theorem estimates_symmetric_in_the_halves k n o :
  k ≤ length (Objective.fN_j o) → k ≤ length (Objective.fN_nj o) →
  ∃ v v',
    Varsens.compute_varsens k n o = inr v ∧
    Varsens.compute_varsens k n (swapped o) = inr v' ∧
    Varsens.E_2 v' = Varsens.E_2 v ∧
    Varsens.U_j v' = Varsens.U_j v ∧
    Varsens.U_nj v' = Varsens.U_nj v.
Proof.
  intros H1 H2. exists (estimates k n o), (estimates k n (swapped o)).
  split; [by apply compute_varsens_estimates|].
  split; [by apply compute_varsens_estimates|].
  rewrite !E_2_eq, !U_j_eq, !U_nj_eq. unfold swapped. simpl. split_and!.
  - by rewrite mul2_comm.
  - apply double_estimate_comm.
  - apply double_estimate_comm.
Qed.

(** ** Agreement with the textbook formulas *)

(** X13.  When no row was trimmed ([n' = n >= 2]) and the cross sums
    are finite, [E_2] is the mean of the products [fM_1[i] * fM_2[i]] and
    the two indices are [(U_j - E_2) / var_y] and
    [1 - (U_nj - E_2) / var_y] with the double estimates
    [(sum + sum') / (2 (n - 1))]. *)
Theorem untrimmed_estimates_follow_the_formulas o m p c :
  let n := Objective.n o in
  shaped o n m → 2 ≤ n → p < Objective.k o → c < m →
  isfinite (cross_sum c (Objective.fM_1 o) (Objective.fN_j o !!! p)) = true →
  isfinite (cross_sum c (Objective.fM_2 o) (Objective.fN_nj o !!! p)) = true →
  isfinite (cross_sum c (Objective.fM_1 o) (Objective.fN_nj o !!! p)) = true →
  isfinite (cross_sum c (Objective.fM_2 o) (Objective.fN_j o !!! p)) = true →
  ∃ v,
    Varsens.compute_varsens (Objective.k o) n o = inr v ∧
    Varsens.E_2 v !! c =
      Some (mean_of_products c (Objective.fM_1 o) (Objective.fM_2 o)) ∧
    Varsens.sens v !! p ≫= (.!! c) = first_order_claimed n v p c ∧
    Varsens.sens_t v !! p ≫= (.!! c) = total_order_claimed n v p c.
Proof.
  intros n Ho Hn Hp Hc F1 F2 F3 F4.
  exists (estimates (Objective.k o) n o).
  split; [by eapply compute_varsens_shaped|].
  split; [apply (E_2_unpruned _ o m c); [done|lia|done]|].
  by apply (sens_unpruned o m p c).
Qed.

(** ** The estimator and objective functions *)

(** X14.  Given a function as objective, the estimator returns no
    estimate, whatever its other arguments are: either the sample stage
    raises, and its error is the estimator's, or [Objective(k, n, sample,
    objective, verbose)] asks for the length of [verbose], a Boolean, and
    raises [TypeError]. *)
Theorem estimator_fails_for_every_function halton shuffle1 f scaling_func k n
    sample verbose w :
  (∃ e, Varsens.init_sample halton shuffle1 (inr f) scaling_func k n sample verbose w
          = inl e ∧
        Varsens.init halton shuffle1 (inr f) scaling_func k n sample verbose w = inl e) ∨
  Varsens.init halton shuffle1 (inr f) scaling_func k n sample verbose w =
    inl (TypeError "object of type 'bool' has no len()").
Proof.
  destruct (Varsens.init_sample halton shuffle1 (inr f) scaling_func k n sample verbose w)
    as [e|[self w']] eqn:Hs.
  - left. exists e. split; [done|]. unfold Varsens.init. by rewrite (io_bind_inl _ _ _ _ Hs).
  - right. by eapply estimator_rejects_functions.
Qed.

(** ** The shapes of the estimates *)

Lemma cross_rect n fM fN d r m :
  rect r m fM → rect3 d r m fN → 0 < r → rect d m (Varsens.cross n fM fN).
Proof.
  intros HM [Hd HN] Hpos. unfold Varsens.cross, numpy.sum1. split.
  - by rewrite !length_fmap.
  - rewrite <- !list_fmap_compose. apply Forall_fmap.
    eapply Forall_impl; [exact HN|]. intros a Ha. simpl.
    unfold numpy.div1s. rewrite length_fmap.
    pose proof (mul2_rect _ _ _ _ HM Ha) as [Hl Hr].
    rewrite (rect_width r m) by (done || by split). by apply sum0_length.
Qed.

Lemma double_estimate_rect n fM fN fM' fN' d r m :
  rect r m fM → rect3 d r m fN → rect r m fM' → rect3 d r m fN' → 0 < r →
  rect d m (Varsens.double_estimate n fM fN fM' fN').
Proof.
  intros HM HN HM' HN' Hpos.
  destruct (cross_rect n fM fN d r m HM HN Hpos) as [L1 F1].
  destruct (cross_rect n fM' fN' d r m HM' HN' Hpos) as [L2 F2].
  unfold Varsens.double_estimate. apply div2s_rect. split.
  - rewrite length_zip_with. lia.
  - apply Forall_lookup_2. intros i row. rewrite lookup_zip_with. intros Hrow.
    destruct (Varsens.cross n fM fN !! i) as [u|] eqn:Eu; simpl in Hrow; [|done].
    destruct (Varsens.cross n fM' fN' !! i) as [u'|] eqn:Eu'; simpl in Hrow; [|done].
    injection Hrow as <-. unfold numpy.add1. rewrite length_zip_with.
    rewrite (Forall_lookup_1 _ _ _ _ F1 Eu), (Forall_lookup_1 _ _ _ _ F2 Eu'). lia.
Qed.

Lemma filled_rect (F : nat → vec) (k w m : nat) :
  (∀ j, j < k → length (F j) = m) →
  rect k m (foldl (λ s j, <[j := F j]> s) (numpy.zeros2 k w) (seq 0 k)).
Proof.
  intros HF. split.
  - rewrite foldl_insert_length. unfold numpy.zeros2. by rewrite length_replicate.
  - apply Forall_lookup_2. intros p row Hrow.
    assert (p < k) as Hp.
    { apply lookup_lt_Some in Hrow. rewrite foldl_insert_length in Hrow.
      unfold numpy.zeros2 in Hrow. by rewrite length_replicate in Hrow. }
    rewrite foldl_insert_lookup in Hrow
      by (unfold numpy.zeros2; rewrite length_replicate; lia).
    rewrite decide_True in Hrow by done. injection Hrow as <-. by apply HF.
Qed.

Lemma columns_rect r m (a : mat) : rect r m a → 0 < r → rect m r (numpy.columns a).
Proof.
  intros Ha Hr. unfold numpy.columns. rewrite (rect_width r m) by done. split.
  - by rewrite length_fmap, length_seq.
  - apply Forall_fmap, Forall_forall. intros c _. simpl. rewrite length_fmap. apply Ha.
Qed.

Lemma tensordot_rect4 (a b : ten) k r m :
  rect3 k r m a → rect3 k r m b → 0 < r → rect4 k m (numpy.tensordot a b).
Proof.
  intros [La Fa] [Lb Fb] Hr. unfold numpy.tensordot. split; [by rewrite length_fmap|].
  apply Forall_fmap. eapply Forall_impl; [exact Fa|]. intros ap Hap. simpl.
  destruct (columns_rect r m ap Hap Hr) as [Lc _]. split; [by rewrite length_fmap|].
  apply Forall_fmap, Forall_forall. intros u _. simpl.
  split; [by rewrite length_fmap|].
  apply Forall_fmap. eapply Forall_impl; [exact Fb|]. intros bq Hbq. simpl.
  rewrite length_fmap. by destruct (columns_rect r m bq Hbq Hr).
Qed.

Lemma on_last_rect4 (g : vec → vec) (a : ten4) k m :
  (∀ r, length r = m → length (g r) = m) → rect4 k m a → rect4 k m (Varsens.on_last g a).
Proof.
  intros Hg [La Fa]. unfold Varsens.on_last. split; [by rewrite length_fmap|].
  apply Forall_fmap. eapply Forall_impl; [exact Fa|]. intros a1 [L1 F1]. simpl.
  split; [by rewrite length_fmap|].
  apply Forall_fmap. eapply Forall_impl; [exact F1|]. intros a2 [L2 F2]. simpl.
  split; [by rewrite length_fmap|].
  apply Forall_fmap. eapply Forall_impl; [exact F2|]. intros a3 L3. simpl. by apply Hg.
Qed.

Lemma zip_with_Forall {A B C} (f : A → B → C) (P : A → Prop) (Q : B → Prop)
    (R : C → Prop) (a : list A) (b : list B) :
  (∀ x y, P x → Q y → R (f x y)) → Forall P a → Forall Q b → Forall R (zip_with f a b).
Proof.
  intros Hf Ha. revert b. induction Ha as [|x a Hx _ IH]; intros b Hb; [constructor|].
  destruct Hb as [|y b Hy Hb]; [constructor|]. simpl. constructor; [by apply Hf|by apply IH].
Qed.

Lemma add4_rect4 (a b : ten4) k m : rect4 k m a → rect4 k m b → rect4 k m (Varsens.add4 a b).
Proof.
  intros [La Fa] [Lb Fb]. unfold Varsens.add4. split; [rewrite length_zip_with; lia|].
  apply (zip_with_Forall _ (rect3 m k m) (rect3 m k m)); [|done..].
  intros a1 b1 [L1 F1] [L1' F1']. split; [rewrite length_zip_with; lia|].
  apply (zip_with_Forall _ (rect k m) (rect k m)); [|done..].
  intros a2 b2 [L2 F2] [L2' F2']. split; [rewrite length_zip_with; lia|].
  apply (zip_with_Forall _ (λ r : vec, length r = m) (λ r : vec, length r = m)); [|done..].
  intros a3 b3 L3 L3'. unfold numpy.add1. rewrite length_zip_with. lia.
Qed.

Lemma second_order_rect4 n (E V : vec) (a b a' b' : ten) k r m :
  length E = m → length V = m →
  rect3 k r m a → rect3 k r m b → rect3 k r m a' → rect3 k r m b' → 0 < r →
  rect4 k m (Varsens.second_order n E V a b a' b').
Proof.
  intros HE HV Ha Hb Ha' Hb' Hr. unfold Varsens.second_order.
  repeat apply on_last_rect4.
  - intros row Hrow. unfold numpy.div1. rewrite length_zip_with. lia.
  - intros row Hrow. unfold numpy.sub1. rewrite length_zip_with. lia.
  - intros row Hrow. unfold numpy.div1s. by rewrite length_fmap.
  - apply add4_rect4; by apply (tensordot_rect4 _ _ k r m).
Qed.

(** X15.  For tables of [n' >= 1] rows and [m] output components,
    [E_2] and [var_y] have [m] entries, [U_j], [U_nj], [sens] and
    [sens_t] are [k] by [m], and [sens_2] and [sens_2n] have the shape
    [(k, m, k, m)]. *)
Theorem estimates_have_their_shapes o n' m :
  shaped o n' m → 0 < n' →
  let k := Objective.k o in
  ∃ v,
    Varsens.compute_varsens k (Objective.n o) o = inr v ∧
    length (Varsens.E_2 v) = m ∧ length (Varsens.var_y v) = m ∧
    rect k m (Varsens.U_j v) ∧ rect k m (Varsens.U_nj v) ∧
    rect k m (Varsens.sens v) ∧ rect k m (Varsens.sens_t v) ∧
    rect4 k m (Varsens.sens_2 v) ∧ rect4 k m (Varsens.sens_2n v).
Proof.
  intros Ho Hn k. set (n := Objective.n o).
  exists (estimates k n o). split; [by eapply compute_varsens_shaped|].
  pose proof (E_2_length k n o n' m Ho Hn) as HE.
  pose proof (var_y_length k n o n' m Ho Hn) as HV.
  pose proof Ho as (R1 & R2 & R3 & R4).
  assert (rect k m (Varsens.U_j (estimates k n o))) as HU.
  { rewrite U_j_eq. by apply (double_estimate_rect _ _ _ _ _ _ n'). }
  assert (rect k m (Varsens.U_nj (estimates k n o))) as HU'.
  { rewrite U_nj_eq. by apply (double_estimate_rect _ _ _ _ _ _ n'). }
  split_and!; try done.
  - rewrite sens_eq. cbv zeta. apply filled_rect. intros j Hj.
    unfold numpy.div1, numpy.sub1. rewrite !length_zip_with, HE, HV.
    destruct (lookup_lt_is_Some_2 (Varsens.U_j (estimates k n o)) j) as [u Hu];
      [destruct HU; lia|].
    rewrite (list_lookup_total_correct _ _ _ Hu), (rect_lookup _ _ _ _ _ HU Hu). lia.
  - rewrite sens_t_eq. cbv zeta. apply filled_rect. intros j Hj.
    unfold numpy.div1, numpy.sub1. rewrite length_fmap, !length_zip_with, HE, HV.
    destruct (lookup_lt_is_Some_2 (Varsens.U_nj (estimates k n o)) j) as [u Hu];
      [destruct HU'; lia|].
    rewrite (list_lookup_total_correct _ _ _ Hu), (rect_lookup _ _ _ _ _ HU' Hu). lia.
  - rewrite sens_2_eq. by apply (second_order_rect4 _ _ _ _ _ _ _ _ n').
  - rewrite sens_2n_eq. by apply (second_order_rect4 _ _ _ _ _ _ _ _ n').
Qed.

(** ** Strings *)

Lemma append_cons a s t : String a s +:+ t = String a (s +:+ t).
Proof. reflexivity. Qed.

Lemma append_nil_l t : EmptyString +:+ t = t.
Proof. reflexivity. Qed.

Lemma append_nil_r s : s +:+ EmptyString = s.
Proof. induction s as [|a s IH]; [done|]. by rewrite append_cons, IH. Qed.

Lemma append_assoc s t u : (s +:+ t) +:+ u = s +:+ t +:+ u.
Proof. induction s as [|a s IH]; [done|]. by rewrite !append_cons, IH. Qed.

Lemma append_length s t : String.length (s +:+ t) = String.length s + String.length t.
Proof. induction s as [|a s IH]; [done|]. rewrite append_cons. simpl. by rewrite IH. Qed.

Lemma rev_app_rev_app s t u :
  String.rev_app (String.rev_app s t) u = String.rev_app t (s +:+ u).
Proof.
  revert t. induction s as [|a s IH]; intros t; [done|].
  simpl. rewrite IH. simpl. by rewrite append_cons.
Qed.

Lemma words_go_nospace acc s :
  nospace s = true →
  String.words_go (Some acc) s = [String.rev (String.rev_app s acc)].
Proof.
  revert acc. induction s as [|a s IH]; intros acc Hs; [done|].
  simpl in Hs. apply andb_true_iff in Hs as [Ha Hs]. apply negb_true_iff in Ha.
  cbn [String.words_go]. rewrite Ha. cbn [from_option]. by rewrite IH.
Qed.

Lemma split_plain p : plain p → str.split p = [p].
Proof.
  intros [Hne Hs]. destruct p as [|a p]; [done|].
  simpl in Hs. apply andb_true_iff in Hs as [Ha Hs]. apply negb_true_iff in Ha.
  unfold str.split, String.words. cbn [String.words_go]. rewrite Ha.
  cbn [from_option]. rewrite words_go_nospace by done.
  unfold String.rev. rewrite rev_app_rev_app. cbn [String.rev_app].
  by rewrite append_nil_r.
Qed.

Lemma words_go_blank s : blank s = true → String.words_go None s = [].
Proof.
  induction s as [|a s IH]; intros Hs; [done|].
  simpl in Hs. apply andb_true_iff in Hs as [Ha Hs].
  cbn [String.words_go]. rewrite Ha. simpl. by apply IH.
Qed.

Lemma last_is_Some s : s ≠ EmptyString → ∃ c, str.last s = inr c.
Proof.
  induction s as [|a s IH]; [done|]. intros _.
  destruct s as [|b s]; [by exists a|]. apply IH. done.
Qed.

Lemma but_last_last s c : str.last s = inr c → str.but_last s +:+ String c EmptyString = s.
Proof.
  induction s as [|a s IH]; [done|]. intros Hl.
  destruct s as [|b s]; [by injection Hl as ->|].
  change (str.but_last (String a (String b s))) with (String a (str.but_last (String b s))).
  rewrite append_cons. f_equal. by apply IH.
Qed.

Lemma startswith_append s t c :
  s ≠ EmptyString → str.startswith (s +:+ t) c = str.startswith s c.
Proof. by destruct s. Qed.

Lemma os_path_join_append a s t :
  (s ≠ EmptyString ∨ str.startswith t "/"%char = false) →
  os_path_join a (s +:+ t) = os_path_join a s +:+ t.
Proof.
  intros Hs. unfold os_path_join.
  assert (str.startswith (s +:+ t) "/"%char = str.startswith s "/"%char) as ->.
  { destruct s as [|x s]; [|done]. destruct Hs as [?|Hs]; [done|]. by rewrite append_nil_l. }
  destruct (str.startswith s "/"%char); [done|].
  destruct (bool_decide (a = EmptyString) || str.endswith a "/"%char).
  - by rewrite append_assoc.
  - by rewrite !append_assoc.
Qed.

(** The prefix of [export] and the prefix of [load] differ by the
    underscore that separates the prefix from the number. *)
Lemma underscore_agree p :
  p ≠ EmptyString → without_underscore p +:+ "_" = with_underscore p.
Proof.
  intros Hp. unfold without_underscore, with_underscore, str.endswith.
  destruct (last_is_Some p Hp) as [c Hc]. rewrite Hc.
  destruct (bool_decide_reflect (c = "_"%char)) as [->|Hne]; [|done].
  by apply but_last_last.
Qed.

Lemma pretty_nat_Z (n : nat) : pretty (Z.of_nat n) = pretty n.
Proof. by destruct n. Qed.

(** ** The blocks of [export] *)

Lemma concat_slices {A} (f : list A) (s c : nat) :
  concat ((λ b, numpy.slice (b * s) ((b + 1) * s) f) <$> seq 0 c) = take (c * s) f.
Proof.
  induction c as [|c IH]; [done|].
  rewrite seq_S, fmap_app, concat_app, IH. simpl. rewrite app_nil_r.
  unfold numpy.slice. replace ((c + 1) * s - c * s) with s by lia.
  rewrite take_take_drop. f_equal. lia.
Qed.

Lemma ceil_div_bounds (N s : Z) :
  (0 < s)%Z → ((ceil_div N s - 1) * s < N ≤ ceil_div N s * s)%Z.
Proof.
  intros Hs. unfold ceil_div.
  pose proof (Z.div_mod (- N) s ltac:(lia)) as Hdm.
  pose proof (Z.mod_pos_bound (- N) s Hs) as Hmod. nia.
Qed.

Lemma zip_fmap_same {A B C} (g : C → A) (h : C → B) (l : list C) :
  zip (g <$> l) (h <$> l) = (λ b, (g b, h b)) <$> l.
Proof. induction l as [|x l IH]; [done|]. rewrite !fmap_cons. simpl. by rewrite IH. Qed.

Lemma export_files_spec f outdir prefix postfix bs :
  plain prefix → f ≠ [] → (0 < effective bs (length f))%Z →
  let s := Z.to_nat (effective bs (length f)) in
  let c := Z.to_nat (ceil_div (Z.of_nat (length f)) (effective bs (length f))) in
  export_files f outdir prefix postfix bs =
    inr (if decide (c = 1) then [(single_name outdir prefix postfix, f)]
         else zip (block_names outdir prefix postfix c)
                  ((λ b, numpy.slice (b * s) ((b + 1) * s) f) <$> seq 0 c)) ∧
  (c - 1) * s < length f ≤ c * s ∧ 0 < s ∧ 0 < c.
Proof.
  intros Hp Hf Hbs s c.
  pose proof (ceil_div_bounds (Z.of_nat (length f)) _ Hbs) as Hc.
  assert (0 < length f) as Hlen by (destruct f; [done|simpl; lia]).
  assert (0 < ceil_div (Z.of_nat (length f)) (effective bs (length f)))%Z as Hcpos by nia.
  split; [|subst s c; nia].
  unfold export_files. fold (effective bs (length f)).
  rewrite (split_plain _ Hp). cbn [str.join].
  destruct Hp as [Hne _]. destruct (last_is_Some prefix Hne) as [ch Hch].
  rewrite Hch. rewrite decide_False by lia.
  assert ((if bool_decide (ch = "_"%char) then str.but_last prefix else prefix)
          = without_underscore prefix) as ->.
  { unfold without_underscore, str.endswith. by rewrite Hch. }
  fold c. destruct (decide (c = 1)) as [Hc1|Hc1].
  - rewrite decide_True by (subst c; lia). done.
  - rewrite decide_False by (subst c; lia). f_equal.
    unfold range, block_names. rewrite Nat.sub_0_r. fold s.
    rewrite zip_fmap_same.
    apply list_fmap_ext. intros _ b _. simpl. by rewrite <- !append_assoc.
Qed.

Lemma effective_pos bs len :
  0 < len → match bs with Inf => True | Rows b => (0 < b)%Z end →
  (0 < effective bs len)%Z ∧ (effective bs len ≤ Z.of_nat len)%Z.
Proof.
  intros Hlen Hbs. unfold effective. destruct bs as [|b]; [lia|].
  case_decide; lia.
Qed.

Lemma export_files_blocks f outdir prefix postfix bs :
  plain prefix → f ≠ [] →
  match bs with Inf => True | Rows b => (0 < b)%Z end →
  ∃ files,
    export_files f outdir prefix postfix bs = inr files ∧
    concat files.*2 = f ∧
    Forall (λ a : mat, 0 < length a ∧
              match bs with Inf => True | Rows b => (Z.of_nat (length a) ≤ b)%Z end)
           files.*2 ∧
    (length files = 1 ↔
       match bs with Inf => True | Rows b => (Z.of_nat (length f) ≤ b)%Z end).
Proof.
  intros Hp Hf Hbs.
  assert (0 < length f) as Hpos by (destruct f; [done|simpl; lia]).
  destruct (effective_pos bs (length f) Hpos Hbs) as [He1 He2].
  destruct (export_files_spec f outdir prefix postfix bs Hp Hf He1)
    as (Hexp & Hc & Hs & Hc0).
  set (sz := Z.to_nat (effective bs (length f))) in *.
  set (c := Z.to_nat (ceil_div (Z.of_nat (length f)) (effective bs (length f)))) in *.
  eexists. split; [exact Hexp|].
  destruct (decide (c = 1)) as [Hc1|Hc1].
  - cbn [fmap list_fmap concat snd]. rewrite app_nil_r.
    split; [done|]. split.
    + constructor; [|constructor]. split; [done|].
      destruct bs as [|b]; [done|]. unfold effective in sz. subst sz.
      case_decide; lia.
    + split; [intros _|done]. destruct bs as [|b]; [done|].
      unfold effective in sz. subst sz. case_decide; lia.
  - assert (length (block_names outdir prefix postfix c) = c) as Hnames
      by (unfold block_names; by rewrite length_fmap, length_seq).
    rewrite snd_zip by (rewrite Hnames, length_fmap, length_seq; lia).
    split; [|split].
    + rewrite concat_slices. apply take_ge. lia.
    + apply Forall_fmap, Forall_forall. intros b Hb. apply elem_of_seq in Hb.
      simpl. unfold numpy.slice. rewrite length_take, length_drop. split; [nia|].
      destruct bs as [|b0]; [done|]. unfold effective in sz. subst sz.
      case_decide; lia.
    + rewrite length_zip_with, Hnames, length_fmap, length_seq.
      split; [lia|]. intros Hb. exfalso. destruct bs as [|b]; unfold effective in *.
      * subst sz c. nia.
      * subst sz c. case_decide; nia.
Qed.

(** X16.  [Sample.export] writes the rows of [flat] in blocks: the
    arrays written, one after the other, are the flattened sample; every
    block has at least one row and at most [blocksize] rows; and a single
    file is written exactly when the block size is not below the number
    of rows. *)
Theorem export_writes_the_rows_in_blocks w s m1 m2 nj nnj outdir prefix postfix bs :
  holds w s m1 m2 nj nnj → 0 < Sample.n s → plain prefix →
  match bs with Inf => True | Rows b => (0 < b)%Z end →
  ∃ files,
    Sample.export s outdir prefix postfix bs w = inr (files, w) ∧
    concat files.*2 = m1 ++ m2 ++ concat nj ++ concat nnj ∧
    Forall (λ a : mat, 0 < length a ∧
              match bs with Inf => True | Rows b => (Z.of_nat (length a) ≤ b)%Z end)
           files.*2 ∧
    (length files = 1 ↔
       match bs with
       | Inf => True
       | Rows b => (Z.of_nat (2 * Sample.n s * (1 + Sample.k s)) ≤ b)%Z
       end).
Proof.
  intros H Hn Hp Hbs.
  pose proof (flat_spec _ _ _ _ _ _ H) as Hflat.
  destruct H as (_ & _ & _ & _ & R1 & R2 & R3 & R4).
  destruct (flattened_rect _ _ _ _ _ _ R1 R2 R3 R4) as [Hlen _].
  assert (flattened m1 m2 nj nnj ≠ []) as Hf.
  { intros E. rewrite E in Hlen. simpl in Hlen. nia. }
  destruct (export_files_blocks _ outdir prefix postfix bs Hp Hf Hbs)
    as (files & Hexp & Hcat & Hall & Hone).
  exists files. split_and!; try done.
  - unfold Sample.export. by rewrite Hflat, Hexp.
  - by rewrite <- Hlen.
Qed.

(** X17.  [Objective.export] writes the rows of [Objective.flat] in
    blocks in the same way: the arrays written, one after the other, are
    the four tables in the order of [flat]. *)
Theorem objective_export_writes_the_tables o n' m outdir prefix postfix bs :
  shaped o n' m → 0 < n' → plain prefix →
  match bs with Inf => True | Rows b => (0 < b)%Z end →
  ∃ files,
    Objective.export o outdir prefix postfix bs = inr files ∧
    concat files.*2 =
      Objective.fM_1 o ++ Objective.fM_2 o
      ++ concat (Objective.fN_j o) ++ concat (Objective.fN_nj o) ∧
    Forall (λ a : mat, 0 < length a ∧
              match bs with Inf => True | Rows b => (Z.of_nat (length a) ≤ b)%Z end)
           files.*2 ∧
    (length files = 1 ↔
       match bs with
       | Inf => True
       | Rows b => (Z.of_nat (2 * n' * (1 + Objective.k o)) ≤ b)%Z
       end).
Proof.
  intros Ho Hn Hp Hbs.
  pose proof (objective_flat_spec o n' m Ho) as Hflat.
  destruct (shaped_flattened_rect o n' m Ho) as [Hlen _].
  set (f := flattened _ _ _ _) in *.
  assert (f ≠ []) as Hf.
  { intros E. rewrite E in Hlen. simpl in Hlen. nia. }
  destruct (export_files_blocks _ outdir prefix postfix bs Hp Hf Hbs)
    as (files & Hexp & Hcat & Hall & Hone).
  exists files. split_and!; try done.
  - unfold Objective.export. by rewrite Hflat.
  - by rewrite <- Hlen.
Qed.

(** ** Block sizes and prefixes that [export] does not take *)

Lemma split_blank p : blank p = true → str.split p = [].
Proof. apply words_go_blank. Qed.

Lemma ceil_div_negative (N b : Z) : (0 ≤ N)%Z → (b < 0)%Z → (ceil_div N b ≤ 0)%Z.
Proof.
  intros HN Hb. unfold ceil_div.
  rewrite <- (Z.div_opp_opp (- N) b) by lia. rewrite Z.opp_involutive.
  pose proof (Z.div_pos N (- b) HN ltac:(lia)). lia.
Qed.

(** X18.  The arguments [export] does not take: a prefix that is empty
    or all whitespace raises [IndexError]; a block size of zero, or no
    rows to write, raises [ZeroDivisionError]; with a negative block
    size nothing is written and nothing is raised. *)
Theorem export_edge_cases f outdir prefix postfix :
  (blank prefix = true →
     ∀ bs, export_files f outdir prefix postfix bs = inl (Raised IndexError)) ∧
  (plain prefix →
     export_files f outdir prefix postfix (Rows 0) = inl ZeroDivisionError ∧
     (f = [] → export_files f outdir prefix postfix Inf = inl ZeroDivisionError) ∧
     ∀ b, (b < 0)%Z → export_files f outdir prefix postfix (Rows b) = inr []).
Proof.
  split.
  - intros Hb bs. unfold export_files. by rewrite (split_blank _ Hb).
  - intros Hp. pose proof Hp as [Hne _].
    destruct (last_is_Some prefix Hne) as [ch Hch].
    unfold export_files. rewrite (split_plain _ Hp). cbn [str.join]. rewrite Hch.
    split_and!.
    + rewrite (decide_False (P := (Z.of_nat (length f) < 0)%Z)) by lia.
      by rewrite decide_True.
    + intros ->. by rewrite decide_True.
    + intros b Hb. rewrite (decide_False (P := (Z.of_nat (length f) < b)%Z)) by lia.
      rewrite (decide_False (P := (b = 0)%Z)) by lia.
      pose proof (ceil_div_negative (Z.of_nat (length f)) b ltac:(lia) Hb) as Hc.
      rewrite decide_False by lia.
      replace (Z.to_nat (ceil_div (Z.of_nat (length f)) b)) with 0 by lia.
      done.
Qed.

(** ** The names of the files *)

Lemma file_names_prefix what whose indir prefix postfix (c : nat) :
  prefix ≠ EmptyString → 0 < c →
  file_names what whose indir None (Some prefix) postfix (Some (Z.of_nat c)) 1 =
    inr ((λ i, os_path_join indir (with_underscore prefix)
               +:+ pretty (i + 1) +:+ postfix) <$> seq 0 c).
Proof.
  intros Hne Hc. unfold file_names.
  destruct prefix as [|a p] eqn:Hp; [done|]. rewrite <- Hp in *.
  destruct (Z.of_nat c) as [|z|z] eqn:Hz; [lia| |lia].
  destruct (last_is_Some prefix Hne) as [ch Hch]. rewrite Hch. cbn [bind].
  assert ((if bool_decide (ch ≠ "_"%char) then prefix +:+ "_" else prefix)
          = with_underscore prefix) as ->.
  { unfold with_underscore, str.endswith. rewrite Hch.
    destruct (decide (ch = "_"%char)) as [Hch'|Hch'].
    - rewrite (bool_decide_eq_false_2 (ch ≠ "_"%char)) by (intros H; by apply H).
      by rewrite bool_decide_eq_true_2.
    - rewrite (bool_decide_eq_true_2 (ch ≠ "_"%char)) by done.
      by rewrite bool_decide_eq_false_2. }
  rewrite <- Hz, Nat2Z.id. unfold ret. f_equal.
  apply list_fmap_ext. intros _ i _. simpl.
  replace (1 + Z.of_nat i)%Z with (Z.of_nat (i + 1)) by lia.
  by rewrite pretty_nat_Z.
Qed.

Lemma block_names_load outdir prefix postfix c :
  prefix ≠ EmptyString →
  block_names outdir prefix postfix c =
    (λ i, os_path_join outdir (with_underscore prefix)
          +:+ pretty (i + 1) +:+ postfix) <$> seq 0 c.
Proof.
  intros Hne. unfold block_names. apply list_fmap_ext. intros _ i _. simpl.
  rewrite <- (underscore_agree prefix Hne).
  rewrite os_path_join_append by (by right). by rewrite append_assoc.
Qed.

(** X19.  [load] looks for the files [export] wrote: when [export]
    writes more than one block, [load] with the same directory, prefix
    and postfix, the number of blocks as [nFiles] and the default
    [offset] builds the names [export] wrote to, in the same order,
    whether or not the prefix ends with an underscore. *)
Theorem load_finds_the_names_of_export f dir prefix postfix b what whose :
  plain prefix → (0 < b)%Z → (b < Z.of_nat (length f))%Z →
  ∃ files,
    export_files f dir prefix postfix (Rows b) = inr files ∧
    2 ≤ length files ∧
    file_names what whose dir None (Some prefix) postfix
               (Some (Z.of_nat (length files))) 1 = inr files.*1.
Proof.
  intros Hp Hb Hlt.
  assert (f ≠ []) as Hf by (intros ->; simpl in Hlt; lia).
  assert (effective (Rows b) (length f) = b) as He
    by (unfold effective; rewrite decide_False by lia; done).
  destruct (export_files_spec f dir prefix postfix (Rows b) Hp Hf) as (Hexp & Hc & Hs & Hc0);
    [rewrite He; lia|].
  rewrite He in *.
  set (c := Z.to_nat (ceil_div (Z.of_nat (length f)) b)) in *.
  assert (2 ≤ c) as Hc2 by nia.
  rewrite decide_False in Hexp by lia.
  assert (length (block_names dir prefix postfix c) = c) as Hnames
    by (unfold block_names; by rewrite length_fmap, length_seq).
  eexists. split; [exact Hexp|].
  rewrite length_zip_with, Hnames, length_fmap, length_seq, Nat.min_id.
  split; [done|].
  rewrite fst_zip by (rewrite Hnames, length_fmap, length_seq; lia).
  destruct Hp as [Hne _].
  rewrite file_names_prefix by (done || lia).
  by rewrite block_names_load.
Qed.

Lemma read_files_app (fs : string → option mat) names acc :
  Forall (λ name, is_Some (fs name)) names →
  fold_result names acc (λ sample file,
    match fs file with
    | None => raise (Exception ("Cannot find input file " +:+ file))
    | Some a => ret (sample ++ [numpy.loadtxt a])
    end) = inr (acc ++ ((λ name, numpy.loadtxt (default [] (fs name))) <$> names)).
Proof.
  intros Hall. revert acc. induction Hall as [|name names [a Ha] _ IH]; intros acc.
  - simpl. by rewrite app_nil_r.
  - simpl. rewrite Ha. simpl. rewrite IH, <- app_assoc. done.
Qed.

Lemma read_files_missing (fs : string → option mat) pre name post acc :
  Forall (λ name, is_Some (fs name)) pre → fs name = None →
  fold_result (pre ++ name :: post) acc (λ sample file,
    match fs file with
    | None => raise (Exception ("Cannot find input file " +:+ file))
    | Some a => ret (sample ++ [numpy.loadtxt a])
    end) = inl (Exception ("Cannot find input file " +:+ name)).
Proof.
  intros Hall Hname. revert acc. induction Hall as [|n names [a Ha] _ IH]; intros acc.
  - simpl. by rewrite Hname.
  - simpl. rewrite Ha. simpl. apply IH.
Qed.

(** X20.  The files are read in the order of their names: when every
    name is a file the arrays [numpy.loadtxt] reads are returned in that
    order, and otherwise the error names the first name that is no
    file. *)
Theorem read_stops_at_the_first_missing_file (fs : string → option mat) names :
  (Forall (λ name, is_Some (fs name)) names →
     read_files fs names =
       inr ((λ name, numpy.loadtxt (default [] (fs name))) <$> names)) ∧
  (∀ pre name post,
     names = pre ++ name :: post →
     Forall (λ name, is_Some (fs name)) pre → fs name = None →
     read_files fs names = inl (Exception ("Cannot find input file " +:+ name))).
Proof.
  split.
  - intros Hall. unfold read_files. by rewrite read_files_app.
  - intros pre name post -> Hall Hname. unfold read_files.
    by apply read_files_missing.
Qed.

(** X21.  A sample exported as a single block is not found by prefix:
    [export] names the file without a number, [load] with the prefix and
    [nFiles = 1] looks for the name with the number 1.  Given as
    [loadFile], the file is read. *)
Theorem single_block_is_not_found_by_prefix f dir prefix postfix bs :
  plain prefix → f ≠ [] →
  match bs with Inf => True | Rows b => (Z.of_nat (length f) ≤ b)%Z end →
  let name := single_name dir prefix postfix in
  let fs := only_file name f in
  export_files f dir prefix postfix bs = inr [(name, f)] ∧
  Sample.read fs dir None (Some prefix) postfix (Some 1%Z) 1 =
    inl (Exception ("Cannot find input file "
                    +:+ os_path_join dir (with_underscore prefix)
                    +:+ "1" +:+ postfix)) ∧
  (name ≠ EmptyString →
     Sample.read fs EmptyString (Some name) None postfix None 1 = inr [numpy.loadtxt f]).
Proof.
  intros Hp Hf Hbs name fs.
  assert (0 < length f) as Hlen by (destruct f; [done|simpl; lia]).
  assert (effective bs (length f) = Z.of_nat (length f)) as He.
  { unfold effective. destruct bs as [|b]; [done|]. case_decide; lia. }
  destruct (export_files_spec f dir prefix postfix bs Hp Hf) as (Hexp & Hc & Hs & Hc0);
    [rewrite He; lia|].
  rewrite He in *. rewrite Nat2Z.id in *.
  set (c := Z.to_nat (ceil_div (Z.of_nat (length f)) (Z.of_nat (length f)))) in *.
  assert (c = 1) as Hc1 by nia.
  rewrite decide_True in Hexp by done.
  split; [exact Hexp|]. destruct Hp as [Hne _]. split.
  - unfold Sample.read.
    rewrite (file_names_prefix _ _ _ _ _ 1) by (done || lia).
    cbn [seq fmap list_fmap bind]. unfold read_files. cbn [fold_result].
    assert (fs (os_path_join dir (with_underscore prefix) +:+ pretty (0 + 1) +:+ postfix)
            = None) as ->; [|done].
    unfold fs, only_file. rewrite decide_False; [done|].
    unfold name, single_name.
    rewrite <- (underscore_agree prefix Hne).
    rewrite os_path_join_append by (by right). rewrite append_assoc.
    intros Heq. apply (inj (String.app _)) in Heq.
    apply (f_equal String.length) in Heq. rewrite !append_length in Heq.
    simpl in Heq. lia.
  - intros Hname. unfold Sample.read, file_names.
    destruct name as [|a nm] eqn:En; [done|]. rewrite <- En in *.
    assert (os_path_join EmptyString name = name) as ->.
    { unfold os_path_join. by destruct (str.startswith name "/"%char). }
    unfold read_files, ret. cbn [bind fold_result].
    unfold fs, only_file. rewrite decide_True by done. done.
Qed.

(** ** Concrete runs of the further properties *)

Ltac by_parts := repeat split; try reflexivity; try lia; try by_evaluation.

Lemma flat_lists_the_design_witness :
  Sample.flat demo_sample demo_world =
    inr (demo_M_1 ++ demo_M_2 ++ concat demo_N_j ++ concat demo_N_nj, demo_world) ∧
  rect (2 * Sample.n demo_sample * (1 + Sample.k demo_sample)) (Sample.k demo_sample)
       (demo_M_1 ++ demo_M_2 ++ concat demo_N_j ++ concat demo_N_nj).
Proof.
  apply (flat_lists_the_design demo_world demo_sample demo_M_1 demo_M_2 demo_N_j demo_N_nj).
  by_parts.
Defined.

Lemma flat_then_load_restores_witness :
  (∃ s' w',
     Sample.init demo_halton demo_shuffle 2 1 None (PyInt 0) None
                 (Some (numpy.loadtxt <$> pair_blocks)) empty_world = inr (s', w') ∧
     holds w' s' pair_M_1 pair_M_2 pair_N_j pair_N_nj) ∧
  Sample.init demo_halton demo_shuffle 1 2 None (PyInt 0) None
              (Some (numpy.loadtxt <$> [demo_flat])) empty_world =
    inl (Exception (loaded_message (1, 8) 2 1)) ∧
  (∃ s' w',
     Sample.init demo_halton demo_shuffle 1 2 None (PyInt 0) None
                 (Some (numpy.loadtxt <$> ((λ row, [row]) <$> demo_flat))) empty_world
       = inr (s', w') ∧
     holds w' s' demo_M_1 demo_M_2 demo_N_j demo_N_nj).
Proof.
  split_and!.
  - destruct (flat_then_load_restores demo_halton demo_shuffle pair_world pair_sample
                pair_M_1 pair_M_2 pair_N_j pair_N_nj) as (x & Hflat & Hload).
    + by_parts.
    + simpl. lia.
    + simpl. lia.
    + destruct (Hload pair_blocks None (PyInt 0) empty_world) as (Hrestore & _ & _).
      * vm_compute in Hflat. injection Hflat as <-. by_evaluation.
      * by_evaluation.
      * destruct Hrestore as (s' & w' & Hinit & _ & _ & Hholds & _); [left; simpl; lia|].
        by exists s', w'.
  - destruct (flat_then_load_restores demo_halton demo_shuffle demo_world demo_sample
                demo_M_1 demo_M_2 demo_N_j demo_N_nj) as (x & Hflat & Hload).
    + by_parts.
    + simpl. lia.
    + simpl. lia.
    + assert (x = demo_flat) as ->.
      { vm_compute in Hflat. injection Hflat as <-. by_evaluation. }
      destruct (Hload [demo_flat] None (PyInt 0) empty_world) as (_ & _ & Hfile).
      * reflexivity.
      * by_evaluation.
      * by apply Hfile.
  - destruct (flat_then_load_restores demo_halton demo_shuffle demo_world demo_sample
                demo_M_1 demo_M_2 demo_N_j demo_N_nj) as (x & Hflat & Hload).
    + by_parts.
    + simpl. lia.
    + simpl. lia.
    + destruct (Hload ((λ row, [row]) <$> demo_flat) None (PyInt 0) empty_world)
        as (Hrestore & _ & _).
      * vm_compute in Hflat. injection Hflat as <-. by_evaluation.
      * by_evaluation.
      * destruct Hrestore as (s' & w' & Hinit & _ & _ & Hholds & _); [right; by_evaluation|].
        by exists s', w'.
Defined.

Lemma evaluation_follows_flat_witness :
  ∃ x o w',
    Sample.flat demo_sample demo_world = inr (x, demo_world) ∧
    Objective.init 1 2 (Some demo_sample) (Some double) (PyArray []) None demo_world
      = inr (o, w') ∧
    calls w' = calls demo_world ++ x ∧ heap w' = heap demo_world ∧
    Objective.extract 1 2 (values double x) (of_Z 1) = inr o.
Proof.
  apply (evaluation_follows_flat 1 2 1 demo_sample double demo_world
           demo_M_1 demo_M_2 demo_N_j demo_N_nj).
  - by_parts.
  - reflexivity.
  - reflexivity.
  - lia.
  - intros x. reflexivity.
Defined.


Lemma load_leaves_no_nan_witness :
  ∃ o n', Objective.load 1 3 pruned_vals (of_Z 1) = inr o ∧ shaped o n' 1 ∧ n' ≤ 3 ∧
    (∀ i, i < n' → has_nan o i = false) ∧
    Objective.trim o = inr o.
Proof.
  apply (load_leaves_no_nan 1 3 pruned_vals (of_Z 1) 1).
  - by_evaluation.
  - lia.
Defined.



Lemma single_draw_gives_no_finite_index_witness :
  ∃ v s t,
    Varsens.compute_varsens (Objective.k single_draw) (Objective.n single_draw) single_draw
      = inr v ∧
    Varsens.sens v !! 0 ≫= (.!! 0) = Some s ∧
    Varsens.sens_t v !! 0 ≫= (.!! 0) = Some t ∧
    isfinite s = false ∧ isfinite t = false.
Proof.
  apply (single_draw_gives_no_finite_index single_draw 1 1 0 0).
  - by_evaluation.
  - lia.
  - reflexivity.
  - simpl. lia.
  - lia.
Defined.

Lemma constant_output_gives_no_finite_index_witness :
  ∃ v s t,
    Varsens.compute_varsens (Objective.k constant_objective)
                            (Objective.n constant_objective) constant_objective = inr v ∧
    Varsens.var_y v !! 0 = Some (Fin 0%Qc) ∧
    Varsens.sens v !! 0 ≫= (.!! 0) = Some s ∧
    Varsens.sens_t v !! 0 ≫= (.!! 0) = Some t ∧
    isfinite s = false ∧ isfinite t = false.
Proof.
  apply (constant_output_gives_no_finite_index constant_objective 2 1 0 0 5).
  - by_evaluation.
  - lia.
  - simpl. lia.
  - lia.
  - by_evaluation.
  - by_evaluation.
Defined.

Lemma nan_value_spoils_the_component_witness :
  ∃ v,
    Varsens.compute_varsens (Objective.k spoilt_objective) (Objective.n spoilt_objective)
                            spoilt_objective = inr v ∧
    Varsens.E_2 v !! 0 = Some NaN ∧ Varsens.var_y v !! 0 = Some NaN ∧
    ∀ p, p < Objective.k spoilt_objective →
      Varsens.sens v !! p ≫= (.!! 0) = Some NaN ∧
      Varsens.sens_t v !! p ≫= (.!! 0) = Some NaN.
Proof.
  apply (nan_value_spoils_the_component spoilt_objective 2 1 1 0).
  - by_evaluation.
  - lia.
  - lia.
  - right. reflexivity.
Defined.

Lemma estimates_symmetric_in_the_halves_witness :
  ∃ v v',
    Varsens.compute_varsens 2 2 demo_objective = inr v ∧
    Varsens.compute_varsens 2 2 (swapped demo_objective) = inr v' ∧
    Varsens.E_2 v' = Varsens.E_2 v ∧
    Varsens.U_j v' = Varsens.U_j v ∧
    Varsens.U_nj v' = Varsens.U_nj v.
Proof.
  apply (estimates_symmetric_in_the_halves 2 2 demo_objective).
  - simpl. lia.
  - simpl. lia.
Defined.

Lemma untrimmed_estimates_follow_the_formulas_witness :
  ∃ v,
    Varsens.compute_varsens (Objective.k demo_objective) (Objective.n demo_objective)
                            demo_objective = inr v ∧
    Varsens.E_2 v !! 0 =
      Some (mean_of_products 0 (Objective.fM_1 demo_objective)
                             (Objective.fM_2 demo_objective)) ∧
    Varsens.sens v !! 1 ≫= (.!! 0) =
      first_order_claimed (Objective.n demo_objective) v 1 0 ∧
    Varsens.sens_t v !! 1 ≫= (.!! 0) =
      total_order_claimed (Objective.n demo_objective) v 1 0.
Proof.
  apply (untrimmed_estimates_follow_the_formulas demo_objective 1 1 0).
  - by_evaluation.
  - simpl. lia.
  - simpl. lia.
  - lia.
  - reflexivity.
  - reflexivity.
  - reflexivity.
  - reflexivity.
Defined.

Lemma construction_touches_nothing_else_witness :
  let c := FromFiles [numpy.loadtxt demo_design] in
  ∃ s w',
    Sample.init demo_halton demo_shuffle 2 2 (Some (λ a, a)) (discard_of c) (raw_of c)
      (loadArgs_of c) demo_world = inr (s, w') ∧
    calls w' = calls demo_world ∧
    gets w' = gets demo_world ++ requests 2 2 c ∧
    ((∀ d, c ≠ Fresh d) → gets w' = gets demo_world) ∧
    ((∀ x loadArgs, c ≠ FromRaw x loadArgs) →
     ∀ l a, heap demo_world !! l = Some a → heap w' !! l = Some a).
Proof.
  apply (construction_touches_nothing_else demo_halton demo_shuffle 2 2 (Some (λ a, a))
           (FromFiles [numpy.loadtxt demo_design]) demo_world).
  - lia.
  - lia.
  - eexists. reflexivity.
  - by_evaluation.
  - intros a Ha. exact Ha.
  - by_evaluation.
Defined.

Lemma estimates_have_their_shapes_witness :
  ∃ v,
    Varsens.compute_varsens (Objective.k demo_objective) (Objective.n demo_objective)
                            demo_objective = inr v ∧
    length (Varsens.E_2 v) = 1 ∧ length (Varsens.var_y v) = 1 ∧
    rect (Objective.k demo_objective) 1 (Varsens.U_j v) ∧
    rect (Objective.k demo_objective) 1 (Varsens.U_nj v) ∧
    rect (Objective.k demo_objective) 1 (Varsens.sens v) ∧
    rect (Objective.k demo_objective) 1 (Varsens.sens_t v) ∧
    rect4 (Objective.k demo_objective) 1 (Varsens.sens_2 v) ∧
    rect4 (Objective.k demo_objective) 1 (Varsens.sens_2n v).
Proof.
  apply (estimates_have_their_shapes demo_objective 2 1).
  - by_evaluation.
  - lia.
Defined.

Lemma export_writes_the_rows_in_blocks_witness :
  ∃ files,
    Sample.export demo_sample "out" "sample" ".txt" (Rows 3) demo_world
      = inr (files, demo_world) ∧
    concat files.*2 = demo_M_1 ++ demo_M_2 ++ concat demo_N_j ++ concat demo_N_nj ∧
    Forall (λ a : mat, 0 < length a ∧ (Z.of_nat (length a) ≤ 3)%Z) files.*2 ∧
    (length files = 1 ↔
       (Z.of_nat (2 * Sample.n demo_sample * (1 + Sample.k demo_sample)) ≤ 3)%Z).
Proof.
  apply (export_writes_the_rows_in_blocks demo_world demo_sample
           demo_M_1 demo_M_2 demo_N_j demo_N_nj "out" "sample" ".txt" (Rows 3)).
  - by_parts.
  - simpl. lia.
  - split; [done|reflexivity].
  - simpl. lia.
Defined.

Lemma objective_export_writes_the_tables_witness :
  ∃ files,
    Objective.export demo_objective "out" "objective" ".txt" Inf = inr files ∧
    concat files.*2 =
      Objective.fM_1 demo_objective ++ Objective.fM_2 demo_objective
      ++ concat (Objective.fN_j demo_objective)
      ++ concat (Objective.fN_nj demo_objective) ∧
    Forall (λ a : mat, 0 < length a ∧ True) files.*2 ∧
    (length files = 1 ↔ True).
Proof.
  apply (objective_export_writes_the_tables demo_objective 2 1
           "out" "objective" ".txt" Inf).
  - by_evaluation.
  - lia.
  - split; [done|reflexivity].
  - exact I.
Defined.

Lemma export_edge_cases_witness :
  export_files demo_M_1 "out" "   " ".txt" (Rows 1) = inl (Raised IndexError) ∧
  export_files demo_M_1 "out" "sample" ".txt" (Rows 0) = inl ZeroDivisionError ∧
  export_files [] "out" "sample" ".txt" Inf = inl ZeroDivisionError ∧
  export_files demo_M_1 "out" "sample" ".txt" (Rows (-1)) = inr [].
Proof.
  split_and!.
  - apply (proj1 (export_edge_cases demo_M_1 "out" "   " ".txt")). reflexivity.
  - apply (proj2 (export_edge_cases demo_M_1 "out" "sample" ".txt")).
    split; [done|reflexivity].
  - apply (proj2 (export_edge_cases [] "out" "sample" ".txt")).
    + split; [done|reflexivity].
    + reflexivity.
  - apply (proj2 (export_edge_cases demo_M_1 "out" "sample" ".txt")).
    + split; [done|reflexivity].
    + lia.
Defined.

Lemma load_finds_the_names_of_export_witness :
  ∃ files,
    export_files (demo_M_1 ++ demo_M_2) "out" "sample_" ".txt" (Rows 3) = inr files ∧
    2 ≤ length files ∧
    file_names "a sample" "sample" "out" None (Some "sample_") ".txt"
               (Some (Z.of_nat (length files))) 1 = inr files.*1.
Proof.
  apply (load_finds_the_names_of_export (demo_M_1 ++ demo_M_2) "out" "sample_" ".txt" 3
           "a sample" "sample").
  - split; [done|reflexivity].
  - lia.
  - simpl. lia.
Defined.

Lemma read_stops_at_the_first_missing_file_witness :
  read_files demo_fs ["out/sample_1.txt"; "out/sample_2.txt"] =
    inr ((λ name, numpy.loadtxt (default [] (demo_fs name)))
           <$> ["out/sample_1.txt"; "out/sample_2.txt"]) ∧
  read_files demo_fs ["out/sample_1.txt"; "out/sample_3.txt"; "out/sample_4.txt"] =
    inl (Exception ("Cannot find input file " +:+ "out/sample_3.txt")).
Proof.
  split.
  - apply (proj1 (read_stops_at_the_first_missing_file demo_fs
                    ["out/sample_1.txt"; "out/sample_2.txt"])).
    repeat constructor; by eexists.
  - apply (proj2 (read_stops_at_the_first_missing_file demo_fs
                    ["out/sample_1.txt"; "out/sample_3.txt"; "out/sample_4.txt"])
             ["out/sample_1.txt"] "out/sample_3.txt" ["out/sample_4.txt"]).
    + reflexivity.
    + repeat constructor; by eexists.
    + reflexivity.
Defined.

Lemma single_block_is_not_found_by_prefix_witness :
  let name := single_name "out" "sample" ".txt" in
  let fs := only_file name demo_M_1 in
  export_files demo_M_1 "out" "sample" ".txt" Inf = inr [(name, demo_M_1)] ∧
  Sample.read fs "out" None (Some "sample") ".txt" (Some 1%Z) 1 =
    inl (Exception ("Cannot find input file "
                    +:+ os_path_join "out" (with_underscore "sample")
                    +:+ "1" +:+ ".txt")) ∧
  (name ≠ EmptyString →
     Sample.read fs EmptyString (Some name) None ".txt" None 1
       = inr [numpy.loadtxt demo_M_1]).
Proof.
  apply (single_block_is_not_found_by_prefix demo_M_1 "out" "sample" ".txt" Inf).
  - split; [done|reflexivity].
  - done.
  - exact I.
Defined.

Lemma discard_continues_the_sequence_witness :
  let point := λ i, demo_halton 2 (20 * 2 + 3 + i) in
  ∃ s1 w1' s2 w2',
    Sample.init demo_halton demo_shuffle 2 2 (Some (λ a, a)) (PyInt 3) None None empty_world
      = inr (s1, w1') ∧
    Sample.init demo_halton demo_shuffle 2 2 (Some (λ a, a)) (PyInt (3 + 2 * 2)) None None
      empty_world = inr (s2, w2') ∧
    deref2 w1' (Sample.M_1 s1) = Some (point <$> seq 0 2) ∧
    deref2 w1' (Sample.M_2 s1) = Some (point <$> seq 2 2) ∧
    deref2 w2' (Sample.M_1 s2) = Some (point <$> seq (2 * 2) 2) ∧
    deref2 w2' (Sample.M_2 s2) = Some (point <$> seq (3 * 2) 2).
Proof.
  apply (discard_continues_the_sequence demo_halton demo_shuffle 2 2 (λ a, a) 3
           empty_world empty_world).
  - lia.
  - lia.
  - apply demo_halton_length.
  - intros a Ha. exact Ha.
Defined.
